(** * maXTouch firmware flashing: the bootloader driver and the kernel-log cursor

    A shallow embedding of [src/tools/mxt_app/bootloader.c] and of the message
    list of [src/libmaxtouch/sysfs/dmesg.c].

    C integers are [Z]; an [unsigned char] is a [Z] kept in [0, 256) by
    [uchar]; the firmware file is the list of characters still to be read
    together with the stream's end-of-file indicator; the chip is a script of
    answers, one per transport operation.  Every function returns, next to
    its C result, the new state and the list of events it produced, in the
    order the C code produces them. *)

From Stdlib Require Import ZArith List String Ascii Bool Lia.
Import ListNotations.
Open Scope Z_scope.

(** ** Characters and the [%x] conversion of [sscanf] *)

Module CLib.

Definition EOF : Z := -1.

Definition code (c : ascii) : Z := Z.of_N (N_of_ascii c).

(** [isspace] in the C locale: space, and the controls 9 to 13. *)
Definition isspace (c : ascii) : bool :=
  let n := code c in (n =? 32) || ((9 <=? n) && (n <=? 13)).

(** The value of a hexadecimal digit, [None] for any other character. *)
Definition xdigit (c : ascii) : option Z :=
  let n := code c in
  if (48 <=? n) && (n <=? 57) then Some (n - 48)
  else if (65 <=? n) && (n <=? 70) then Some (n - 55)
  else if (97 <=? n) && (n <=? 102) then Some (n - 87)
  else None.

Definition isxdigit (c : ascii) : bool :=
  match xdigit c with Some _ => true | None => false end.

(** A C string stops at its first NUL. *)
Fixpoint c_string (s : list ascii) : list ascii :=
  match s with
  | [] => []
  | c :: r => if code c =? 0 then [] else c :: c_string r
  end.

Fixpoint skip_space (s : list ascii) : list ascii :=
  match s with
  | [] => []
  | c :: r => if isspace c then skip_space r else s
  end.

(** The longest run of hexadecimal digits at the head of [s], folded into
    its value; [None] when [s] does not start with a digit. *)
Fixpoint xdigits (acc : option Z) (s : list ascii) : option Z :=
  match s with
  | [] => acc
  | c :: r =>
      match xdigit c with
      | Some d =>
          xdigits (Some (16 * match acc with Some a => a | None => 0 end + d)) r
      | None => acc
      end
  end.

Definition is_sign (c : ascii) : bool := (code c =? 43) || (code c =? 45).
Definition is_x (c : ascii) : bool := (code c =? 120) || (code c =? 88).

(** [sscanf(str, "%x", &val)] as the GNU C library (2.36) does it: white
    space is skipped; end of string there is an input failure ([EOF]); a
    sign is taken if there is one; a [0] is taken as the first digit of the
    number and an [x] or [X] that follows it is passed over; then comes the
    longest run of hexadecimal digits.  With no digit taken the call
    returns 0 and [val] is not assigned.  Otherwise it returns 1 and [val]
    receives the value, negated modulo 2^32 after a minus sign: a bare
    [0x] gives 0.  The result is the pair of the return value and of the
    value assigned, if any.  The strings parsed here have at most two
    characters, so no overflow case arises. *)
Definition sscanf_x (str : list ascii) : Z * option Z :=
  match skip_space (c_string str) with
  | [] => (EOF, None)
  | c :: r =>
      let neg := code c =? 45 in
      let body := if is_sign c then r else c :: r in
      let '(taken, digits) :=
        match body with
        | z :: x :: r' =>
            if (code z =? 48) && is_x x then (Some 0, r') else (None, body)
        | _ => (None, body)
        end in
      match xdigits taken digits with
      | None => (0, None)
      | Some v => (1, Some ((if neg then - v else v) mod 2 ^ 32))
      end
  end.

(** Every character, for statements checked character by character. *)
Definition all_ascii : list ascii := map ascii_of_nat (seq 0 256).

(** A two-character string in which [sscanf] meets the end of the string
    before any conversion: it starts with NUL, or with white space that
    lasts up to a NUL or up to the end. *)
Definition blank (c0 c1 : ascii) : bool :=
  (code c0 =? 0) || (isspace c0 && ((code c1 =? 0) || isspace c1)).

(** What [sscanf_x] makes of the two-character string [c0 c1], as one
    test: the result is 1, 0 or [EOF]; a value is assigned exactly when it
    is 1; it is [EOF] exactly on a blank string; and when [c0] is a
    hexadecimal digit the result is 1 and the value is that of both
    digits if [c1] is a digit too, of [c0] alone otherwise. *)
Definition group_scanned (c0 c1 : ascii) : bool :=
  let '(ret, assigned) := sscanf_x [c0; c1] in
  ((ret =? 1) || (ret =? 0) || (ret =? EOF))
  && Bool.eqb (ret =? 1)
              (match assigned with Some _ => true | None => false end)
  && Bool.eqb (ret =? EOF) (blank c0 c1)
  && match xdigit c0 with
     | None => true
     | Some h =>
         match assigned with
         | Some v =>
             v =? match xdigit c1 with Some l => 16 * h + l | None => h end
         | None => false
         end
     end.

End CLib.

(** ** The firmware file: a [FILE *] opened for reading *)

Module Stdio.
Import CLib.

Record FILE : Type := mkFILE {
  f_chars : list ascii;   (* what is left to read *)
  f_eof : bool            (* the end-of-file indicator *)
}.

Definition fopen (content : string) : FILE :=
  mkFILE (list_ascii_of_string content) false.

(** [fgetc]: the next character as an [unsigned char] converted to [int],
    or [EOF] with the indicator set. *)
Definition fgetc (f : FILE) : Z * FILE :=
  match f_chars f with
  | [] => (EOF, mkFILE [] true)
  | c :: r => (code c, mkFILE r (f_eof f))
  end.

Definition feof (f : FILE) : bool := f_eof f.

(** Storing an [int] into a [char] of a string keeps its low eight bits. *)
Definition to_char (n : Z) : ascii := ascii_of_N (Z.to_N (n mod 256)).

End Stdio.

(** ** bootloader.c *)

Module Bootloader.
Import CLib Stdio.

Definition MXT_UNLOCK_CMD_MSB : Z := 0xaa.
Definition MXT_UNLOCK_CMD_LSB : Z := 0xdc.

Definition MXT_WAITING_BOOTLOAD_CMD : Z := 0xc0.
Definition MXT_WAITING_FRAME_DATA : Z := 0x80.
Definition MXT_FRAME_CRC_CHECK : Z := 0x02.
Definition MXT_FRAME_CRC_FAIL : Z := 0x03.
Definition MXT_FRAME_CRC_PASS : Z := 0x04.
Definition MXT_APP_CRC_FAIL : Z := 0x40.
Definition MXT_BOOT_STATUS_MASK : Z := 0x3f.

Definition FIRMWARE_BUFFER_SIZE : Z := 1024.
Definition MXT_RESET_TIME : Z := 2.

(** Conversion to [unsigned char]. *)
Definition uchar (n : Z) : Z := n mod 256.

(** *** What the driver does to the outside world *)

Inductive log_level : Type :=
  LOG_VERBOSE | LOG_DEBUG | LOG_INFO | LOG_WARN | LOG_ERROR.

Inductive event : Type :=
| EvLog (lvl : log_level) (fmt : string) (args : list Z)
| EvWaitChg                                   (* wait_for_chg() *)
| EvRead (n : Z) (got : option (list Z))      (* mxt_bootloader_read(buf, n) *)
| EvWrite (bytes : list Z) (ret : Z)          (* mxt_bootloader_write(buf, count) *)
| EvFclose
| EvSleep (seconds : Z)
| EvSetAddress (adapter address : Z)         (* i2c_dev_set_address *)
| EvScan                                      (* mxt_scan() *)
| EvGetInfo                                   (* mxt_get_info() *)
| EvReset (bootloader_mode : bool)            (* mxt_reset_chip *)
| EvRelease.                                  (* mxt_release() *)

Definition LOG (lvl : log_level) (fmt : string) (args : list Z) : list event :=
  [EvLog lvl fmt args].

(** One answer of the chip to a read: the transfer fails, or the chip
    shifts out its status byte followed by the bootloader id and version,
    of which a one-byte read takes the first only. *)
Inductive reply : Type :=
| RdFail
| RdOk (status id version : Z).

(** The transport: the answers to the reads still to come and the return
    values of the writes still to come.  A transport whose script is used
    up fails the operation (-1): a run over a script is a run of the C code
    in which the chip's answers end with a failed transfer.  The C code
    puts no bound of its own on the re-reads of [mxt_check_bootloader] nor
    on the loop of [send_frames] after a retry, so what holds for every
    script holds of every run that returns, and says nothing of whether a
    run returns. *)
Record transport : Type := mkTransport {
  t_reads : list reply;
  t_writes : list Z
}.

Definition mxt_bootloader_write (t : transport) (buf : list Z)
  : Z * transport * list event :=
  match t_writes t with
  | [] => (-1, t, [EvWrite buf (-1)])
  | r :: ws => (r, mkTransport (t_reads t) ws, [EvWrite buf r])
  end.

(** *** The bootloader context *)

Record bootloader_ctx : Type := mkCtx {
  have_bootloader_version : bool;
  extended_id_mode : bool;
  fp : FILE;
  curr_version : string;
  i2c_adapter : Z;
  bootloader_address : Z;
  appmode_address : Z;
  check_version : bool;
  new_version : string
}.

Definition set_have_bootloader_version (b : bool) (c : bootloader_ctx) :=
  mkCtx b (extended_id_mode c) (fp c) (curr_version c) (i2c_adapter c)
        (bootloader_address c) (appmode_address c) (check_version c)
        (new_version c).

Definition set_extended_id_mode (b : bool) (c : bootloader_ctx) :=
  mkCtx (have_bootloader_version c) b (fp c) (curr_version c) (i2c_adapter c)
        (bootloader_address c) (appmode_address c) (check_version c)
        (new_version c).

Definition set_fp (f : FILE) (c : bootloader_ctx) :=
  mkCtx (have_bootloader_version c) (extended_id_mode c) f (curr_version c)
        (i2c_adapter c) (bootloader_address c) (appmode_address c)
        (check_version c) (new_version c).

(** *** wait_for_chg, unlock_bootloader *)

(** The wait itself (polling CHG on USB, a fixed sleep otherwise) is one
    event; its return value is not looked at by the caller. *)
Definition wait_for_chg : list event := [EvWaitChg].

Definition unlock_bootloader (t : transport) : Z * transport * list event :=
  let buf := [MXT_UNLOCK_CMD_LSB; MXT_UNLOCK_CMD_MSB] in
  mxt_bootloader_write t buf.

(** *** mxt_check_bootloader *)

(** The part of [mxt_check_bootloader] after the [switch]: compare the
    masked value with the expected state, then record the identity. *)
Definition check_tail (ctx : bootloader_ctx) (state val bootloader_id : Z)
  : Z * bootloader_ctx * list event :=
  if negb (val =? state) then
    (-2, ctx, LOG LOG_ERROR "Invalid bootloader mode state %X" [val])
  else if negb (have_bootloader_version ctx)
          && (state =? MXT_WAITING_BOOTLOAD_CMD) then
    if negb (Z.lor bootloader_id 0x20 =? 0) then
      (0, set_extended_id_mode true ctx,
       LOG LOG_INFO "Bootloader using extended ID mode" [])
    else
      let bootloader_id := Z.land bootloader_id 0x1f in
      (0, set_have_bootloader_version true ctx,
       LOG LOG_INFO "Bootloader ID:%d" [bootloader_id])
  else (0, ctx, []).

(** The function recurses where the C code says [goto recheck]; every pass
    takes one answer off the read script, which is what the recursion is
    on.  The result is the return value, the context, the rest of the read
    script and the events.  The local [bootloader_id] is looked at only
    when [state] is [MXT_WAITING_BOOTLOAD_CMD], where it has just been
    assigned; the other two cases hand [check_tail] a 0 in its place. *)
Fixpoint mxt_check_bootloader (reads : list reply) (ctx : bootloader_ctx)
    (state : Z) {struct reads}
  : Z * bootloader_ctx * list reply * list event :=
  let ev_wait :=
    if negb (state =? MXT_WAITING_BOOTLOAD_CMD) then wait_for_chg else [] in
  let triple :=
    negb (have_bootloader_version ctx) && extended_id_mode ctx
    && (state =? MXT_WAITING_FRAME_DATA) in
  let ev_try :=
    if triple then LOG LOG_INFO "Attempting to retrieve bootloader version" []
    else [] in
  let n := if triple then 3 else 1 in
  match reads with
  | [] => (-1, ctx, [], ev_wait ++ ev_try ++ [EvRead n None])
  | RdFail :: reads' => (-1, ctx, reads', ev_wait ++ ev_try ++ [EvRead n None])
  | RdOk b0 b1 b2 :: reads' =>
      let val := uchar b0 in
      let ctx := if triple then set_have_bootloader_version true ctx else ctx in
      let ev_read :=
        if triple then
          [EvRead 3 (Some [uchar b0; uchar b1; uchar b2])]
          ++ LOG LOG_INFO "Bootloader ID:%d Version:%d" [uchar b1; uchar b2]
        else [EvRead 1 (Some [uchar b0])] in
      let evs :=
        ev_wait ++ ev_try ++ ev_read
        ++ LOG LOG_VERBOSE "Bootloader status %02X" [val] in
      let recheck (ev_more : list event) :=
        let '(r, c, rest, ev) := mxt_check_bootloader reads' ctx state in
        (r, c, rest, evs ++ ev_more ++ ev) in
      let finish (val bootloader_id : Z) :=
        let '(r, c, ev) := check_tail ctx state val bootloader_id in
        (r, c, reads', evs ++ ev) in
      if state =? MXT_WAITING_BOOTLOAD_CMD then
        let bootloader_id := Z.land val MXT_BOOT_STATUS_MASK in
        let val := uchar (Z.land val (Z.lnot MXT_BOOT_STATUS_MASK)) in
        if val =? MXT_APP_CRC_FAIL then
          recheck (LOG LOG_INFO "Bootloader reports APP CRC failure" [])
        else if val =? MXT_WAITING_FRAME_DATA then
          (-3, ctx, reads', evs ++ LOG LOG_INFO "Bootloader already unlocked" [])
        else finish val bootloader_id
      else if state =? MXT_WAITING_FRAME_DATA then
        if val =? MXT_FRAME_CRC_PASS then
          recheck (LOG LOG_INFO "Bootloader still giving CRC PASS" [])
        else
          let val := uchar (Z.land val (Z.lnot MXT_BOOT_STATUS_MASK)) in
          finish val 0
      else if state =? MXT_FRAME_CRC_PASS then
        if val =? MXT_FRAME_CRC_CHECK then recheck []
        else if val =? MXT_FRAME_CRC_FAIL then
          (-4, ctx, reads', evs ++ LOG LOG_ERROR "Bootloader reports FRAME_CRC_FAIL" [])
        else finish val 0
      else (-2, ctx, reads', evs)
  end.

(** *** get_hex_value *)

(** The local [int val] is not initialised and [sscanf] leaves it alone
    when it converts nothing: [junk] stands for what it then holds.  The
    result is the return value, the byte stored through [ptr] ([None] when
    the function returns before the store) and the context with the file
    advanced. *)
Definition get_hex_value (junk : Z) (ctx : bootloader_ctx)
  : Z * option Z * bootloader_ctx :=
  let '(c0, f) := fgetc (fp ctx) in
  let '(c1, f) := fgetc f in
  let str := [to_char c0; to_char c1] in
  let ctx := set_fp f ctx in
  if feof f then (EOF, None, ctx)
  else
    let '(ret, assigned) := sscanf_x str in
    let val := match assigned with Some v => v | None => junk end in
    (ret, Some (uchar val), ctx).

(** *** send_frames *)

(** [buffer[i] = v] on the 1024-byte array. *)
Fixpoint poke (i : nat) (v : Z) (buf : list Z) : list Z :=
  match buf, i with
  | [], _ => []
  | _ :: r, O => v :: r
  | x :: r, S i' => x :: poke i' v r
  end.

Definition store (i : Z) (v : option Z) (buf : list Z) : list Z :=
  match v with
  | Some b => poke (Z.to_nat i) b buf
  | None => buf
  end.

(** The locals of [send_frames] that live across loop iterations, with the
    context and the transport. *)
Record frame_state : Type := mkFrameState {
  fs_ctx : bootloader_ctx;
  fs_transport : transport;
  buffer : list Z;
  frame_size : Z;
  frame : Z;
  frame_retry : Z
}.

(** How a piece of the loop body ends: it falls through, it leaves the loop
    ([break]), or it leaves the function ([return r]). *)
Inductive control : Type :=
| Next
| Break
| Return (r : Z).

(** [for (i = 2; i < frame_size; i++)], with [n] the iterations left. *)
Fixpoint read_body (junk : Z) (n : nat) (i : Z) (ctx : bootloader_ctx)
    (buf : list Z) : control * bootloader_ctx * list Z * list event :=
  match n with
  | O => (Next, ctx, buf, [])
  | S n' =>
      let '(ret, v, ctx) := get_hex_value junk ctx in
      let buf := store i v buf in
      if ret =? EOF then
        (Return (-1), ctx, buf,
         LOG LOG_ERROR "Unexpected end of firmware file" [])
      else read_body junk n' (i + 1) ctx buf
  end.

Definition nth_byte (i : nat) (buf : list Z) : Z := nth i buf 0.

(** The block under [if (frame_retry == 0)]: parse the next frame of the
    image into [buffer]. *)
Definition read_frame (junk : Z) (s : frame_state)
  : control * frame_state * list event :=
  let '(r0, v0, ctx) := get_hex_value junk (fs_ctx s) in
  let buf := store 0 v0 (buffer s) in
  if r0 =? EOF then
    (Break,
     mkFrameState ctx (fs_transport s) buf (frame_size s) (frame s)
                  (frame_retry s),
     LOG LOG_INFO "End of file" [])
  else
    let '(r1, v1, ctx) := get_hex_value junk ctx in
    let buf := store 1 v1 buf in
    if r1 =? EOF then
      (Return (-1),
       mkFrameState ctx (fs_transport s) buf (frame_size s) (frame s)
                    (frame_retry s),
       LOG LOG_ERROR "Unexpected end of firmware file" [])
    else
      let size := Z.lor (Z.shiftl (nth_byte 0 buf) 8) (nth_byte 1 buf) in
      let ev_size := LOG LOG_DEBUG "Frame %d: size %d" [frame s; size] in
      (* Allow for CRC bytes at end of frame *)
      let size := size + 2 in
      if size >? FIRMWARE_BUFFER_SIZE then
        (Return (-1),
         mkFrameState ctx (fs_transport s) buf size (frame s) (frame_retry s),
         ev_size ++ LOG LOG_ERROR "Frame too big" [])
      else
        let '(c, ctx, buf, ev) :=
          read_body junk (Z.to_nat (size - 2)) 2 ctx buf in
        (c,
         mkFrameState ctx (fs_transport s) buf size (frame s) (frame_retry s),
         ev_size ++ ev).

(** The handshake, the write and the CRC check of one loop iteration. *)
Definition transmit_frame (s : frame_state)
  : control * frame_state * list event :=
  let t := fs_transport s in
  let '(r, ctx, reads, ev_hs) :=
    mxt_check_bootloader (t_reads t) (fs_ctx s) MXT_WAITING_FRAME_DATA in
  let t := mkTransport reads (t_writes t) in
  if r <? 0 then
    (Return (-1),
     mkFrameState ctx t (buffer s) (frame_size s) (frame s) (frame_retry s),
     ev_hs ++ LOG LOG_ERROR "Unexpected bootloader state" [])
  else
    (* Write one frame to device; the return value is dropped *)
    let '(_, t, ev_wr) :=
      mxt_bootloader_write t (firstn (Z.to_nat (frame_size s)) (buffer s)) in
    let ev_crc := LOG LOG_VERBOSE "Checking CRC" [] in
    let '(ret, ctx, reads, ev_chk) :=
      mxt_check_bootloader (t_reads t) ctx MXT_FRAME_CRC_PASS in
    let t := mkTransport reads (t_writes t) in
    let ev := ev_hs ++ ev_wr ++ ev_crc ++ ev_chk in
    if negb (ret =? 0) then
      if frame_retry s >? 0 then
        (Return (-1),
         mkFrameState ctx t (buffer s) (frame_size s) (frame s) (frame_retry s),
         ev ++ LOG LOG_ERROR "Failure sending frame %d - aborting" [frame s])
      else
        let frame_retry := frame_retry s + 1 in
        (Next,
         mkFrameState ctx t (buffer s) (frame_size s) (frame s) frame_retry,
         ev ++ LOG LOG_ERROR "Frame %d: CRC fail, retry %d"
                   [frame s; frame_retry])
    else
      let frame := frame s + 1 in
      (Next,
       mkFrameState ctx t (buffer s) (frame_size s) frame (frame_retry s),
       ev ++ LOG LOG_DEBUG "CRC pass" []
          ++ (if Z.rem frame 20 =? 0 then
                LOG LOG_INFO "Frame %d: Sent %d bytes" [frame; frame_size s]
              else
                LOG LOG_VERBOSE "Frame %d: Sent %d bytes" [frame; frame_size s])).

(** One pass through the body of [while (!feof(ctx->fp))]. *)
Definition frame_iter (junk : Z) (s : frame_state)
  : control * frame_state * list event :=
  let '(c, s1, ev_rd) :=
    if frame_retry s =? 0 then read_frame junk s else (Next, s, []) in
  match c with
  | Next =>
      let '(c, s2, ev_tx) := transmit_frame s1 in
      (c, s2, ev_rd ++ ev_tx)
  | _ => (c, s1, ev_rd)
  end.

(** The [while] loop.  [Some (None, ...)] is the loop left by its test or
    by [break], [Some (Some r, ...)] is [return r] from inside it, and
    [None] means that [fuel] passes were not enough. *)
Fixpoint frame_loop (junk : Z) (fuel : nat) (s : frame_state)
  : option (option Z * frame_state * list event) :=
  match fuel with
  | O => None
  | S fuel' =>
      if feof (fp (fs_ctx s)) then Some (None, s, [])
      else
        match frame_iter junk s with
        | (Next, s', ev) =>
            match frame_loop junk fuel' s' with
            | Some (r, s'', ev') => Some (r, s'', ev ++ ev')
            | None => None
            end
        | (Break, s', ev) => Some (None, s', ev)
        | (Return r, s', ev) => Some (Some r, s', ev)
        end
  end.

(** Every pass that falls through takes at least one answer off the read
    script, so one pass more than the script is long is enough (theorem
    [frame_loop_enough_fuel]). *)
Definition loop_fuel (s : frame_state) : nat :=
  S (List.length (t_reads (fs_transport s))).

(** [send_frames] from the line [frame = 1] on. *)
Definition frame_phase (junk : Z) (buffer0 : list Z) (ctx : bootloader_ctx)
    (t : transport) : option (Z * frame_state * list event) :=
  let s := mkFrameState ctx t buffer0 0 1 0 in
  match frame_loop junk (loop_fuel s) s with
  | None => None
  | Some (Some r, s', ev) => Some (r, s', ev)
  | Some (None, s', ev) =>
      Some (0, s',
            ev ++ [EvFclose] ++ LOG LOG_INFO "Done" []
               ++ [EvSleep MXT_RESET_TIME])
  end.

(** [buffer0] is what the array [buffer] holds on entry (it is not
    initialised).  The result is the return value, the context, the
    transport and the events; [None] only if the loop ran out of fuel,
    which it does not over a script (theorem [send_frames_returns]). *)
Definition send_frames (junk : Z) (buffer0 : list Z) (ctx : bootloader_ctx)
    (t : transport) : option (Z * bootloader_ctx * transport * list event) :=
  let ctx := set_have_bootloader_version false ctx in
  let ctx := set_extended_id_mode false ctx in
  let '(ret, ctx, reads, ev_chk) :=
    mxt_check_bootloader (t_reads t) ctx MXT_WAITING_BOOTLOAD_CMD in
  let t := mkTransport reads (t_writes t) in
  let frames (t : transport) (ev : list event) :=
    match frame_phase junk buffer0 ctx t with
    | Some (r, s, ev') =>
        Some (r, fs_ctx s, fs_transport s,
              ev ++ LOG LOG_INFO "Sending frames..." [] ++ ev')
    | None => None
    end in
  if ret =? 0 then
    let ev := ev_chk ++ LOG LOG_INFO "Unlocking bootloader" [] in
    let '(r, t, ev_wr) := unlock_bootloader t in
    if r <? 0 then
      Some (-1, ctx, t,
            ev ++ ev_wr ++ LOG LOG_ERROR "Failure to unlock bootloader" [])
    else frames t (ev ++ ev_wr ++ LOG LOG_INFO "Bootloader unlocked" [])
  else if ret =? -3 then
    frames t (ev_chk ++ LOG LOG_INFO "Bootloader found" [])
  else
    Some (-1, ctx, t, ev_chk ++ LOG LOG_ERROR "Bootloader not found" []).

(** *** lookup_bootloader_addr, mxt_bootloader_init_chip *)

(** [family_id] is [info_block.id->family_id], which the C function reads
    from the global info block. *)
Definition lookup_bootloader_addr (family_id : Z) (addr : Z) : Z :=
  let normal := addr - 0x26 in
  if (addr =? 0x4a) || (addr =? 0x4b) then
    if family_id >=? 0xa2 then addr - 0x24
    else normal                        (* Fall through for normal case *)
  else if (addr =? 0x4c) || (addr =? 0x4d) || (addr =? 0x5a) || (addr =? 0x5b)
  then normal
  else -1.

(** The device types the code names; [E_OTHER] is any other value of the
    enumeration of libmaxtouch.h. *)
Inductive mxt_device_type : Type :=
  E_SYSFS | E_SYSFS_DEBUG_NG | E_USB | E_I2C_DEV | E_OTHER.

Definition device_type_eqb (a b : mxt_device_type) : bool :=
  match a, b with
  | E_SYSFS, E_SYSFS | E_SYSFS_DEBUG_NG, E_SYSFS_DEBUG_NG | E_USB, E_USB
  | E_I2C_DEV, E_I2C_DEV | E_OTHER, E_OTHER => true
  | _, _ => false
  end.

(** What libmaxtouch answers to [mxt_bootloader_init_chip], call by call.
    The library is not part of these sources; its answers are inputs. *)
Record platform : Type := mkPlatform {
  HAVE_LIBUSB : bool;                  (* the build option *)
  stale_family_id : Z;                 (* the info block before mxt_get_info *)
  scan_result : Z;                     (* mxt_scan() *)
  type_after_scan : mxt_device_type;   (* mxt_get_device_type(), line 398 *)
  sysfs_i2c_adapter : Z;
  sysfs_i2c_address : Z;
  usb_bootloader : bool;               (* usb_is_bootloader() *)
  get_info_result : Z;                 (* mxt_get_info() *)
  family_id : Z;                       (* the info block once read *)
  firmware_version : string;           (* mxt_get_firmware_version *)
  reset_result : Z;                    (* mxt_reset_chip(true) *)
  type_after_reset : mxt_device_type   (* mxt_get_device_type(), line 456 *)
}.

Definition set_addresses (adapter boot app : Z) (c : bootloader_ctx) :=
  mkCtx (have_bootloader_version c) (extended_id_mode c) (fp c)
        (curr_version c) adapter boot app (check_version c) (new_version c).

Definition set_curr_version (v : string) (c : bootloader_ctx) :=
  mkCtx (have_bootloader_version c) (extended_id_mode c) (fp c) v
        (i2c_adapter c) (bootloader_address c) (appmode_address c)
        (check_version c) (new_version c).

(** From [mxt_get_info()] to the end of [mxt_bootloader_init_chip]. *)
Definition init_chip_reset (p : platform) (ctx : bootloader_ctx)
  : Z * bootloader_ctx * list event :=
  if negb (get_info_result p =? 0) then
    (-1, ctx, [EvGetInfo] ++ LOG LOG_ERROR "Could not read info block!" [])
  else
    let ctx := set_curr_version (firmware_version p) ctx in
    let ev :=
      [EvGetInfo] ++ LOG LOG_INFO "Current firmware version: %s" [] in
    if check_version ctx && String.eqb (curr_version ctx) (new_version ctx)
    then (-1, ctx, ev ++ LOG LOG_INFO "Version already %s, exiting" [])
    else
      let ev := ev ++ LOG LOG_INFO "Skipping version check" []
                   ++ [EvReset true] in
      (* Change to the bootloader mode *)
      if reset_result p <? 0 then
        (-1, ctx, ev ++ LOG LOG_ERROR "Reset failure - aborting" [])
      else
        let ev := ev ++ [EvSleep MXT_RESET_TIME] in
        let ctx :=
          if device_type_eqb (type_after_reset p) E_I2C_DEV then
            set_addresses (i2c_adapter ctx)
              (lookup_bootloader_addr (family_id p) (appmode_address ctx))
              (appmode_address ctx) ctx
          else ctx in
        (0, ctx, ev ++ [EvRelease]).

Definition mxt_bootloader_init_chip (p : platform) (ctx : bootloader_ctx)
    (i2c_adapter i2c_address : Z) : Z * bootloader_ctx * list event :=
  if (i2c_adapter >=? 0) && (i2c_address >? 0) then
    let ctx :=
      set_addresses i2c_adapter (bootloader_address ctx) (appmode_address ctx)
                    ctx in
    if lookup_bootloader_addr (stale_family_id p) i2c_address =? -1 then
      (0, set_addresses i2c_adapter i2c_address (-1) ctx,
       LOG LOG_INFO "Trying bootloader" [])
    else
      let ctx :=
        set_addresses i2c_adapter (bootloader_address ctx) i2c_address ctx in
      let '(r, ctx, ev) := init_chip_reset p ctx in
      (r, ctx, [EvSetAddress i2c_adapter i2c_address] ++ ev)
  else if scan_result p <? 1 then
    (-1, ctx, [EvScan] ++ LOG LOG_INFO "Could not find a device" [])
  else
    let ev := [EvScan] ++ LOG LOG_INFO "Chip detected" [] in
    match type_after_scan p with
    | E_SYSFS | E_SYSFS_DEBUG_NG =>
        let ctx :=
          set_addresses (sysfs_i2c_adapter p) (bootloader_address ctx)
                        (sysfs_i2c_address p) ctx in
        let '(r, ctx, ev') := init_chip_reset p ctx in
        (r, ctx,
         ev ++ LOG LOG_INFO "Switching to i2c-dev mode" []
            ++ [EvSetAddress (sysfs_i2c_adapter p) (sysfs_i2c_address p)]
            ++ ev')
    | E_USB =>
        if HAVE_LIBUSB p then
          if usb_bootloader p then
            (0, ctx, ev ++ LOG LOG_INFO "USB device in bootloader mode" [])
          else
            let '(r, ctx, ev') := init_chip_reset p ctx in
            (r, ctx, ev ++ ev')
        else (-1, ctx, ev ++ LOG LOG_ERROR "Unsupported device type" [])
    | _ => (-1, ctx, ev ++ LOG LOG_ERROR "Unsupported device type" [])
    end.

(** *** Reading a trace *)

Definition is_io (e : event) : bool :=
  match e with
  | EvWaitChg | EvRead _ _ | EvWrite _ _ => true
  | _ => false
  end.

(** The waits, reads and writes of a trace, in order. *)
Definition io_only (evs : list event) : list event := filter is_io evs.

(** The byte strings written to the chip, in order. *)
Fixpoint writes_of (evs : list event) : list (list Z) :=
  match evs with
  | [] => []
  | EvWrite b _ :: r => b :: writes_of r
  | _ :: r => writes_of r
  end.

(** The reads of a trace with, for each, whether the transport operation
    just before it was a readiness wait. *)
Fixpoint reads_waited (prev_wait : bool) (evs : list event) : list bool :=
  match evs with
  | [] => []
  | EvWaitChg :: r => reads_waited true r
  | EvRead _ _ :: r => prev_wait :: reads_waited false r
  | EvWrite _ _ :: r => reads_waited false r
  | _ :: r => reads_waited prev_wait r
  end.

(** The severities of the progress messages of a trace, in order. *)
Fixpoint progress_levels (evs : list event) : list log_level :=
  match evs with
  | [] => []
  | EvLog lvl fmt _ :: r =>
      if String.eqb fmt "Frame %d: Sent %d bytes" then lvl :: progress_levels r
      else progress_levels r
  | _ :: r => progress_levels r
  end.

(** *** Notions the statements about [send_frames] use *)

(** The answers the chip still has for reads. *)
Definition reads_left (s : frame_state) : nat :=
  List.length (t_reads (fs_transport s)).

(** The return value of the handshake that opens the transmission of the
    frame in [buffer]. *)
Definition handshake (s : frame_state) : Z :=
  let '(r, _, _, _) :=
    mxt_check_bootloader (t_reads (fs_transport s)) (fs_ctx s)
                         MXT_WAITING_FRAME_DATA in
  r.

Definition unlock_bytes : list Z := [MXT_UNLOCK_CMD_LSB; MXT_UNLOCK_CMD_MSB].

(** The size the two header bytes of [buf] announce, CRC included. *)
Definition announced_size (buf : list Z) : Z :=
  Z.lor (Z.shiftl (nth_byte 0 buf) 8) (nth_byte 1 buf) + 2.

(** [buffer] holds a frame that [read_frame] has accepted. *)
Definition framed (s : frame_state) : Prop :=
  frame_size s = announced_size (buffer s)
  /\ frame_size s <= FIRMWARE_BUFFER_SIZE.

(** What the loop keeps: the buffer has its 1024 cells, and while a retry
    is pending it holds an accepted frame. *)
Definition loop_inv (s : frame_state) : Prop :=
  List.length (buffer s) = Z.to_nat FIRMWARE_BUFFER_SIZE
  /\ (frame_retry s <> 0 -> framed s).

(** The formats of the error messages of a trace, in order. *)
Fixpoint errors (evs : list event) : list string :=
  match evs with
  | [] => []
  | EvLog LOG_ERROR fmt _ :: r => fmt :: errors r
  | _ :: r => errors r
  end.

(** The two error messages of the part of [send_frames] that reads a
    frame from the image. *)
Definition reader_errors : list string :=
  ["Unexpected end of firmware file"; "Frame too big"]%string.

(** The error message that rejects a frame for its size. *)
Definition is_too_big (e : event) : bool :=
  match e with
  | EvLog LOG_ERROR fmt _ => String.eqb fmt "Frame too big"
  | _ => false
  end.

(** The kinds of event [mxt_check_bootloader] produces: waits, reads, and
    messages other than the two of the frame loop that statements below
    look for. *)
Definition is_handshake_event (e : event) : bool :=
  match e with
  | EvWaitChg | EvRead _ _ => true
  | EvLog _ fmt _ =>
      negb (String.eqb fmt "Frame too big")
      && negb (String.eqb fmt "Frame %d: Sent %d bytes")
  | _ => false
  end.

End Bootloader.

(** ** dmesg.c: the list of kernel messages and its cursor *)

Module Dmesg.

(** A node of the list.  The [next] pointers are the list structure: the
    global [dmesg_list] is the list of its nodes ([[]] is the null
    pointer), and the cursor [dmesg_ptr] is the list of the nodes from the
    one it points to onwards.  [msec] is [None] in a node whose field was
    never written. *)
Record dmesg_item : Type := mkItem {
  msg : string;
  sec : Z;
  msec : option Z
}.

Record dmesg_state : Type := mkState {
  dmesg_count : Z;
  dmesg_list : list dmesg_item;
  dmesg_ptr : list dmesg_item;
  timestamp : Z;
  mtimestamp : Z
}.

(** The initial values of the globals. *)
Definition initial : dmesg_state := mkState 0 [] [] 0 0.

(** The local [cur_dmesg] of [sysfs_get_msg_count]. *)
Record cur_item : Type := mkCur {
  cur_msg : string;
  cur_sec : Z;
  cur_msec : Z
}.

(** [dmesg_list_add]: a new node at the end of the list ([malloc] is taken
    to succeed).  The node's [sec] receives [new_dmesg->sec] and then
    [new_dmesg->msec]; its [msec] is not written.  [width] is
    [BUFFERSIZE*2], the bound given to [strncpy]. *)
Definition dmesg_list_add (width : nat) (new_dmesg : cur_item)
    (st : dmesg_state) : dmesg_state :=
  let new_node :=
    mkItem (substring 0 width (cur_msg new_dmesg)) (cur_msec new_dmesg) None in
  mkState (dmesg_count st + 1) (dmesg_list st ++ [new_node]) (dmesg_ptr st)
          (timestamp st) (mtimestamp st).

(** [dmesg_list_empty]: the cursor is left as it is. *)
Definition dmesg_list_empty (st : dmesg_state) : dmesg_state :=
  match dmesg_list st with
  | [] => st
  | _ => mkState 0 [] (dmesg_ptr st) (timestamp st) (mtimestamp st)
  end.

(** One line of the kernel log after
    [sscanf(line, "<%*c>[%lu.%06lu] %[^\n]", ...)]: the return value [n]
    and the three values, of which the first [n] are assigned. *)
Record scanned_line : Type := mkLine {
  ln_n : Z;
  ln_sec : Z;
  ln_msec : Z;
  ln_msg : string
}.

(** [strstr(s, "MXT") != 0] *)
Fixpoint contains_MXT (s : string) : bool :=
  match s with
  | EmptyString => false
  | String _ r => prefix "MXT" s || contains_MXT r
  end.

(** The [while] loop of [sysfs_get_msg_count] over the lines of the
    buffer.  The cutting of the buffer into lines and the [sscanf] call are
    not modelled: the lines come scanned. *)
Fixpoint scan_lines (width : nat) (lines : list scanned_line)
    (cur : cur_item) (st : dmesg_state) : cur_item * dmesg_state :=
  match lines with
  | [] => (cur, st)
  | l :: rest =>
      let n := ln_n l in
      let cur :=
        mkCur (if 3 <=? n then ln_msg l else cur_msg cur)
              (if 1 <=? n then ln_sec l else 0)
              (if 2 <=? n then ln_msec l else 0) in
      let st :=
        if (n >? 0)
           && ((cur_sec cur >? timestamp st)
               || ((cur_sec cur =? timestamp st)
                   && (cur_msec cur >? mtimestamp st)))
           && contains_MXT (cur_msg cur)
        then dmesg_list_add width cur st
        else st in
      (* Only 500 at a time *)
      if dmesg_count st >? 500 then (cur, st)
      else scan_lines width rest cur st
  end.

(** [sysfs_get_msg_count]: [klog] is [None] when [klogctl] fails, else the
    scanned lines of the kernel log; [cur0] is what the uninitialised
    [cur_dmesg] holds on entry. *)
Definition sysfs_get_msg_count (width : nat) (cur0 : cur_item)
    (klog : option (list scanned_line)) (st : dmesg_state)
  : Z * dmesg_state :=
  match klog with
  | None => (-1, st)
  | Some lines =>
      let st := dmesg_list_empty st in
      let '(cur, st) := scan_lines width lines cur0 st in
      (* Set the timestamp to the last message; reset pointer to first
         record *)
      let st :=
        mkState (dmesg_count st) (dmesg_list st) (dmesg_list st)
                (cur_sec cur) (cur_msec cur) in
      (dmesg_count st, st)
  end.

(** Access to a field of the node a pointer designates: there is no node
    behind the null pointer. *)
Definition deref (p : list dmesg_item) : option dmesg_item :=
  match p with
  | [] => None
  | node :: _ => Some node
  end.

Definition next (p : list dmesg_item) : list dmesg_item := tl p.

Definition is_null (p : list dmesg_item) : bool :=
  match p with [] => true | _ => false end.

(** [sysfs_get_msg_string]: [None] is the dereference of a null cursor on
    the first line of the body; the test against null comes after it. *)
Definition sysfs_get_msg_string (st : dmesg_state)
  : option (string * dmesg_state) :=
  match deref (dmesg_ptr st) with
  | None => None
  | Some node =>
      let msg_string := msg node in
      let st :=
        if negb (is_null (dmesg_ptr st)) then
          (* Get next record in linked list *)
          mkState (dmesg_count st) (dmesg_list st) (next (dmesg_ptr st))
                  (timestamp st) (mtimestamp st)
        else st in
      Some (msg_string, st)
  end.

(** [n] calls of [sysfs_get_msg_string] in a row, with the messages they
    return; [None] as soon as one of them dereferences null. *)
Fixpoint get_msg_strings (n : nat) (st : dmesg_state)
  : option (list string * dmesg_state) :=
  match n with
  | O => Some ([], st)
  | S n' =>
      match sysfs_get_msg_string st with
      | None => None
      | Some (m, st) =>
          match get_msg_strings n' st with
          | None => None
          | Some (ms, st) => Some (m :: ms, st)
          end
      end
  end.

End Dmesg.

(** ** Sessions against a scripted chip *)

Module Scenarios.
Import CLib Stdio Bootloader.
Open Scope string_scope.

(** A context as [mxt_flash_firmware] leaves it when it has opened
    [image]. *)
Definition ctx_of (image : string) : bootloader_ctx :=
  mkCtx false false (fopen image) "" 0 0 0 false "".

Definition zero_buffer : list Z := repeat 0 (Z.to_nat FIRMWARE_BUFFER_SIZE).

(** The chip answers a read with status [b], id 0x2a and version 0x05. *)
Definition status (b : Z) : reply := RdOk b 0x2a 0x05.

Definition run (image : string) (t : transport) :=
  send_frames 0 zero_buffer (ctx_of image) t.

Definition result_of (r : option (Z * bootloader_ctx * transport * list event))
  : option Z :=
  match r with Some (z, _, _, _) => Some z | None => None end.

Definition events_of (r : option (Z * bootloader_ctx * transport * list event))
  : list event :=
  match r with Some (_, _, _, ev) => ev | None => [] end.

(** Two frames, each of two data bytes after its two-byte header. *)
Definition frame_1 : list Z := [0x00; 0x02; 0xaa; 0xbb].
Definition frame_2 : list Z := [0x00; 0x02; 0xcc; 0xdd].
Definition two_frames : string := "0002AABB0002CCDD".

(** The chip asks for the command, takes the unlock, fails the CRC of the
    first transmission, passes the second and acknowledges whatever comes
    next twice more. *)
Definition retry_then_pass : transport :=
  mkTransport
    [status 0xc0;
     status 0x80; status 0x03;
     status 0x80; status 0x04;
     status 0x80; status 0x04;
     status 0x80; status 0x04]
    [0; 0; 0; 0; 0].

(** The first transmission of frame 1 fails its CRC, the second passes,
    and then the CRC of the next transmission fails once. *)
Definition next_frame_fails_once : transport :=
  mkTransport
    [status 0xc0;
     status 0x80; status 0x03;
     status 0x80; status 0x04;
     status 0x80; status 0x03;
     status 0x80; status 0x04]
    [0; 0; 0; 0; 0].

(** The write of the only frame fails; the chip, which has seen nothing,
    still reports the CRC pass of an earlier frame. *)
Definition one_frame : string := "0002AABB".
Definition frame_write_fails : transport :=
  mkTransport [status 0xc0; status 0x80; status 0x04] [0; -1].

(** A frame whose third group is not a pair of hexadecimal digits. *)
Definition bad_hex_image : string := "00011G".
Definition accepts_one_frame : transport :=
  mkTransport [status 0xc0; status 0x80; status 0x04] [0; 0].

Definition all_groups_hex (image : string) : bool :=
  forallb isxdigit (list_ascii_of_string image).

(** An image of [n] frames of two header bytes each (size field 0). *)
Fixpoint empty_frames (n : nat) : string :=
  match n with
  | O => ""
  | S n' => "0000" ++ empty_frames n'
  end.

(** The chip acknowledges [n] frames at the first attempt. *)
Definition acks (n : nat) : transport :=
  mkTransport
    (status 0xc0 :: List.concat (repeat [status 0x80; status 0x04] n))
    (repeat 0 (S n)).

(** APP_CRC_FAIL once, then the chip waits for the command; the image is
    empty. *)
Definition app_crc_fail_first : transport :=
  mkTransport [status 0x40; status 0xc0] [0].

(** A frame of exactly 1024 bytes: size field 0x03fe and 1022 bytes 0x5a. *)
Fixpoint hex_5a (n : nat) : string :=
  match n with
  | O => ""
  | S n' => "5A" ++ hex_5a n'
  end.
Definition full_frame_image : string := "03FE" ++ hex_5a 1022.
Definition full_frame : list Z := ([0x03; 0xfe] ++ repeat 0x5a 1022)%list.

(** The loop at its first pass over [image], the chip unlocked and ready
    to take and acknowledge one frame. *)
Definition first_pass (image : string) : frame_state :=
  mkFrameState (ctx_of image)
               (mkTransport [status 0x80; status 0x04] [0])
               zero_buffer 0 1 0.

End Scenarios.

(** ** The decision table of the state machine *)

Module Protocol.
Import Bootloader.

(** The status byte with the identity bits cleared, as [val &= ~mask]
    leaves it in an [unsigned char]. *)
Definition masked (b : Z) : Z :=
  uchar (Z.land (uchar b) (Z.lnot MXT_BOOT_STATUS_MASK)).

(** The answers after which the state machine reads again. *)
Definition transient (state : Z) (r : reply) : bool :=
  match r with
  | RdFail => false
  | RdOk b _ _ =>
      if state =? MXT_WAITING_BOOTLOAD_CMD then masked b =? MXT_APP_CRC_FAIL
      else if state =? MXT_WAITING_FRAME_DATA then
        uchar b =? MXT_FRAME_CRC_PASS
      else if state =? MXT_FRAME_CRC_PASS then uchar b =? MXT_FRAME_CRC_CHECK
      else false
  end.

Fixpoint skip_transient (state : Z) (reads : list reply) : list reply :=
  match reads with
  | [] => []
  | r :: rest => if transient state r then skip_transient state rest else reads
  end.

(** The return value for the first answer that is not transient ([None]:
    the chip has no answer left). *)
Definition verdict (state : Z) (r : option reply) : Z :=
  match r with
  | None | Some RdFail => -1
  | Some (RdOk b _ _) =>
      if state =? MXT_WAITING_BOOTLOAD_CMD then
        if masked b =? MXT_WAITING_FRAME_DATA then -3
        else if masked b =? MXT_WAITING_BOOTLOAD_CMD then 0 else -2
      else if state =? MXT_WAITING_FRAME_DATA then
        if masked b =? MXT_WAITING_FRAME_DATA then 0 else -2
      else if state =? MXT_FRAME_CRC_PASS then
        if uchar b =? MXT_FRAME_CRC_FAIL then -4
        else if uchar b =? MXT_FRAME_CRC_PASS then 0 else -2
      else -2
  end.

(** The condition under which a read asks for three bytes. *)
Definition triple_read (ctx : bootloader_ctx) (state : Z) : bool :=
  negb (have_bootloader_version ctx) && extended_id_mode ctx
  && (state =? MXT_WAITING_FRAME_DATA).

(** The sizes of the reads of a trace, in order. *)
Fixpoint read_sizes (evs : list event) : list Z :=
  match evs with
  | [] => []
  | EvRead n _ :: r => n :: read_sizes r
  | _ :: r => read_sizes r
  end.

(** The number of retries a trace announces. *)
Fixpoint retries (evs : list event) : nat :=
  match evs with
  | [] => O
  | EvLog _ fmt _ :: r =>
      if String.eqb fmt "Frame %d: CRC fail, retry %d" then S (retries r)
      else retries r
  | _ :: r => retries r
  end.

End Protocol.

(** ** Writing an image: the inverse of the image reader *)

Module Image.
Import CLib Stdio Bootloader Protocol.

Definition hex_digit (n : Z) : ascii :=
  ascii_of_N (Z.to_N (if n <? 10 then 48 + n else 55 + n)).

(** A byte as two upper-case hexadecimal digits. *)
Definition hex_of_byte (b : Z) : list ascii :=
  [hex_digit (b / 16); hex_digit (b mod 16)].

Definition hex_of_bytes (bs : list Z) : list ascii := flat_map hex_of_byte bs.

Definition is_byte (b : Z) : bool := (0 <=? b) && (b <? 256).

(** A frame as it is transmitted: bytes, of which the first two announce
    the length of the whole, at most 1024. *)
Definition well_formed (f : list Z) : bool :=
  forallb is_byte f
  && (Z.of_nat (List.length f) =? announced_size f)
  && (announced_size f <=? FIRMWARE_BUFFER_SIZE).

Definition image_of (frames : list (list Z)) : list ascii :=
  flat_map hex_of_bytes frames.

(** [sscanf_x] reads the two digits of a byte back. *)
Definition byte_scans (b : Z) : bool :=
  match sscanf_x (hex_of_byte b) with
  | (1, Some v) => v =? b
  | _ => false
  end.

Definition all_bytes : list Z := map Z.of_nat (seq 0 256).

(** The answers of a chip that takes every frame at the first attempt:
    one that says it waits for the command, then for each frame one that
    says it waits for frame data and one that says the CRC passed. *)
Definition asks_command (r : reply) : bool :=
  verdict MXT_WAITING_BOOTLOAD_CMD (Some r) =? 0.
Definition asks_frame (r : reply) : bool :=
  verdict MXT_WAITING_FRAME_DATA (Some r) =? 0.
Definition passes_crc (r : reply) : bool :=
  verdict MXT_FRAME_CRC_PASS (Some r) =? 0.

Fixpoint acknowledgements (pairs : list (reply * reply)) : list reply :=
  match pairs with
  | [] => []
  | (a, b) :: rest => a :: b :: acknowledgements rest
  end.

Definition acknowledges (p : reply * reply) : bool :=
  asks_frame (fst p) && passes_crc (snd p).

End Image.

(** ** bootloader.c: wait_for_chg on a USB device, mxt_flash_firmware *)

Module Flash.
Import CLib Stdio Bootloader.

Definition MXT_BOOTLOADER_DELAY : Z := 50000.

(** What [wait_for_chg] does: readings of the CHG line, sleeps (in
    microseconds) and messages. *)
Inductive chg_event : Type :=
| ChgRead (busy : bool)              (* usb_read_chg() *)
| ChgSleep (microseconds : Z)        (* usleep *)
| ChgLog (lvl : log_level) (fmt : string) (args : list Z).

(** The loop [while (usb_read_chg())] of [wait_for_chg].  [chg k] is the
    [k]-th reading of the line, true while the chip is busy; [try] is the
    local of that name.  [fuel] bounds the passes; 101 are enough (theorem
    [wait_for_chg_bounded]).  The result is the return value, [None] when
    the passes allowed were not enough. *)
Fixpoint poll_chg (chg : nat -> bool) (k : nat) (try : Z) (fuel : nat)
  : option Z * list chg_event :=
  match fuel with
  | O => (None, [])
  | S fuel' =>
      if chg k then
        let try := try + 1 in
        if try >? 100 then
          (Some (-1),
           [ChgRead true; ChgLog LOG_WARN "Timed out awaiting CHG" []])
        else
          let '(r, ev) := poll_chg chg (S k) try fuel' in
          (r, [ChgRead true; ChgSleep 1000] ++ ev)
      else
        (Some 0, [ChgRead false; ChgLog LOG_VERBOSE "CHG line cycles %d" [try]])
  end.

(** [wait_for_chg] in full: [usb] says whether the build has libusb and
    the device is a USB device.  (The traces of the state machine record a
    call as the single event [EvWaitChg].) *)
Definition wait_for_chg (usb : bool) (chg : nat -> bool)
  : option Z * list chg_event :=
  if usb then poll_chg chg 0 0 101
  else (Some 0, [ChgSleep MXT_BOOTLOADER_DELAY]).

Fixpoint sleeps (evs : list chg_event) : Z :=
  match evs with
  | [] => 0
  | ChgSleep us :: r => us + sleeps r
  | _ :: r => sleeps r
  end.

Fixpoint readings (evs : list chg_event) : list bool :=
  match evs with
  | [] => []
  | ChgRead b :: r => b :: readings r
  | _ :: r => readings r
  end.

(** The kinds of event [send_frames] produces: it does not scan, read the
    info block, reset the chip, release the device or switch address. *)
Definition is_session_event (e : event) : bool :=
  match e with
  | EvLog _ _ _ | EvWaitChg | EvRead _ _ | EvWrite _ _ | EvFclose
  | EvSleep _ => true
  | _ => false
  end.

(** The fields of the context that only [mxt_flash_firmware] and
    [mxt_bootloader_init_chip] write. *)
Definition settings (c : bootloader_ctx)
  : string * Z * Z * Z * bool * string :=
  (curr_version c, i2c_adapter c, bootloader_address c, appmode_address c,
   check_version c, new_version c).

(** What the rest of libmaxtouch and the file system answer to
    [mxt_flash_firmware], call by call. *)
Record flash_env : Type := mkFlashEnv {
  image : option string;                 (* fopen: None if it fails *)
  init_answers : platform;
  type_before_frames : mxt_device_type;  (* mxt_get_device_type(), 497, 513 *)
  usb_bootloader_before_frames : bool;   (* usb_is_bootloader(), 513 *)
  scan_before_frames : Z;                (* mxt_scan(), 515 *)
  type_after_frames : mxt_device_type;   (* mxt_get_device_type(), 536, 541 *)
  scan_after_frames : Z;                 (* mxt_scan(), 543 *)
  info_after_frames : Z;                 (* mxt_get_info(), 552 *)
  version_after_frames : string          (* mxt_get_firmware_version, 559 *)
}.

Definition set_check_version (b : bool) (v : string) (c : bootloader_ctx) :=
  mkCtx (have_bootloader_version c) (extended_id_mode c) (fp c)
        (curr_version c) (i2c_adapter c) (bootloader_address c)
        (appmode_address c) b v.

(** The end of [mxt_flash_firmware], from [mxt_release()] on. *)
Definition verify (env : flash_env) (ctx : bootloader_ctx)
  : Z * bootloader_ctx * list event :=
  let ev_addr :=
    if device_type_eqb (type_after_frames env) E_I2C_DEV then
      (None, [EvSetAddress (i2c_adapter ctx) (appmode_address ctx)])
    else if HAVE_LIBUSB (init_answers env)
            && device_type_eqb (type_after_frames env) E_USB then
      if scan_after_frames env <? 1 then
        (Some (-1),
         [EvScan]
         ++ LOG LOG_INFO "Could not find device in bootloader mode" [])
      else (None, [EvScan])
    else (None, []) in
  match ev_addr with
  | (Some r, ev) => (r, ctx, [EvRelease] ++ ev)
  | (None, ev) =>
      let ev := [EvRelease] ++ ev ++ [EvGetInfo] in
      if negb (info_after_frames env =? 0) then
        (-1, ctx, ev ++ LOG LOG_ERROR "FAILURE - chip did not reset" [])
      else
        let ctx := set_curr_version (version_after_frames env) ctx in
        if negb (check_version ctx) then
          (0, ctx, ev ++ LOG LOG_INFO "SUCCESS - version is %s" [])
        else if String.eqb (curr_version ctx) (new_version ctx) then
          (0, ctx, ev ++ LOG LOG_INFO "SUCCESS - version %s verified" [])
        else
          (-1, ctx, ev ++ LOG LOG_ERROR "FAILURE - detected version is %s" [])
  end.

(** The middle of [mxt_flash_firmware], from the test of the device type
    after [mxt_bootloader_init_chip] on. *)
Definition flash_frames (env : flash_env) (junk : Z) (buffer0 : list Z)
    (ctx : bootloader_ctx) (t : transport)
  : option (Z * bootloader_ctx * transport * list event) :=
  let pre :=
    if device_type_eqb (type_before_frames env) E_I2C_DEV then
      if bootloader_address ctx =? -1 then
        (Some (-1), LOG LOG_ERROR "No bootloader address!" [])
      else
        (None,
         LOG LOG_DEBUG "i2c_adapter:%d" [i2c_adapter ctx]
         ++ LOG LOG_DEBUG "appmode_address:%02X" [appmode_address ctx]
         ++ LOG LOG_DEBUG "bootloader_address:%02X" [bootloader_address ctx]
         (* Change to slave address of bootloader *)
         ++ [EvSetAddress (i2c_adapter ctx) (bootloader_address ctx)])
    else if HAVE_LIBUSB (init_answers env)
            && device_type_eqb (type_before_frames env) E_USB
            && negb (usb_bootloader_before_frames env) then
      if scan_before_frames env <? 1 then
        (Some (-1),
         [EvScan]
         ++ LOG LOG_INFO "Could not find device in bootloader mode" [])
      else (None, [EvScan])
    else (None, []) in
  match pre with
  | (Some r, ev) => Some (r, ctx, t, ev)
  | (None, ev) =>
      match send_frames junk buffer0 ctx t with
      | None => None
      | Some (ret, ctx, t, ev_frames) =>
          let ev := ev ++ ev_frames in
          if negb (ret =? 0) then Some (ret, ctx, t, ev)
          else if appmode_address ctx <? 0 then
            Some (0, ctx, t, ev ++ LOG LOG_INFO "Sent all firmware frames" [])
          else
            let '(r, ctx, ev_verify) := verify env ctx in
            Some (r, ctx, t, ev ++ ev_verify)
      end
  end.

(** [mxt_flash_firmware].  [stack] is what the local [ctx] holds on entry
    (it is not initialised), [junk] and [buffer0] are as for
    [send_frames].  String arguments of messages are not recorded. *)
Definition mxt_flash_firmware (env : flash_env) (junk : Z)
    (buffer0 : list Z) (stack : bootloader_ctx) (t : transport)
    (version : string) (i2c_adapter i2c_address : Z)
  : option (Z * bootloader_ctx * transport * list event) :=
  let ev_open := LOG LOG_INFO "Opening firmware file %s" [] in
  match image env with
  | None =>
      Some (-1, stack, t,
            ev_open ++ LOG LOG_ERROR "Cannot open firmware file %s!" [])
  | Some content =>
      let ctx := set_fp (fopen content) stack in
      let '(ctx, ev_version) :=
        if (0 <? String.length version)%nat then
          (set_check_version true version ctx,
           LOG LOG_DEBUG "New firmware version is:%s" [])
        else
          (set_check_version false (new_version ctx) ctx,
           LOG LOG_DEBUG "check_version:%d" [0]) in
      let '(ret, ctx, ev_init) :=
        mxt_bootloader_init_chip (init_answers env) ctx
                                 i2c_adapter i2c_address in
      let ev := ev_open ++ ev_version ++ ev_init in
      if negb (ret =? 0) then Some (ret, ctx, t, ev)
      else
        match flash_frames env junk buffer0 ctx t with
        | None => None
        | Some (r, ctx, t, ev') => Some (r, ctx, t, ev ++ ev')
        end
  end.

End Flash.

(** ** More sessions *)

Module Sessions.
Import CLib Stdio Bootloader Flash.
Open Scope string_scope.

(** A chip of family 0xA2 at application address 0x4A that runs version
    [before], takes two frames, and runs version [after] once flashed. *)
Definition chip_answers (before : string) : platform :=
  mkPlatform false 0 1 E_I2C_DEV 0 0 false 0 0xa2 before 0 E_I2C_DEV.

Definition flash_answers (before after : string) : flash_env :=
  mkFlashEnv (Some Scenarios.two_frames) (chip_answers before)
             E_I2C_DEV false 1 E_I2C_DEV 1 0 after.

Definition flash (before after wanted : string) :=
  mxt_flash_firmware (flash_answers before after) 0 Scenarios.zero_buffer
                     (Scenarios.ctx_of "") (Scenarios.acks 2) wanted 1 0x4a.

End Sessions.

(** ** dmesg.c: sysfs_get_msg_bytes *)

Module DmesgBytes.
Import Dmesg.

(** The counter agrees with the list. *)
Definition counted (st : dmesg_state) : Prop :=
  dmesg_count st = Z.of_nat (List.length (dmesg_list st)).

(** A message [cur] is newer than the time stamp of [st]. *)
Definition newer (cur : cur_item) (st : dmesg_state) : bool :=
  (cur_sec cur >? timestamp st)
  || ((cur_sec cur =? timestamp st) && (cur_msec cur >? mtimestamp st)).

(** [cur_dmesg] after the [sscanf] of line [l]: the seconds and the
    microseconds are set to 0 before the call and the message is not, so
    that a line on which fewer than three values are assigned leaves the
    message [cur_dmesg] held before it. *)
Definition scanned (cur : cur_item) (l : scanned_line) : cur_item :=
  mkCur (if 3 <=? ln_n l then ln_msg l else cur_msg cur)
        (if 1 <=? ln_n l then ln_sec l else 0)
        (if 2 <=? ln_n l then ln_msec l else 0).

(** The lines of the log, each with what [cur_dmesg] holds after it. *)
Fixpoint records (cur : cur_item) (lines : list scanned_line)
  : list (scanned_line * cur_item) :=
  match lines with
  | [] => []
  | l :: rest => let cur := scanned cur l in (l, cur) :: records cur rest
  end.

(** The three tests a line passes to be listed, against the time stamp of
    [st]. *)
Definition listed (st : dmesg_state) (p : scanned_line * cur_item) : bool :=
  (ln_n (fst p) >? 0) && newer (snd p) st && contains_MXT (cur_msg (snd p)).

(** The node [dmesg_list_add] makes of [cur_dmesg]. *)
Definition node_of (width : nat) (cur : cur_item) : dmesg_item :=
  mkItem (substring 0 width (cur_msg cur)) (cur_msec cur) None.

(** [message += n] *)
Definition advance (n : nat) (message : string) : string :=
  substring n (String.length message - n) message.

Section MsgBytes.

(** [MSG_PREFIX] is a macro of dmesg.h, which is not part of these
    sources. *)
Variable MSG_PREFIX : string.

(** [sscanf(message, "%hhx%n", buf + bufidx, &offset)]: [None] when the
    call does not return 1, else the byte stored and the offset. *)
Variable scan_hhx : string -> option (Z * nat).

(** The [while] loop of [sysfs_get_msg_bytes]: the bytes stored at
    [buf[0]], [buf[1]], ... in order.  The test [bufidx >= buflen] comes
    after the store, so that [room] is the number of stores still allowed
    after the next one. *)
Fixpoint scan_bytes (room : nat) (message : string) : list Z :=
  match scan_hhx message with
  | None => []
  | Some (b, offset) =>
      b :: match room with
           | O => []
           | S room' => scan_bytes room' (advance offset message)
           end
  end.

(** [sysfs_get_msg_bytes]: the return value, the bytes stored into [buf]
    from its first cell on, and the state; [None] when
    [sysfs_get_msg_string] dereferences a null cursor. *)
Definition sysfs_get_msg_bytes (buflen : nat) (st : dmesg_state)
  : option (Z * list Z * dmesg_state) :=
  match sysfs_get_msg_string st with
  | None => None
  | Some (message, st) =>
      (* Check message begins with prefix *)
      if negb (prefix MSG_PREFIX message) then Some (0, [], st)
      else
        let message := advance (String.length MSG_PREFIX) message in
        let stored := scan_bytes (buflen - 1) message in
        Some (Z.of_nat (List.length stored), stored, st)
  end.

End MsgBytes.

End DmesgBytes.

Module DmesgSessions.
Import Dmesg DmesgBytes.
Open Scope string_scope.

(** Three lines of a kernel log: a touch message, a line of another
    driver, and a second touch message. *)
Definition three_lines : list scanned_line :=
  [mkLine 3 10 500 "MXT MSG: 01 02";
   mkLine 3 11 0 "usb 1-1: new device";
   mkLine 3 12 250 "MXT MSG: ff"].

(** Three lines of a kernel log: a touch message; a line on which [sscanf]
    assigns the time only, so that the touch message is still in
    [cur_dmesg]; and a line of another driver. *)
Definition stale_lines : list scanned_line :=
  [mkLine 3 10 500 "MXT MSG: 01 02";
   mkLine 2 11 0 "";
   mkLine 3 12 250 "usb 1-1: new device"].

(** A reader of one hexadecimal byte for [sysfs_get_msg_bytes]: a blank,
    then two digits. *)
Definition scan_two_digits (s : string) : option (Z * nat) :=
  match s with
  | String " " (String a (String b _)) =>
      match CLib.xdigit a, CLib.xdigit b with
      | Some h, Some l => Some (16 * h + l, 3%nat)
      | _, _ => None
      end
  | _ => None
  end.

End DmesgSessions.

(** * Properties *)

Import CLib Stdio Bootloader.

(** ** The state machine: what a call consumes and emits *)

Ltac split_ifs H :=
  repeat match type of H with
         | context [if ?b then _ else _] => destruct b eqn:?
         end.

(** Case analysis along the body of [mxt_check_bootloader] in an equation
    [H] that gives its result; [IH] is applied to each recursive call. *)
Ltac crunch_check IH H :=
  repeat match type of H with
         | context [mxt_check_bootloader ?rd ?c ?s] =>
             let E := fresh "E" in
             destruct (mxt_check_bootloader rd c s) as [[[? ?] ?] ?] eqn:E;
             apply IH in E
         | context [check_tail ?a ?b ?c ?d] =>
             let E := fresh "E" in
             destruct (check_tail a b c d) as [[? ?] ?] eqn:E
         | context [if ?b then _ else _] => destruct b eqn:?
         end;
  inversion H; subst; clear H.

Lemma writes_of_app a b : writes_of (a ++ b) = writes_of a ++ writes_of b.
Proof.
  induction a as [|e a IH]; [reflexivity|].
  destruct e; simpl; rewrite IH; reflexivity.
Qed.

Lemma io_only_app a b : io_only (a ++ b) = io_only a ++ io_only b.
Proof. apply filter_app. Qed.

Lemma check_tail_events ctx state val id r c ev :
  check_tail ctx state val id = (r, c, ev) ->
  forallb is_handshake_event ev = true.
Proof.
  unfold check_tail, LOG. intros H. split_ifs H; inversion H; reflexivity.
Qed.

Lemma check_tail_fp ctx state val id r c ev :
  check_tail ctx state val id = (r, c, ev) -> fp c = fp ctx.
Proof.
  unfold check_tail. intros H. split_ifs H; inversion H; reflexivity.
Qed.

(** A call takes at least one answer off the read script unless it returns
    -1, and never puts one back. *)
Lemma mxt_check_bootloader_consumes reads :
  forall ctx state r c rest ev,
    mxt_check_bootloader reads ctx state = (r, c, rest, ev) ->
    (List.length rest <= List.length reads)%nat /\
    (r <> -1 -> (List.length rest < List.length reads)%nat).
Proof.
  induction reads as [|[|b0 b1 b2] reads IH]; intros ctx state r c rest ev H;
    cbn [mxt_check_bootloader] in H.
  - inversion H; subst. simpl. split; [lia | congruence].
  - inversion H; subst. simpl. split; [lia | congruence].
  - crunch_check IH H; simpl; try lia; split; intros; lia.
Qed.

(** The state machine only waits, reads and logs. *)
Lemma mxt_check_bootloader_events reads :
  forall ctx state r c rest ev,
    mxt_check_bootloader reads ctx state = (r, c, rest, ev) ->
    forallb is_handshake_event ev = true.
Proof.
  induction reads as [|[|b0 b1 b2] reads IH]; intros ctx state r c rest ev H;
    cbn [mxt_check_bootloader] in H.
  - inversion H; subst. destruct (negb _), (_ && _); reflexivity.
  - inversion H; subst. destruct (negb _), (_ && _); reflexivity.
  - crunch_check IH H;
      repeat match goal with
             | E : check_tail _ _ _ _ = _ |- _ => apply check_tail_events in E
             end;
      repeat rewrite forallb_app; cbn [forallb wait_for_chg LOG app];
      repeat match goal with
             | E : forallb _ _ = true |- _ => rewrite E
             end;
      reflexivity.
Qed.

Lemma handshake_events_no_write ev :
  forallb is_handshake_event ev = true -> writes_of ev = [].
Proof.
  induction ev as [|e ev IH]; [reflexivity|].
  cbn [forallb]. intros H. apply andb_true_iff in H. destruct H as [He H].
  destruct e; try discriminate; cbn [writes_of]; auto.
Qed.

Lemma handshake_events_not_too_big ev :
  forallb is_handshake_event ev = true -> existsb is_too_big ev = false.
Proof.
  induction ev as [|e ev IH]; [reflexivity|].
  cbn [forallb existsb]. intros H. apply andb_true_iff in H.
  destruct H as [He H]. rewrite (IH H), orb_false_r.
  destruct e; try reflexivity. cbn in He |- *.
  apply andb_true_iff in He. destruct He as [He _].
  apply negb_true_iff in He. rewrite He. destruct lvl; reflexivity.
Qed.

Lemma handshake_events_no_progress ev :
  forallb is_handshake_event ev = true -> progress_levels ev = [].
Proof.
  induction ev as [|e ev IH]; [reflexivity|].
  cbn [forallb]. intros H. apply andb_true_iff in H. destruct H as [He H].
  destruct e; cbn [progress_levels]; auto.
  cbn in He. apply andb_true_iff in He. destruct He as [_ He].
  apply negb_true_iff in He. rewrite He. auto.
Qed.

Lemma mxt_check_bootloader_writes reads ctx state r c rest ev :
  mxt_check_bootloader reads ctx state = (r, c, rest, ev) -> writes_of ev = [].
Proof.
  intros H. apply handshake_events_no_write.
  eapply mxt_check_bootloader_events; exact H.
Qed.

(** The state machine does not touch the firmware file. *)
Lemma mxt_check_bootloader_fp reads :
  forall ctx state r c rest ev,
    mxt_check_bootloader reads ctx state = (r, c, rest, ev) -> fp c = fp ctx.
Proof.
  induction reads as [|[|b0 b1 b2] reads IH]; intros ctx state r c rest ev H;
    cbn [mxt_check_bootloader] in H.
  - inversion H; reflexivity.
  - inversion H; reflexivity.
  - crunch_check IH H;
      repeat match goal with
             | E : check_tail _ _ _ _ = _ |- _ => apply check_tail_fp in E
             end;
      cbn in *; congruence.
Qed.

(** ** The frame loop terminates *)

Lemma mxt_bootloader_write_reads t buf r t' ev :
  mxt_bootloader_write t buf = (r, t', ev) ->
  t_reads t' = t_reads t /\ ev = [EvWrite buf r].
Proof.
  unfold mxt_bootloader_write.
  destruct (t_writes t); intros H; inversion H; auto.
Qed.

Lemma transmit_frame_consumes s s' ev :
  transmit_frame s = (Next, s', ev) -> (reads_left s' < reads_left s)%nat.
Proof.
  unfold transmit_frame, reads_left. intros H.
  destruct (mxt_check_bootloader _ (fs_ctx s) _) as [[[r c] rest] e1] eqn:E1.
  apply mxt_check_bootloader_consumes in E1. destruct E1 as [_ E1].
  destruct (r <? 0) eqn:Hr; [discriminate|].
  apply Z.ltb_ge in Hr.
  destruct (mxt_bootloader_write _ _) as [[w t'] e2] eqn:E2.
  apply mxt_bootloader_write_reads in E2. destruct E2 as [E2 _].
  cbn [t_reads] in E2.
  destruct (mxt_check_bootloader (t_reads t') c _)
    as [[[r' c'] rest'] e3] eqn:E3.
  apply mxt_check_bootloader_consumes in E3. destruct E3 as [E3 _].
  rewrite E2 in E3.
  assert (List.length rest < List.length (t_reads (fs_transport s)))%nat
    by (apply E1; lia).
  split_ifs H; inversion H; subst; cbn; lia.
Qed.

Ltac crunch_read_frame H :=
  repeat match type of H with
         | context [get_hex_value ?j ?c] =>
             let E := fresh "G" in
             destruct (get_hex_value j c) as [[? ?] ?] eqn:E
         | context [read_body ?j ?n ?i ?c ?b] =>
             let E := fresh "B" in
             destruct (read_body j n i c b) as [[[? ?] ?] ?] eqn:E
         | context [if ?b then _ else _] => destruct b eqn:?
         end.

Lemma read_frame_transport junk s c s' ev :
  read_frame junk s = (c, s', ev) ->
  fs_transport s' = fs_transport s /\ frame_retry s' = frame_retry s
  /\ frame s' = frame s.
Proof.
  unfold read_frame. intros H.
  crunch_read_frame H; inversion H; auto.
Qed.

Lemma frame_iter_consumes junk s s' ev :
  frame_iter junk s = (Next, s', ev) -> (reads_left s' < reads_left s)%nat.
Proof.
  unfold frame_iter. intros H.
  destruct (frame_retry s =? 0).
  - destruct (read_frame junk s) as [[c s1] e1] eqn:E.
    apply read_frame_transport in E. destruct E as [E _].
    destruct c; try discriminate.
    destruct (transmit_frame s1) as [[c2 s2] e2] eqn:E2.
    inversion H; subst. apply transmit_frame_consumes in E2.
    unfold reads_left in *. rewrite <- E. exact E2.
  - destruct (transmit_frame s) as [[c2 s2] e2] eqn:E2.
    inversion H; subst. now apply transmit_frame_consumes in E2.
Qed.

(** With more passes allowed than the chip has answers, the loop ends. *)
Lemma frame_loop_enough_fuel junk fuel :
  forall s, (reads_left s < fuel)%nat ->
            exists res, frame_loop junk fuel s = Some res.
Proof.
  induction fuel as [|fuel IH]; intros s Hs; [lia|].
  cbn [frame_loop].
  destruct (feof _); [eauto|].
  destruct (frame_iter junk s) as [[[| |r] s'] ev] eqn:E; eauto.
  apply frame_iter_consumes in E.
  destruct (IH s') as [[[r s''] ev'] ->]; [lia|]. eauto.
Qed.

Lemma frame_phase_returns junk buffer0 ctx t :
  exists res, frame_phase junk buffer0 ctx t = Some res.
Proof.
  unfold frame_phase.
  destruct (frame_loop_enough_fuel junk
              (loop_fuel (mkFrameState ctx t buffer0 0 1 0))
              (mkFrameState ctx t buffer0 0 1 0)) as [[[[r|] s] ev] ->];
    [unfold loop_fuel, reads_left; lia | eauto | eauto].
Qed.

(** Over a script of answers [send_frames] gives a result: the fuel of the
    loop is enough.  This is a fact about scripts, which are finite; the C
    code returns when the chip stops giving the answers that keep it
    re-reading. *)
Theorem send_frames_returns junk buffer0 ctx t :
  exists res, send_frames junk buffer0 ctx t = Some res.
Proof.
  unfold send_frames.
  destruct (mxt_check_bootloader _ _ _) as [[[r c] rest] e].
  destruct (r =? 0).
  - destruct (unlock_bootloader _) as [[w t'] e2].
    destruct (w <? 0); [eauto|].
    destruct (frame_phase_returns junk buffer0 c t') as [[[? ?] ?] ->]. eauto.
  - destruct (r =? -3); [|eauto].
    destruct (frame_phase_returns junk buffer0 c
                (mkTransport rest (t_writes t))) as [[[? ?] ?] ->].
    eauto.
Qed.

(** ** The frame buffer *)

Lemma poke_length i v :
  forall buf, List.length (poke i v buf) = List.length buf.
Proof. induction i as [|i IH]; intros [|x buf]; simpl; auto. Qed.

Lemma store_length i v buf : List.length (store i v buf) = List.length buf.
Proof. destruct v; simpl; [apply poke_length | reflexivity]. Qed.

Lemma poke_firstn i v :
  forall k buf, (k <= i)%nat -> firstn k (poke i v buf) = firstn k buf.
Proof.
  induction i as [|i IH]; intros k [|x buf] Hk; simpl; auto.
  - assert (k = 0)%nat by lia. subst. reflexivity.
  - destruct k; simpl; [reflexivity|]. rewrite IH by lia. reflexivity.
Qed.

Lemma store_firstn i v k buf :
  Z.of_nat k <= i -> firstn k (store i v buf) = firstn k buf.
Proof.
  intros H. destruct v; simpl; [|reflexivity]. apply poke_firstn. lia.
Qed.

(** The two header bytes are a function of the first two cells. *)
Lemma announced_size_firstn a b :
  firstn 2 a = firstn 2 b -> announced_size a = announced_size b.
Proof.
  unfold announced_size, nth_byte.
  destruct a as [|x [|y a]], b as [|x' [|y' b]]; simpl; intros H;
    inversion H; reflexivity.
Qed.

(** The [for] loop fills cells from 2 on and does no transport operation;
    it ends at the end of the frame or at the end of the file. *)
Lemma read_body_spec junk n :
  forall i ctx buf c ctx' buf' ev,
    2 <= i ->
    read_body junk n i ctx buf = (c, ctx', buf', ev) ->
    List.length buf' = List.length buf /\
    firstn 2 buf' = firstn 2 buf /\
    ((c = Next /\ ev = []) \/
     (c = Return (-1) /\
      ev = LOG LOG_ERROR "Unexpected end of firmware file" [])).
Proof.
  induction n as [|n IH]; intros i ctx buf c ctx' buf' ev Hi H;
    cbn [read_body] in H.
  - inversion H; subst. auto.
  - destruct (get_hex_value junk ctx) as [[ret v] ctx1].
    destruct (ret =? EOF).
    + inversion H; subst. rewrite store_length, store_firstn by lia. auto.
    + apply IH in H; [|lia].
      rewrite store_length, store_firstn in H by lia. exact H.
Qed.

(** [get_hex_value] returns before the store only to report [EOF]. *)
Lemma get_hex_value_no_store junk ctx r ctx' :
  get_hex_value junk ctx = (r, None, ctx') -> r = EOF.
Proof.
  unfold get_hex_value.
  destruct (fgetc (fp ctx)) as [c0 f1]. destruct (fgetc f1) as [c1 f2].
  destruct (feof f2); [intros H; inversion H; reflexivity|].
  destruct (sscanf_x _) as [ret a]. discriminate.
Qed.

Lemma store_header b0 b1 x y buf :
  store 1 (Some b1) (store 0 (Some b0) (x :: y :: buf)) = b0 :: b1 :: buf.
Proof. reflexivity. Qed.

(** What [read_frame] does once both header bytes are there. *)
Lemma read_frame_header junk s r0 b0 ctx1 r1 b1 ctx2 :
  get_hex_value junk (fs_ctx s) = (r0, Some b0, ctx1) -> r0 <> EOF ->
  get_hex_value junk ctx1 = (r1, Some b1, ctx2) -> r1 <> EOF ->
  (2 <= List.length (buffer s))%nat ->
  forall c s' ev,
    read_frame junk s = (c, s', ev) ->
    let size := Z.lor (Z.shiftl b0 8) b1 + 2 in
    frame_size s' = size
    /\ firstn 2 (buffer s') = [b0; b1]
    /\ List.length (buffer s') = List.length (buffer s)
    /\ io_only ev = []
    /\ (size > FIRMWARE_BUFFER_SIZE ->
        c = Return (-1) /\ existsb is_too_big ev = true)
    /\ (size <= FIRMWARE_BUFFER_SIZE -> existsb is_too_big ev = false).
Proof.
  intros G0 H0 G1 H1 Hlen c s' ev H. unfold read_frame in H.
  rewrite G0 in H. apply Z.eqb_neq in H0. rewrite H0 in H.
  rewrite G1 in H. apply Z.eqb_neq in H1. rewrite H1 in H.
  destruct (buffer s) as [|x [|y buf]] eqn:Hb; simpl in Hlen; try lia.
  rewrite store_header in H. cbn [nth_byte nth] in H.
  destruct (Z.lor (Z.shiftl b0 8) b1 + 2 >? FIRMWARE_BUFFER_SIZE) eqn:Hs.
  - inversion H; subst; clear H.
    cbn [frame_size buffer fs_ctx List.length announced_size nth_byte nth].
    apply Z.gtb_lt in Hs.
    repeat split; auto; lia.
  - destruct (read_body _ _ _ _ _) as [[[c' ctx'] buf'] ev'] eqn:B.
    apply read_body_spec in B; [|lia]. destruct B as (L & F & E).
    inversion H; subst; clear H. cbn [frame_size buffer fs_ctx].
    assert (Hle : Z.lor (Z.shiftl b0 8) b1 + 2 <= FIRMWARE_BUFFER_SIZE).
    { destruct (Z.gtb_spec (Z.lor (Z.shiftl b0 8) b1 + 2) FIRMWARE_BUFFER_SIZE);
        [discriminate | assumption]. }
    split; [reflexivity|].
    split; [rewrite F; reflexivity|].
    split; [rewrite L; reflexivity|].
    split.
    { destruct E as [[_ ->]|[_ ->]]; reflexivity. }
    split; [lia|].
    intros _. destruct E as [[_ ->]|[_ ->]]; reflexivity.
Qed.

(** [read_frame] performs no transport operation. *)
Lemma read_frame_quiet junk s c s' ev :
  read_frame junk s = (c, s', ev) -> io_only ev = [] /\ writes_of ev = [].
Proof.
  unfold read_frame. intros H.
  crunch_read_frame H; inversion H; subst; clear H; auto;
    match goal with
    | B : read_body _ _ _ _ _ = _ |- _ =>
        apply read_body_spec in B; [|lia];
        destruct B as (_ & _ & [[_ ->]|[_ ->]]); auto
    end.
Qed.

(** One transmission: the frame in [buffer] is written once if the
    handshake succeeds and not at all otherwise; the buffer, its size and
    the file are left alone and the retry counter does not go down. *)
Lemma transmit_frame_spec s c s' ev :
  transmit_frame s = (c, s', ev) ->
  buffer s' = buffer s /\ frame_size s' = frame_size s
  /\ fp (fs_ctx s') = fp (fs_ctx s)
  /\ frame_retry s <= frame_retry s'
  /\ c <> Break
  /\ writes_of ev =
       (if handshake s <? 0 then []
        else [firstn (Z.to_nat (frame_size s)) (buffer s)]).
Proof.
  unfold transmit_frame, handshake. intros H.
  destruct (mxt_check_bootloader _ (fs_ctx s) _) as [[[r c1] rest] e1] eqn:E1.
  pose proof (mxt_check_bootloader_writes _ _ _ _ _ _ _ E1) as W1.
  pose proof (mxt_check_bootloader_fp _ _ _ _ _ _ _ E1) as F1.
  destruct (r <? 0) eqn:Hr.
  - inversion H; subst; clear H. cbn [buffer frame_size fs_ctx frame_retry].
    rewrite writes_of_app, W1. repeat split; auto; try lia; discriminate.
  - destruct (mxt_bootloader_write _ _) as [[w t'] e2] eqn:E2.
    apply mxt_bootloader_write_reads in E2. destruct E2 as [_ ->].
    destruct (mxt_check_bootloader (t_reads t') c1 _)
      as [[[r' c2] rest'] e3] eqn:E3.
    pose proof (mxt_check_bootloader_writes _ _ _ _ _ _ _ E3) as W3.
    pose proof (mxt_check_bootloader_fp _ _ _ _ _ _ _ E3) as F3.
    split_ifs H; inversion H; subst; clear H;
      cbn [buffer frame_size fs_ctx frame_retry];
      repeat rewrite writes_of_app; cbn [writes_of LOG app];
      rewrite ?W1, ?W3; cbn [app];
      repeat split; auto; try lia; try discriminate; congruence.
Qed.


Lemma transmit_frame_not_too_big s c s' ev :
  transmit_frame s = (c, s', ev) -> existsb is_too_big ev = false.
Proof.
  unfold transmit_frame. intros H.
  destruct (mxt_check_bootloader _ (fs_ctx s) _) as [[[r c1] rest] e1] eqn:E1.
  apply mxt_check_bootloader_events, handshake_events_not_too_big in E1.
  destruct (r <? 0).
  - inversion H; subst. rewrite existsb_app, E1. reflexivity.
  - destruct (mxt_bootloader_write _ _) as [[w t'] e2] eqn:E2.
    apply mxt_bootloader_write_reads in E2. destruct E2 as [_ ->].
    destruct (mxt_check_bootloader (t_reads t') c1 _)
      as [[[r' c2] rest'] e3] eqn:E3.
    apply mxt_check_bootloader_events, handshake_events_not_too_big in E3.
    split_ifs H; inversion H; subst; clear H;
      repeat rewrite existsb_app; cbn [existsb LOG app is_too_big];
      rewrite ?E1, ?E3; reflexivity.
Qed.

(** A byte that [get_hex_value] stores is an [unsigned char]. *)
Lemma get_hex_value_byte junk ctx r b ctx' :
  get_hex_value junk ctx = (r, Some b, ctx') -> 0 <= b < 256.
Proof.
  unfold get_hex_value.
  destruct (fgetc (fp ctx)) as [c0 f1]. destruct (fgetc f1) as [c1 f2].
  destruct (feof f2); [discriminate|].
  destruct (sscanf_x _) as [ret a]. intros H. inversion H; subst.
  unfold uchar. apply Z.mod_pos_bound. lia.
Qed.

(** ** C3: the unlock attempt *)

(** A frame that [read_frame] has accepted is never the unlock command:
    with header bytes 0xdc 0xaa it would announce far more than 1024
    bytes. *)
Lemma framed_not_unlock s :
  framed s ->
  firstn (Z.to_nat (frame_size s)) (buffer s) <> unlock_bytes.
Proof.
  unfold framed, announced_size, nth_byte, unlock_bytes.
  intros [Hsize Hle] Heq.
  destruct (buffer s) as [|x [|y buf]];
    destruct (Z.to_nat (frame_size s)) as [|[|n]];
    cbn [firstn] in Heq; try discriminate.
  inversion Heq; subst x y. cbn [nth] in Hsize.
  rewrite Hsize in Hle. vm_compute in Hle. apply Hle. reflexivity.
Qed.

Lemma read_frame_framed junk s s' ev :
  (2 <= List.length (buffer s))%nat ->
  read_frame junk s = (Next, s', ev) ->
  framed s' /\ List.length (buffer s') = List.length (buffer s).
Proof.
  intros Hlen H. pose proof H as H'. unfold read_frame in H'.
  destruct (get_hex_value junk (fs_ctx s)) as [[r0 v0] ctx1] eqn:G0.
  destruct (r0 =? EOF) eqn:E0; [discriminate|].
  destruct (get_hex_value junk ctx1) as [[r1 v1] ctx2] eqn:G1.
  destruct (r1 =? EOF) eqn:E1; [discriminate|].
  clear H'. apply Z.eqb_neq in E0, E1.
  destruct v0 as [b0|]; [|apply get_hex_value_no_store in G0; contradiction].
  destruct v1 as [b1|]; [|apply get_hex_value_no_store in G1; contradiction].
  destruct (read_frame_header junk s r0 b0 ctx1 r1 b1 ctx2 G0 E0 G1 E1 Hlen
              Next s' ev H) as (Hsize & Hhead & Hl & _ & Hbig & _).
  split; [|exact Hl]. unfold framed. split.
  - rewrite Hsize. unfold announced_size, nth_byte.
    destruct (buffer s') as [|x [|y buf]]; try discriminate.
    inversion Hhead; subst. reflexivity.
  - rewrite Hsize.
    destruct (Z_le_gt_dec (Z.lor (Z.shiftl b0 8) b1 + 2) FIRMWARE_BUFFER_SIZE)
      as [Hle|Hgt]; [exact Hle|].
    destruct (Hbig Hgt) as [Hc _]. discriminate.
Qed.

Lemma transmit_frame_no_unlock s c s' ev :
  framed s ->
  List.length (buffer s) = Z.to_nat FIRMWARE_BUFFER_SIZE ->
  transmit_frame s = (c, s', ev) ->
  loop_inv s' /\ ~ In unlock_bytes (writes_of ev).
Proof.
  intros Hf Hlen H. apply transmit_frame_spec in H.
  destruct H as (Hb & Hs & _ & _ & _ & Hw). split.
  - split; [rewrite Hb; exact Hlen|]. intros _.
    unfold framed in *. rewrite Hb, Hs. exact Hf.
  - rewrite Hw. destruct (handshake s <? 0); [intros []|].
    intros [Heq|[]]. exact (framed_not_unlock s Hf Heq).
Qed.

Lemma frame_iter_no_unlock junk s c s' ev :
  loop_inv s ->
  frame_iter junk s = (c, s', ev) ->
  (c = Next -> loop_inv s') /\ ~ In unlock_bytes (writes_of ev).
Proof.
  intros [Hlen Hinv] H. unfold frame_iter in H.
  assert (H2 : (2 <= List.length (buffer s))%nat)
    by (rewrite Hlen; vm_compute; lia).
  destruct (frame_retry s =? 0) eqn:Hr.
  - destruct (read_frame junk s) as [[c1 s1] ev1] eqn:R.
    destruct (read_frame_quiet _ _ _ _ _ R) as [_ W1].
    destruct c1.
    + destruct (read_frame_framed _ _ _ _ H2 R) as [Hf Hl].
      destruct (transmit_frame s1) as [[c2 s2] ev2] eqn:T.
      inversion H; subst; clear H.
      rewrite Hlen in Hl.
      destruct (transmit_frame_no_unlock _ _ _ _ Hf Hl T) as [Hi Hn].
      rewrite writes_of_app, W1. auto.
    + inversion H; subst. rewrite W1. split; [discriminate | intros []].
    + inversion H; subst. rewrite W1. split; [discriminate | intros []].
  - apply Z.eqb_neq in Hr.
    destruct (transmit_frame s) as [[c2 s2] ev2] eqn:T.
    inversion H; subst; clear H.
    destruct (transmit_frame_no_unlock _ _ _ _ (Hinv Hr) Hlen T) as [Hi Hn].
    auto.
Qed.

Lemma frame_loop_no_unlock junk fuel :
  forall s r s' ev,
    loop_inv s ->
    frame_loop junk fuel s = Some (r, s', ev) ->
    ~ In unlock_bytes (writes_of ev).
Proof.
  induction fuel as [|fuel IH]; intros s r s' ev Hinv H; [discriminate|].
  cbn [frame_loop] in H.
  destruct (feof _); [inversion H; subst; intros []|].
  destruct (frame_iter junk s) as [[c s1] ev1] eqn:E.
  destruct (frame_iter_no_unlock _ _ _ _ _ Hinv E) as [Hi Hn].
  destruct c.
  - destruct (frame_loop junk fuel s1) as [[[r2 s2] ev2]|] eqn:L;
      [|discriminate].
    inversion H; subst; clear H.
    rewrite writes_of_app. intros Hin. apply in_app_or in Hin.
    destruct Hin as [Hin|Hin]; [exact (Hn Hin)|].
    exact (IH _ _ _ _ (Hi eq_refl) L Hin).
  - inversion H; subst. exact Hn.
  - inversion H; subst. exact Hn.
Qed.

(** The frame phase never writes the unlock command. *)
Lemma frame_phase_no_unlock junk buffer0 ctx t r s ev :
  List.length buffer0 = Z.to_nat FIRMWARE_BUFFER_SIZE ->
  frame_phase junk buffer0 ctx t = Some (r, s, ev) ->
  ~ In unlock_bytes (writes_of ev).
Proof.
  intros Hlen H. unfold frame_phase in H.
  destruct (frame_loop _ _ _) as [[[r' s'] ev']|] eqn:L; [|discriminate].
  assert (Hn : ~ In unlock_bytes (writes_of ev')).
  { eapply frame_loop_no_unlock; [|exact L].
    split; [exact Hlen | intros Hc; contradiction Hc; reflexivity]. }
  destruct r' as [r'|]; inversion H; subst; clear H.
  - exact Hn.
  - rewrite writes_of_app. cbn. rewrite app_nil_r. exact Hn.
Qed.

(** C3.  The session opens with the state machine waiting for
    WAITING_BOOTLOAD_CMD, and what follows depends on its return value [r]
    alone.  If [r] is 0 the first bytes written to the chip are the unlock
    command 0xDC 0xAA, and it is written once only.  If [r] is -3 (already
    unlocked) the session goes on with the frame phase on the context and
    the transport the state machine left, and the unlock command is never
    written.  For any other [r] the session returns -1 and nothing is
    written at all. *)
Theorem unlock_three_way junk buffer0 ctx t r c rest ev :
  List.length buffer0 = Z.to_nat FIRMWARE_BUFFER_SIZE ->
  mxt_check_bootloader (t_reads t)
    (set_extended_id_mode false (set_have_bootloader_version false ctx))
    MXT_WAITING_BOOTLOAD_CMD = (r, c, rest, ev) ->
  exists ret c' t' evs,
    send_frames junk buffer0 ctx t = Some (ret, c', t', evs)
    /\ (r = 0 ->
        exists tail,
          writes_of evs = [0xdc; 0xaa] :: tail /\ ~ In [0xdc; 0xaa] tail)
    /\ (r = -3 ->
        ~ In [0xdc; 0xaa] (writes_of evs)
        /\ exists s ev',
            frame_phase junk buffer0 c (mkTransport rest (t_writes t))
            = Some (ret, s, ev')
            /\ evs = ev ++ LOG LOG_INFO "Bootloader found" []
                        ++ LOG LOG_INFO "Sending frames..." [] ++ ev')
    /\ (r <> 0 -> r <> -3 -> ret = -1 /\ writes_of evs = []).
Proof.
  intros Hlen Hchk. unfold send_frames. rewrite Hchk.
  pose proof (mxt_check_bootloader_writes _ _ _ _ _ _ _ Hchk) as W.
  destruct (r =? 0) eqn:R0.
  - apply Z.eqb_eq in R0. subst r. unfold unlock_bootloader.
    destruct (mxt_bootloader_write _ _) as [[w t1] e1] eqn:E1.
    apply mxt_bootloader_write_reads in E1. destruct E1 as [_ ->].
    destruct (w <? 0).
    + do 4 eexists. split; [reflexivity|].
      split; [|split; [discriminate | intros Hc; contradiction Hc; reflexivity]].
      intros _. exists []. repeat rewrite writes_of_app. rewrite W.
      split; [reflexivity | intros []].
    + destruct (frame_phase_returns junk buffer0 c t1) as [[[rr s] ev'] P].
      rewrite P. do 4 eexists. split; [reflexivity|].
      split; [|split; [discriminate | intros Hc; contradiction Hc; reflexivity]].
      intros _. exists (writes_of ev'). repeat rewrite writes_of_app.
      rewrite W. split; [reflexivity|].
      exact (frame_phase_no_unlock _ _ _ _ _ _ _ Hlen P).
  - apply Z.eqb_neq in R0. destruct (r =? -3) eqn:R3.
    + apply Z.eqb_eq in R3. subst r.
      destruct (frame_phase_returns junk buffer0 c
                  (mkTransport rest (t_writes t))) as [[[rr s] ev'] P].
      rewrite P. do 4 eexists. split; [reflexivity|].
      split; [discriminate|].
      split; [|intros _ Hc; contradiction Hc; reflexivity].
      intros _. split.
      * repeat rewrite writes_of_app. rewrite W.
        exact (frame_phase_no_unlock _ _ _ _ _ _ _ Hlen P).
      * exists s, ev'. split; [reflexivity|].
        repeat rewrite <- app_assoc. reflexivity.
    + apply Z.eqb_neq in R3. do 4 eexists. split; [reflexivity|].
      split; [intros Hc; contradiction|].
      split; [intros Hc; contradiction|].
      intros _ _. split; [reflexivity|].
      rewrite writes_of_app, W. reflexivity.
Qed.

(** The hypotheses of [unlock_three_way] hold for the two-frame image and
    a chip that asks for the command: the session starts its writes with
    the unlock command. *)
Lemma unlock_three_way_witness :
  exists tail,
    writes_of (Scenarios.events_of
                 (Scenarios.run Scenarios.two_frames (Scenarios.acks 2)))
    = [0xdc; 0xaa] :: tail
    /\ ~ In [0xdc; 0xaa] tail.
Proof.
  destruct (mxt_check_bootloader
              (t_reads (Scenarios.acks 2))
              (set_extended_id_mode false
                 (set_have_bootloader_version false
                    (Scenarios.ctx_of Scenarios.two_frames)))
              MXT_WAITING_BOOTLOAD_CMD) as [[[r c] rest] ev] eqn:E.
  destruct (unlock_three_way 0 Scenarios.zero_buffer
              (Scenarios.ctx_of Scenarios.two_frames) (Scenarios.acks 2)
              r c rest ev eq_refl E) as (ret & c' & t' & evs & S & H0 & _).
  unfold Scenarios.run. rewrite S. cbn [Scenarios.events_of].
  apply H0. vm_compute in E. inversion E. reflexivity.
Defined.

(** ** C2: the identity test after WAITING_BOOTLOAD_CMD *)

(** C2 (the code departs from it).  The chip answers 0xC0: waiting for the
    command, id field 0, bit 0x20 clear.  The state machine reports
    success but turns extended-id mode on and does not latch the identity,
    and the next handshake for frame data reads three bytes. *)
Theorem extended_id_mode_without_bit_0x20 :
  Z.land (Z.land 0xc0 MXT_BOOT_STATUS_MASK) 0x20 = 0
  /\ exists c rest ev,
      mxt_check_bootloader [Scenarios.status 0xc0; Scenarios.status 0x80]
        (Scenarios.ctx_of "") MXT_WAITING_BOOTLOAD_CMD = (0, c, rest, ev)
      /\ extended_id_mode c = true
      /\ have_bootloader_version c = false
      /\ exists c' ev',
          mxt_check_bootloader rest c MXT_WAITING_FRAME_DATA = (0, c', [], ev')
          /\ io_only ev' = [EvWaitChg; EvRead 3 (Some [0x80; 0x2a; 0x05])].
Proof.
  split; [reflexivity|].
  do 3 eexists. split; [vm_compute; reflexivity|].
  split; [reflexivity|]. split; [reflexivity|].
  do 2 eexists. split; vm_compute; reflexivity.
Qed.

Lemma lor_0x20_nonzero id : (Z.lor id 0x20 =? 0) = false.
Proof.
  apply Z.eqb_neq. intros H. apply Z.lor_eq_0_iff in H.
  destruct H as [_ H]. discriminate.
Qed.

Lemma check_tail_identity ctx val id c ev :
  have_bootloader_version ctx = false ->
  check_tail ctx MXT_WAITING_BOOTLOAD_CMD val id = (0, c, ev) ->
  extended_id_mode c = true /\ have_bootloader_version c = false.
Proof.
  unfold check_tail. intros Hh H. rewrite Hh, lor_0x20_nonzero in H.
  cbn in H. destruct (negb (val =? _)); inversion H; subst. cbn. auto.
Qed.

(** Whatever the id field, a successful wait for the command with the
    identity not yet known ends in extended-id mode with the identity
    still unknown: the other branch of the test is dead. *)
Lemma identity_never_latched_by_command reads :
  forall ctx c rest ev,
    have_bootloader_version ctx = false ->
    mxt_check_bootloader reads ctx MXT_WAITING_BOOTLOAD_CMD = (0, c, rest, ev) ->
    extended_id_mode c = true /\ have_bootloader_version c = false.
Proof.
  induction reads as [|[|b0 b1 b2] reads IH]; intros ctx c rest ev Hh H;
    cbn [mxt_check_bootloader] in H; try discriminate.
  change (MXT_WAITING_BOOTLOAD_CMD =? MXT_WAITING_FRAME_DATA) with false in H.
  rewrite andb_false_r in H.
  change (MXT_WAITING_BOOTLOAD_CMD =? MXT_WAITING_BOOTLOAD_CMD) with true in H.
  cbv iota in H.
  destruct (uchar (Z.land (uchar b0) (Z.lnot MXT_BOOT_STATUS_MASK))
            =? MXT_APP_CRC_FAIL).
  - destruct (mxt_check_bootloader reads ctx MXT_WAITING_BOOTLOAD_CMD)
      as [[[r1 c1] rest1] ev1] eqn:E.
    inversion H; subst. exact (IH _ _ _ _ Hh E).
  - destruct (_ =? MXT_WAITING_FRAME_DATA); [discriminate|].
    destruct (check_tail _ _ _ _) as [[r1 c1] ev1] eqn:E.
    inversion H; subst. exact (check_tail_identity _ _ _ _ _ Hh E).
Qed.

(** ** C5: a failed frame write *)

(** C5 (the code departs from it).  The write of the only frame of the
    image fails (-1).  The session goes on to the CRC handshake all the
    same, and as the chip answers CRC pass it ends with success. *)
Theorem failed_frame_write_is_ignored :
  Scenarios.result_of
    (Scenarios.run Scenarios.one_frame Scenarios.frame_write_fails) = Some 0
  /\ io_only (Scenarios.events_of
                (Scenarios.run Scenarios.one_frame Scenarios.frame_write_fails))
     = [EvRead 1 (Some [0xc0]);
        EvWrite [0xdc; 0xaa] 0;
        EvWaitChg; EvRead 3 (Some [0x80; 0x2a; 0x05]);
        EvWrite [0x00; 0x02; 0xaa; 0xbb] (-1);
        EvWaitChg; EvRead 1 (Some [0x04])].
Proof. vm_compute. split; reflexivity. Qed.

(** In general the outcome of a pass does not depend on what the write of
    the frame returns: two transports that differ in that return value
    only give the same control flow, the same context, the same reads and
    the same counters. *)
Lemma frame_write_result_unused s w1 w2 ws :
  let with_write w :=
    mkFrameState (fs_ctx s)
                 (mkTransport (t_reads (fs_transport s)) (w :: ws))
                 (buffer s) (frame_size s) (frame s) (frame_retry s) in
  let '(c1, s1, _) := transmit_frame (with_write w1) in
  let '(c2, s2, _) := transmit_frame (with_write w2) in
  c1 = c2 /\ fs_ctx s1 = fs_ctx s2
  /\ t_reads (fs_transport s1) = t_reads (fs_transport s2)
  /\ frame s1 = frame s2 /\ frame_retry s1 = frame_retry s2.
Proof.
  cbv zeta. unfold transmit_frame. cbn [fs_transport t_reads t_writes fs_ctx].
  destruct (mxt_check_bootloader _ (fs_ctx s) _) as [[[r c] rest] e1].
  destruct (r <? 0); [repeat split; reflexivity|].
  unfold mxt_bootloader_write.
  cbn [t_writes t_reads buffer frame_size frame frame_retry].
  destruct (mxt_check_bootloader rest c MXT_FRAME_CRC_PASS)
    as [[[r' c'] rest'] e3].
  destruct (negb (r' =? 0)); [destruct (frame_retry s >? 0)|];
    repeat split; reflexivity.
Qed.

(** ** C1: the retry counter *)

(** C1 (the code departs from it).  Frame 1 fails its CRC once and passes
    when sent again.  The driver then does not parse frame 2: it sends the
    bytes of frame 1 again, as long as the chip answers, and the session
    ends with -1 when the chip stops; frame 2 is never written.  And with a
    chip that fails the CRC of the transmission after that pass once, the
    session aborts at that first failure: the retry of frame 1 still
    counts. *)
Theorem retry_counter_not_reset :
  Scenarios.result_of
    (Scenarios.run Scenarios.two_frames Scenarios.retry_then_pass) = Some (-1)
  /\ writes_of (Scenarios.events_of
                  (Scenarios.run Scenarios.two_frames Scenarios.retry_then_pass))
     = [[0xdc; 0xaa]; Scenarios.frame_1; Scenarios.frame_1;
        Scenarios.frame_1; Scenarios.frame_1]
  /\ Scenarios.result_of
       (Scenarios.run Scenarios.two_frames Scenarios.next_frame_fails_once)
     = Some (-1)
  /\ writes_of (Scenarios.events_of
                  (Scenarios.run Scenarios.two_frames
                                 Scenarios.next_frame_fails_once))
     = [[0xdc; 0xaa]; Scenarios.frame_1; Scenarios.frame_1; Scenarios.frame_1]
  /\ In (EvLog LOG_ERROR "Failure sending frame %d - aborting" [2])
        (Scenarios.events_of
           (Scenarios.run Scenarios.two_frames Scenarios.next_frame_fails_once)).
Proof.
  vm_compute. repeat split; try reflexivity.
  repeat (try (left; reflexivity); right).
Qed.

(** A pass with a retry pending leaves the file, the buffer and the retry
    counter as they are, and does not end the loop by [break]. *)
Lemma frame_iter_retry_pending junk s c s' ev :
  frame_retry s > 0 ->
  frame_iter junk s = (c, s', ev) ->
  fp (fs_ctx s') = fp (fs_ctx s) /\ buffer s' = buffer s
  /\ frame_size s' = frame_size s /\ frame_retry s' = frame_retry s
  /\ (c = Next \/ c = Return (-1)).
Proof.
  intros Hr H. unfold frame_iter in H.
  destruct (frame_retry s =? 0) eqn:E; [apply Z.eqb_eq in E; lia|].
  destruct (transmit_frame s) as [[c2 s2] ev2] eqn:T.
  inversion H; subst; clear H.
  pose proof (transmit_frame_spec _ _ _ _ T) as (Hb & Hs & Hf & _ & _ & _).
  repeat split; auto.
  - unfold transmit_frame in T.
    destruct (mxt_check_bootloader _ (fs_ctx s) _) as [[[r c1] rest] e1].
    destruct (r <? 0); [inversion T; reflexivity|].
    destruct (mxt_bootloader_write _ _) as [[w t'] e2].
    destruct (mxt_check_bootloader (t_reads t') c1 _) as [[[r' c3] rest'] e3].
    assert (Hg : (frame_retry s >? 0) = true) by (apply Z.gtb_lt; lia).
    rewrite Hg in T.
    destruct (negb (r' =? 0)); inversion T; reflexivity.
  - unfold transmit_frame in T.
    destruct (mxt_check_bootloader _ (fs_ctx s) _) as [[[r c1] rest] e1].
    destruct (r <? 0); [inversion T; auto|].
    destruct (mxt_bootloader_write _ _) as [[w t'] e2].
    destruct (mxt_check_bootloader (t_reads t') c1 _) as [[[r' c3] rest'] e3].
    assert (Hg : (frame_retry s >? 0) = true) by (apply Z.gtb_lt; lia).
    rewrite Hg in T.
    destruct (negb (r' =? 0)); inversion T; auto.
Qed.

(** Once a frame has been retried the loop cannot end well: it reads no
    more of the image, writes the same frame or nothing at each pass, and
    leaves by [return -1]. *)
Lemma retry_pending_forever junk fuel :
  forall s r s' ev,
    frame_retry s > 0 ->
    feof (fp (fs_ctx s)) = false ->
    frame_loop junk fuel s = Some (r, s', ev) ->
    r = Some (-1)
    /\ fp (fs_ctx s') = fp (fs_ctx s)
    /\ Forall (fun w => w = firstn (Z.to_nat (frame_size s)) (buffer s))
              (writes_of ev).
Proof.
  induction fuel as [|fuel IH]; intros s r s' ev Hr Hf H; [discriminate|].
  cbn [frame_loop] in H. rewrite Hf in H.
  destruct (frame_iter junk s) as [[c s1] ev1] eqn:E.
  pose proof (frame_iter_retry_pending _ _ _ _ _ Hr E)
    as (Hfp & Hb & Hs & Hrt & Hc).
  assert (W1 : Forall (fun w => w = firstn (Z.to_nat (frame_size s)) (buffer s))
                      (writes_of ev1)).
  { unfold frame_iter in E.
    destruct (frame_retry s =? 0) eqn:E0; [apply Z.eqb_eq in E0; lia|].
    destruct (transmit_frame s) as [[c2 s2] ev2] eqn:T.
    inversion E; subst.
    pose proof (transmit_frame_spec _ _ _ _ T) as (_ & _ & _ & _ & _ & Hw).
    rewrite Hw. destruct (handshake s <? 0); repeat constructor. }
  destruct Hc as [-> | ->].
  - destruct (frame_loop junk fuel s1) as [[[r2 s2] ev2]|] eqn:L;
      [|discriminate].
    inversion H; subst; clear H.
    destruct (IH s1 r s' ev2) as (R & F & W); auto; try lia; try congruence.
    split; [exact R|]. split; [congruence|].
    rewrite writes_of_app. apply Forall_app. split; [exact W1|].
    rewrite <- Hb, <- Hs. exact W.
  - inversion H; subst. auto.
Qed.

(** ** C9: the progress messages *)

(** C9 (the code departs from it).  Twenty frames, each acknowledged at
    the first attempt: the informational progress message comes after the
    19th acknowledged frame, and the 20th gets the verbose one. *)
Theorem progress_info_after_19th_frame :
  Scenarios.result_of
    (Scenarios.run (Scenarios.empty_frames 20) (Scenarios.acks 20)) = Some 0
  /\ progress_levels
       (Scenarios.events_of
          (Scenarios.run (Scenarios.empty_frames 20) (Scenarios.acks 20)))
     = repeat LOG_VERBOSE 18 ++ [LOG_INFO; LOG_VERBOSE].
Proof. vm_compute. split; reflexivity. Qed.

(** In general: a transmission that passes emits one progress message,
    informational exactly when the number of the next frame (one more than
    the frames acknowledged so far, this one included) is a multiple of
    20; a transmission that fails emits none. *)
Lemma progress_level_of_pass s c s' ev :
  transmit_frame s = (c, s', ev) ->
  progress_levels ev =
    if frame s' =? frame s then []
    else [if Z.rem (frame s + 1) 20 =? 0 then LOG_INFO else LOG_VERBOSE].
Proof.
  unfold transmit_frame. intros H.
  destruct (mxt_check_bootloader _ (fs_ctx s) _) as [[[r c1] rest] e1] eqn:E1.
  apply mxt_check_bootloader_events, handshake_events_no_progress in E1.
  assert (P : forall a b, progress_levels (a ++ b)
                          = progress_levels a ++ progress_levels b).
  { induction a as [|e a IH]; intros b; [reflexivity|].
    destruct e; cbn [app progress_levels]; auto.
    destruct (String.eqb fmt _); cbn [app]; rewrite IH; reflexivity. }
  destruct (r <? 0).
  - inversion H; subst. cbn [frame]. rewrite Z.eqb_refl, P, E1. reflexivity.
  - destruct (mxt_bootloader_write _ _) as [[w t'] e2] eqn:E2.
    apply mxt_bootloader_write_reads in E2. destruct E2 as [_ ->].
    destruct (mxt_check_bootloader (t_reads t') c1 _)
      as [[[r' c2] rest'] e3] eqn:E3.
    apply mxt_check_bootloader_events, handshake_events_no_progress in E3.
    assert (N : (frame s + 1 =? frame s) = false) by (apply Z.eqb_neq; lia).
    split_ifs H; inversion H; subst; clear H; cbn [frame];
      rewrite ?Z.eqb_refl, ?N; repeat rewrite P;
      cbn [progress_levels LOG app String.eqb Ascii.eqb Bool.eqb];
      rewrite ?E1, ?E3; cbn [app];
      match goal with
      | Hz : (Z.rem _ 20 =? 0) = _ |- _ => rewrite Hz
      | _ => idtac
      end; reflexivity.
Qed.

(** ** C6: groups that are not two hexadecimal digits *)

Lemma all_ascii_complete c : In c all_ascii.
Proof.
  unfold all_ascii. rewrite <- (ascii_nat_embedding c).
  apply in_map, in_seq. pose proof (nat_ascii_bounded c). lia.
Qed.

Lemma group_scanned_all c0 c1 : group_scanned c0 c1 = true.
Proof.
  assert (H : forallb (fun a => forallb (group_scanned a) all_ascii)
                      all_ascii = true) by (vm_compute; reflexivity).
  rewrite forallb_forall in H. specialize (H c0 (all_ascii_complete c0)).
  rewrite forallb_forall in H. exact (H c1 (all_ascii_complete c1)).
Qed.

Lemma code_range c : 0 <= code c < 256.
Proof.
  unfold code. pose proof (N_ascii_bounded c). lia.
Qed.

Lemma to_char_code c : to_char (code c) = c.
Proof.
  unfold to_char. rewrite Z.mod_small by apply code_range.
  unfold code. rewrite N2Z.id. apply ascii_N_embedding.
Qed.

Lemma xdigit_range c h : xdigit c = Some h -> 0 <= h < 16.
Proof.
  unfold xdigit. intros H.
  repeat match type of H with
         | context [if ?b then _ else _] => destruct b eqn:?
         end; inversion H; subst; lia.
Qed.

(** C6, counterexample.  The third group of the image is "1G".  The
    session succeeds and the frame written to the chip carries the byte
    0x01 made from it. *)
Lemma bad_hex_group_accepted :
  Scenarios.all_groups_hex Scenarios.bad_hex_image = false
  /\ Scenarios.result_of
       (Scenarios.run Scenarios.bad_hex_image Scenarios.accepts_one_frame)
     = Some 0
  /\ writes_of (Scenarios.events_of
                  (Scenarios.run Scenarios.bad_hex_image
                                 Scenarios.accepts_one_frame))
     = [[0xdc; 0xaa]; [0x00; 0x01; 0x01]].
Proof. vm_compute. repeat split; reflexivity. Qed.

Lemma errors_app a b : errors (a ++ b) = (errors a ++ errors b)%list.
Proof.
  induction a as [|e a IH]; [reflexivity|].
  destruct e as [[] ? ?| | | | | | | | | |]; cbn [errors app];
    rewrite IH; reflexivity.
Qed.

Lemma read_body_errors junk n :
  forall i ctx buf c ctx' buf' ev,
    read_body junk n i ctx buf = (c, ctx', buf', ev) ->
    incl (errors ev) reader_errors /\ (forall r, c = Return r -> r = -1).
Proof.
  induction n as [|n IH]; intros i ctx buf c ctx' buf' ev H;
    cbn [read_body] in H.
  - inversion H; subst. split; [intros x []|discriminate].
  - destruct (get_hex_value junk ctx) as [[r v] c1].
    destruct (r =? EOF).
    + inversion H; subst. split.
      * intros x [<-|[]]. left. reflexivity.
      * intros r0 E. inversion E. reflexivity.
    + exact (IH _ _ _ _ _ _ _ H).
Qed.

Lemma read_frame_errors junk s :
  let '(c, _, ev) := read_frame junk s in
  incl (errors ev) reader_errors /\ (forall r, c = Return r -> r = -1).
Proof.
  unfold read_frame.
  destruct (get_hex_value junk (fs_ctx s)) as [[r0 v0] ctx1].
  destruct (r0 =? EOF); [split; [intros x []|discriminate]|].
  destruct (get_hex_value junk ctx1) as [[r1 v1] ctx2].
  destruct (r1 =? EOF).
  { split; [intros x [<-|[]]; left; reflexivity|].
    intros r E. inversion E. reflexivity. }
  destruct (_ >? FIRMWARE_BUFFER_SIZE).
  { split; [intros x [<-|[]]; right; left; reflexivity|].
    intros r E. inversion E. reflexivity. }
  destruct (read_body _ _ _ _ _) as [[[c ctx'] buf'] ev] eqn:B.
  apply read_body_errors in B. exact B.
Qed.

(** C6, as the code has it.  The reader of frames has no error for a group
    that is not two hexadecimal digits: its only errors are "Unexpected end
    of firmware file" and "Frame too big", and it compares what
    [get_hex_value] returns with [EOF] only.  For two characters read
    before the end of the file, [get_hex_value] returns what [sscanf]
    returns for them, which is 1, 0 or [EOF], stores a byte and leaves the
    file after them.  If the first character is a hexadecimal digit the
    result is 1 and the byte is the value of both digits when the second
    is a digit too, of the first digit alone when it is not.  If the
    result is not 1 the byte is what the uninitialised [val] holds.  The
    result is [EOF] exactly on a blank group, which is then taken for the
    end of the file: "End of file" and the end of the loop at the first
    byte of a frame, "Unexpected end of firmware file" inside one.  With
    any other result, 0 included, the byte goes into the frame and the
    reader goes on. *)
Theorem get_hex_value_no_validation junk ctx c0 c1 rest :
  f_chars (fp ctx) = c0 :: c1 :: rest ->
  f_eof (fp ctx) = false ->
  let ctx' := set_fp (mkFILE rest false) ctx in
  exists ret byte,
    get_hex_value junk ctx = (ret, Some byte, ctx')
    /\ ret = fst (sscanf_x [c0; c1])
    /\ (ret = 1 \/ ret = 0 \/ ret = EOF)
    /\ (forall h,
          xdigit c0 = Some h ->
          ret = 1
          /\ byte = match xdigit c1 with Some l => 16 * h + l | None => h end)
    /\ (ret <> 1 -> byte = uchar junk)
    /\ (ret = EOF <-> blank c0 c1 = true)
    /\ (ret <> EOF ->
        forall n i buf,
          read_body junk (S n) i ctx buf
          = read_body junk n (i + 1) ctx' (store i (Some byte) buf))
    /\ (ret = EOF ->
        (forall n i buf,
            read_body junk (S n) i ctx buf
            = (Return (-1), ctx', store i (Some byte) buf,
               LOG LOG_ERROR "Unexpected end of firmware file" []))
        /\ (forall s,
               fs_ctx s = ctx ->
               exists s',
                 read_frame junk s
                 = (Break, s', LOG LOG_INFO "End of file" [])))
    /\ (forall s,
          let '(c, _, ev) := read_frame junk s in
          incl (errors ev) reader_errors
          /\ (forall r, c = Return r -> r = -1)).
Proof.
  intros Hc He ctx'.
  pose proof (group_scanned_all c0 c1) as S.
  unfold group_scanned in S.
  assert (G : get_hex_value junk ctx
              = (fst (sscanf_x [c0; c1]),
                 Some (uchar match snd (sscanf_x [c0; c1]) with
                             | Some v => v
                             | None => junk
                             end),
                 ctx')).
  { unfold get_hex_value, fgetc. rewrite Hc. cbn [f_chars f_eof].
    rewrite He. cbn [feof f_eof]. rewrite !to_char_code.
    destruct (sscanf_x [c0; c1]) as [ret a]. reflexivity. }
  destruct (sscanf_x [c0; c1]) as [ret a]. cbn [fst snd] in G.
  apply andb_true_iff in S. destruct S as [S Sx].
  apply andb_true_iff in S. destruct S as [S Sb].
  apply andb_true_iff in S. destruct S as [Sr Sa].
  apply eqb_prop in Sa. apply eqb_prop in Sb.
  assert (R : ret = 1 \/ ret = 0 \/ ret = EOF).
  { apply orb_true_iff in Sr. destruct Sr as [Sr|Sr];
      [apply orb_true_iff in Sr; destruct Sr as [Sr|Sr]|];
      apply Z.eqb_eq in Sr; auto. }
  exists ret. eexists. split; [exact G|]. split; [reflexivity|].
  split; [exact R|]. split.
  { intros h Hx. rewrite Hx in Sx. destruct a as [v|]; [|discriminate].
    apply Z.eqb_eq in Sx. subst v.
    assert (E1 : ret = 1)
      by (apply Z.eqb_eq; rewrite Sa; reflexivity).
    split; [exact E1|].
    pose proof (xdigit_range _ _ Hx).
    unfold uchar. apply Z.mod_small.
    destruct (xdigit c1) as [l|] eqn:X1; [|lia].
    pose proof (xdigit_range _ _ X1). lia. }
  split.
  { intros N. destruct a as [v|]; [|reflexivity].
    contradiction N. apply Z.eqb_eq. rewrite Sa. reflexivity. }
  split.
  { rewrite <- Sb. symmetry. apply Z.eqb_eq. }
  split.
  { intros N n i buf. cbn [read_body]. rewrite G.
    destruct (Z.eqb_spec ret EOF) as [|_]; [contradiction|]. reflexivity. }
  split.
  { intros ->. split.
    - intros n i buf. cbn [read_body]. rewrite G. reflexivity.
    - intros s Hs. unfold read_frame. rewrite Hs, G. cbn [Z.eqb EOF].
      eexists. reflexivity. }
  intros s. apply read_frame_errors.
Qed.

(** The hypotheses of [get_hex_value_no_validation] hold for a file that
    starts with "G1": the call returns 0 and the byte stored is what [val]
    held, here 0x5a. *)
Lemma get_hex_value_no_validation_witness :
  get_hex_value 0x5a (Scenarios.ctx_of "G100")
  = (0, Some 0x5a,
     set_fp (mkFILE (list_ascii_of_string "00") false)
            (Scenarios.ctx_of "G100")).
Proof.
  destruct (get_hex_value_no_validation 0x5a (Scenarios.ctx_of "G100")
              "G"%char "1"%char (list_ascii_of_string "00")
              eq_refl eq_refl) as (ret & byte & G & R & _ & _ & J & _).
  rewrite G. vm_compute in R. subst ret.
  rewrite (J ltac:(discriminate)). reflexivity.
Defined.

(** ** C7: the readiness wait before a read *)

(** C7, counterexample.  The chip first reports APP_CRC_FAIL, then waits
    for the command.  The session reads twice and neither read follows a
    readiness wait: the second read comes straight after the first. *)
Lemma reread_after_app_crc_fail_not_waited :
  io_only (Scenarios.events_of (Scenarios.run "" Scenarios.app_crc_fail_first))
  = [EvRead 1 (Some [0x40]); EvRead 1 (Some [0xc0]); EvWrite [0xdc; 0xaa] 0]
  /\ reads_waited false
       (Scenarios.events_of (Scenarios.run "" Scenarios.app_crc_fail_first))
     = [false; false].
Proof. vm_compute. split; reflexivity. Qed.

Lemma reads_waited_by_state reads :
  forall ctx state r c rest ev,
    mxt_check_bootloader reads ctx state = (r, c, rest, ev) ->
    reads_waited false ev <> []
    /\ Forall (fun waited =>
                 waited = negb (state =? MXT_WAITING_BOOTLOAD_CMD))
              (reads_waited false ev).
Proof.
  induction reads as [|[|b0 b1 b2] reads IH]; intros ctx state r c rest ev H;
    cbn [mxt_check_bootloader] in H.
  - inversion H; subst.
    destruct (state =? MXT_WAITING_BOOTLOAD_CMD), (_ && _);
      cbn; split; try discriminate; repeat constructor.
  - inversion H; subst.
    destruct (state =? MXT_WAITING_BOOTLOAD_CMD), (_ && _);
      cbn; split; try discriminate; repeat constructor.
  - unfold check_tail in H.
    crunch_check IH H;
      cbn [app reads_waited wait_for_chg LOG negb];
      repeat match goal with
             | E : _ /\ _ |- _ => destruct E
             end;
      (split; [discriminate|]);
      repeat constructor; try assumption;
      try match goal with
          | Hs : (?s =? MXT_WAITING_BOOTLOAD_CMD) = _ |- _ =>
              rewrite ?Hs in *; cbn [negb] in *; try assumption
          end.
Qed.

(** C7, as the code has it.  Every call of the state machine reads at
    least once.  When it waits for a state other than WAITING_BOOTLOAD_CMD
    each of its reads comes straight after a readiness wait; when it waits
    for WAITING_BOOTLOAD_CMD none does, the first no more than a re-read
    after APP_CRC_FAIL. *)
Theorem reads_waited_unless_waiting_for_command reads ctx state :
  let '(_, _, _, ev) := mxt_check_bootloader reads ctx state in
  reads_waited false ev <> []
  /\ Forall (fun waited => waited = negb (state =? MXT_WAITING_BOOTLOAD_CMD))
            (reads_waited false ev).
Proof.
  destruct (mxt_check_bootloader reads ctx state) as [[[r c] rest] ev] eqn:E.
  exact (reads_waited_by_state _ _ _ _ _ _ _ E).
Qed.

(** ** C8: the bootloader address *)

(** The six application-mode addresses of the table. *)
Lemma lookup_bootloader_addr_table fam :
  lookup_bootloader_addr fam 0x4a = (if fam >=? 0xa2 then 0x26 else 0x24)
  /\ lookup_bootloader_addr fam 0x4b = (if fam >=? 0xa2 then 0x27 else 0x25)
  /\ lookup_bootloader_addr fam 0x4c = 0x26
  /\ lookup_bootloader_addr fam 0x4d = 0x27
  /\ lookup_bootloader_addr fam 0x5a = 0x34
  /\ lookup_bootloader_addr fam 0x5b = 0x35.
Proof.
  unfold lookup_bootloader_addr. cbn. destruct (fam >=? 162); repeat split.
Qed.

(** C8.  The caller supplies adapter and address.  For 0x4A and 0x4B the
    lookup gives the address less 0x24 when the family id is at least
    0xA2 and less 0x26 otherwise; for 0x4C, 0x4D, 0x5A and 0x5B it gives the
    address less 0x26; that is the bootloader address the context holds
    when [mxt_bootloader_init_chip] returns 0 on an i2c-dev device, the
    supplied address being kept as application-mode address.  For any
    other address the lookup gives -1 and the function returns 0 at once:
    the supplied address is the bootloader address, there is no
    application-mode address, and nothing is done to the chip or the bus
    (no address switch, no info block read, no reset). *)
Theorem bootloader_address_lookup p ctx adapter addr :
  0 <= adapter -> 0 < addr ->
  let '(r, c, ev) := mxt_bootloader_init_chip p ctx adapter addr in
  let translated (boot : Z) :=
    lookup_bootloader_addr (family_id p) addr = boot
    /\ hd_error ev = Some (EvSetAddress adapter addr)
    /\ appmode_address c = addr
    /\ (r = 0 -> type_after_reset p = E_I2C_DEV ->
        bootloader_address c = boot) in
  if (addr =? 0x4a) || (addr =? 0x4b) then
    translated (if family_id p >=? 0xa2 then addr - 0x24 else addr - 0x26)
  else if (addr =? 0x4c) || (addr =? 0x4d) || (addr =? 0x5a) || (addr =? 0x5b)
  then translated (addr - 0x26)
  else
    (forall fam, lookup_bootloader_addr fam addr = -1)
    /\ r = 0
    /\ bootloader_address c = addr
    /\ appmode_address c = -1
    /\ ev = LOG LOG_INFO "Trying bootloader" [].
Proof.
  intros Ha Hd. unfold mxt_bootloader_init_chip.
  assert (A : (adapter >=? 0) && (addr >? 0) = true).
  { apply andb_true_iff. split; [apply Z.geb_le | apply Z.gtb_lt]; lia. }
  rewrite A.
  assert (T : forall fam boot,
             lookup_bootloader_addr fam addr <> -1 ->
             lookup_bootloader_addr (family_id p) addr = boot ->
             let '(r, c, ev) :=
               (if lookup_bootloader_addr fam addr =? -1
                then (0, set_addresses adapter addr (-1)
                           (set_addresses adapter (bootloader_address ctx)
                              (appmode_address ctx) ctx),
                      LOG LOG_INFO "Trying bootloader" [])
                else
                  let '(r, ctx0, ev) :=
                    init_chip_reset p
                      (set_addresses adapter
                         (bootloader_address
                            (set_addresses adapter (bootloader_address ctx)
                               (appmode_address ctx) ctx)) addr
                         (set_addresses adapter (bootloader_address ctx)
                            (appmode_address ctx) ctx)) in
                  (r, ctx0, [EvSetAddress adapter addr] ++ ev)) in
             lookup_bootloader_addr (family_id p) addr = boot
             /\ hd_error ev = Some (EvSetAddress adapter addr)
             /\ appmode_address c = addr
             /\ (r = 0 -> type_after_reset p = E_I2C_DEV ->
                 bootloader_address c = boot)).
  { intros fam boot Hne Hb. apply Z.eqb_neq in Hne. rewrite Hne.
    unfold init_chip_reset.
    repeat match goal with
           | |- context [if ?b then _ else _] => destruct b eqn:?
           end;
      cbn; repeat split; auto; try discriminate;
      intros _ Ht;
      match goal with
      | Hd : device_type_eqb _ _ = false |- _ =>
          rewrite Ht in Hd; discriminate
      end. }
  destruct ((addr =? 0x4a) || (addr =? 0x4b)) eqn:E1.
  - apply T.
    + unfold lookup_bootloader_addr. rewrite E1.
      apply orb_true_iff in E1. destruct E1 as [E|E]; apply Z.eqb_eq in E;
        subst; destruct (stale_family_id p >=? 0xa2); discriminate.
    + unfold lookup_bootloader_addr. rewrite E1. reflexivity.
  - destruct ((addr =? 0x4c) || (addr =? 0x4d) || (addr =? 0x5a)
              || (addr =? 0x5b)) eqn:E2.
    + apply T.
      * unfold lookup_bootloader_addr. rewrite E1, E2.
        repeat (apply orb_true_iff in E2; destruct E2 as [E2|E2]);
          apply Z.eqb_eq in E2; subst; discriminate.
      * unfold lookup_bootloader_addr. rewrite E1, E2. reflexivity.
    + assert (L : forall fam, lookup_bootloader_addr fam addr = -1)
        by (intros fam; unfold lookup_bootloader_addr; rewrite E1, E2;
            reflexivity).
      rewrite L. cbn. auto.
Qed.

(** The hypotheses of [bootloader_address_lookup] hold for adapter 1 and
    address 0x4A on a chip of family 0xA2 that resets into i2c-dev mode:
    the bootloader address is 0x26. *)
Lemma bootloader_address_lookup_witness :
  let p := mkPlatform false 0 0 E_I2C_DEV 0 0 false 0 0xa2 "1.0.AA" 0 E_I2C_DEV in
  let '(r, c, _) := mxt_bootloader_init_chip p (Scenarios.ctx_of "") 1 0x4a in
  r = 0 /\ bootloader_address c = 0x26.
Proof.
  pose proof (bootloader_address_lookup
                (mkPlatform false 0 0 E_I2C_DEV 0 0 false 0 0xa2 "1.0.AA" 0
                            E_I2C_DEV)
                (Scenarios.ctx_of "") 1 0x4a
                ltac:(discriminate) ltac:(reflexivity)) as H.
  cbv zeta.
  destruct (mxt_bootloader_init_chip _ _ _ _) as [[r c] ev] eqn:E.
  cbv zeta in H. cbn [Z.eqb orb Pos.eqb] in H.
  destruct H as (_ & _ & _ & H).
  assert (R : r = 0) by (vm_compute in E; inversion E; reflexivity).
  split; [exact R|]. exact (H R eq_refl).
Defined.

(** ** C10: the cursor of the kernel-message list *)

Import Dmesg.

Lemma get_msg_strings_drains count lst p ts mts :
  exists st',
    get_msg_strings (List.length p) (mkState count lst p ts mts)
    = Some (map msg p, st')
    /\ dmesg_ptr st' = []
    /\ dmesg_list st' = lst.
Proof.
  induction p as [|node p IH].
  - eexists. cbn. auto.
  - destruct IH as (st' & G & P & L).
    exists st'. cbn [List.length get_msg_strings].
    unfold sysfs_get_msg_string.
    cbn [dmesg_ptr deref is_null negb next tl dmesg_count dmesg_list
         timestamp mtimestamp].
    rewrite G. cbn [map]. auto.
Qed.

(** C10.  [sysfs_get_msg_string] reads the [msg] field through the cursor
    before it tests the cursor: the call fails (a null dereference in the C
    code) exactly when the cursor is null.  That state is reached: it is
    the initial state of the globals, and after [sysfs_get_msg_count] has
    built the list, as many calls as the list has nodes return the
    messages in order and leave the cursor null, so that the next call
    fails. *)
Theorem sysfs_get_msg_string_needs_cursor :
  (forall st, sysfs_get_msg_string st = None <-> dmesg_ptr st = [])
  /\ sysfs_get_msg_string initial = None
  /\ forall width cur0 lines st,
      let st1 := snd (sysfs_get_msg_count width cur0 (Some lines) st) in
      exists st2,
        get_msg_strings (List.length (dmesg_list st1)) st1
        = Some (map msg (dmesg_list st1), st2)
        /\ sysfs_get_msg_string st2 = None.
Proof.
  assert (N : forall st, sysfs_get_msg_string st = None <-> dmesg_ptr st = []).
  { intros st. unfold sysfs_get_msg_string.
    destruct (dmesg_ptr st) as [|node p]; cbn; split; auto; discriminate. }
  split; [exact N|]. split; [reflexivity|].
  intros width cur0 lines st. cbv zeta. unfold sysfs_get_msg_count.
  destruct (scan_lines width lines cur0 (dmesg_list_empty st)) as [cur st'].
  cbn [snd dmesg_list].
  destruct (get_msg_strings_drains (dmesg_count st') (dmesg_list st')
              (dmesg_list st') (cur_sec cur) (cur_msec cur))
    as (st2 & G & P & _).
  exists st2. cbn [dmesg_count]. split; [exact G|]. apply N. exact P.
Qed.

(** * Further properties of the code *)

(** ** The state machine as a decision table *)

Import Protocol.

Lemma mxt_check_bootloader_scan reads :
  forall ctx state,
    let '(r, _, rest, _) := mxt_check_bootloader reads ctx state in
    r = verdict state (hd_error (skip_transient state reads))
    /\ rest = tl (skip_transient state reads).
Proof.
  induction reads as [|[|b0 b1 b2] reads IH]; intros ctx state;
    cbn [mxt_check_bootloader skip_transient transient hd_error tl verdict];
    try (split; reflexivity).
  unfold check_tail, masked.
  repeat match goal with
         | |- context [mxt_check_bootloader reads ?c ?s] =>
             let E := fresh "E" in
             pose proof (IH c s) as E;
             destruct (mxt_check_bootloader reads c s) as [[[? ?] ?] ?]
         | |- context [if ?b then _ else _] => destruct b eqn:?
         end;
    cbn [hd_error tl verdict]; unfold masked;
    try assumption;
    repeat match goal with
           | H : (_ =? _) = true |- _ => apply Z.eqb_eq in H
           | H : (_ =? _) = false |- _ => apply Z.eqb_neq in H
           | H : negb _ = true |- _ => apply negb_true_iff in H
           | H : negb _ = false |- _ => apply negb_false_iff in H
           end;
    try subst state;
    repeat match goal with
           | |- context [?a =? ?b] =>
               let E := fresh "E" in
               destruct (Z.eqb_spec a b) as [E|E]
           end;
    try (split; reflexivity);
    exfalso;
    unfold MXT_WAITING_BOOTLOAD_CMD, MXT_WAITING_FRAME_DATA,
      MXT_FRAME_CRC_PASS, MXT_FRAME_CRC_CHECK, MXT_FRAME_CRC_FAIL,
      MXT_APP_CRC_FAIL in *; congruence.
Qed.

(** X2.  The loop of [mxt_check_bootloader] is a scan of the chip's answers:
    it passes over the transient ones, and the first answer that is not
    transient decides the return value and is the last one consumed. *)
Theorem mxt_check_bootloader_decision reads ctx state :
  let '(r, _, rest, _) := mxt_check_bootloader reads ctx state in
  r = verdict state (hd_error (skip_transient state reads))
  /\ rest = tl (skip_transient state reads).
Proof. apply mxt_check_bootloader_scan. Qed.

(** ** The identity is read once *)

Lemma read_sizes_app a b : read_sizes (a ++ b) = read_sizes a ++ read_sizes b.
Proof.
  induction a as [|e a IH]; [reflexivity|].
  destruct e; cbn [app read_sizes]; rewrite IH; reflexivity.
Qed.

Lemma check_tail_have ctx state val id r c ev :
  check_tail ctx state val id = (r, c, ev) ->
  read_sizes ev = []
  /\ (have_bootloader_version ctx = true -> have_bootloader_version c = true).
Proof.
  unfold check_tail, LOG. intros H.
  split_ifs H; inversion H; subst; cbn; auto.
Qed.

(** When the condition for a three-byte read does not hold at the start of
    a call, every read of the call is of one byte, and a latched identity
    stays latched. *)
Lemma single_byte_reads reads :
  forall ctx state r c rest ev,
    triple_read ctx state = false ->
    mxt_check_bootloader reads ctx state = (r, c, rest, ev) ->
    Forall (eq 1) (read_sizes ev)
    /\ (have_bootloader_version ctx = true ->
        have_bootloader_version c = true).
Proof.
  induction reads as [|[|b0 b1 b2] reads IH]; intros ctx state r c rest ev Ht H;
    cbn [mxt_check_bootloader] in H; unfold triple_read in Ht;
    rewrite Ht in H.
  - inversion H; subst. destruct (negb _); cbn; auto.
  - inversion H; subst. destruct (negb _); cbn; auto.
  - repeat match type of H with
           | context [mxt_check_bootloader reads ?c ?s] =>
               let E := fresh "E" in
               destruct (mxt_check_bootloader reads c s) as [[[? ?] ?] ?] eqn:E;
               apply (IH _ _ _ _ _ _ Ht) in E; destruct E
           | context [check_tail ?a ?b ?c ?d] =>
               let E := fresh "E" in
               destruct (check_tail a b c d) as [[? ?] ?] eqn:E;
               apply check_tail_have in E; destruct E
           | context [if ?b then _ else _] => destruct b eqn:?
           end;
      inversion H; subst; clear H;
      repeat rewrite read_sizes_app;
      cbn [read_sizes wait_for_chg LOG app];
      repeat match goal with
             | E : read_sizes _ = [] |- _ => rewrite E
             end;
      cbn [app]; split; auto.
Qed.

(** X3.  A call of the state machine reads three bytes at most once, and only
    as its first read, while waiting for frame data in extended-id mode
    with the identity unknown; the read latches the identity.  With the
    identity latched every read is of one byte and the identity stays
    latched. *)
Theorem identity_read_once reads ctx state :
  let '(_, c, _, ev) := mxt_check_bootloader reads ctx state in
  (count_occ Z.eq_dec (read_sizes ev) 3%Z <= 1)%nat
  /\ (In 3 (read_sizes ev) ->
      hd_error (read_sizes ev) = Some 3
      /\ state = MXT_WAITING_FRAME_DATA
      /\ extended_id_mode ctx = true
      /\ have_bootloader_version ctx = false)
  /\ (have_bootloader_version ctx = true ->
      have_bootloader_version c = true /\ Forall (eq 1) (read_sizes ev)).
Proof.
  destruct (mxt_check_bootloader reads ctx state) as [[[r c] rest] ev] eqn:E.
  assert (Ones : forall l, Forall (eq 1) l ->
                           count_occ Z.eq_dec l 3 = 0%nat /\ ~ In 3 l).
  { induction l as [|x l IH]; intros F; [cbn; auto|].
    inversion F; subst. destruct (IH H2) as [C N]. cbn.
    split; [exact C | intros [D|D]; [discriminate | exact (N D)]]. }
  destruct (triple_read ctx state) eqn:Ht.
  - (* the first read asks for three bytes *)
    pose proof Ht as Ht'. unfold triple_read in Ht'.
    apply andb_true_iff in Ht'. destruct Ht' as [Ht' Hs].
    apply andb_true_iff in Ht'. destruct Ht' as [Hh He].
    apply negb_true_iff in Hh. apply Z.eqb_eq in Hs.
    assert (Shape : exists tail,
               read_sizes ev = 3 :: tail /\ Forall (eq 1) tail).
    { destruct reads as [|[|b0 b1 b2] reads];
        cbn [mxt_check_bootloader] in E; unfold triple_read in Ht;
        rewrite Ht in E.
      - inversion E; subst. exists []. destruct (negb _); cbn; auto.
      - inversion E; subst. exists []. destruct (negb _); cbn; auto.
      - assert (Ht2 : triple_read (set_have_bootloader_version true ctx) state
                      = false) by reflexivity.
        repeat match type of E with
               | context [mxt_check_bootloader reads ?c ?s] =>
                   let E' := fresh "E" in
                   destruct (mxt_check_bootloader reads c s)
                     as [[[? ?] ?] ?] eqn:E';
                   apply (single_byte_reads _ _ _ _ _ _ _ Ht2) in E';
                   destruct E'
               | context [check_tail ?a ?b ?c ?d] =>
                   let E' := fresh "E" in
                   destruct (check_tail a b c d) as [[? ?] ?] eqn:E';
                   apply check_tail_have in E'; destruct E'
               | context [if ?b then _ else _] => destruct b eqn:?
               end;
          inversion E; subst; clear E;
          repeat rewrite read_sizes_app;
          cbn [read_sizes wait_for_chg LOG app];
          repeat match goal with
                 | E : read_sizes _ = [] |- _ => rewrite E
                 end;
          cbn [app]; eexists; split; try reflexivity; auto. }
    destruct Shape as (tail & -> & F).
    destruct (Ones tail F) as [C N]. cbn [count_occ hd_error].
    destruct (Z.eq_dec 3 3) as [_|D]; [|contradiction D; reflexivity].
    rewrite C. split; [lia|]. split; [auto|].
    intros Hc. rewrite Hh in Hc. discriminate.
  - destruct (single_byte_reads _ _ _ _ _ _ _ Ht E) as [F K].
    destruct (Ones _ F) as [C N]. rewrite C.
    split; [lia|]. split; [intros D; contradiction (N D)|]. auto.
Qed.

(** ** Reading back an image *)

Import Image.

Lemma all_bytes_complete b : 0 <= b < 256 -> In b all_bytes.
Proof.
  intros H. unfold all_bytes. rewrite <- (Z2Nat.id b) by lia.
  apply in_map, in_seq. lia.
Qed.

Lemma byte_scans_all b : 0 <= b < 256 -> byte_scans b = true.
Proof.
  intros H.
  assert (A : forallb byte_scans all_bytes = true) by (vm_compute; reflexivity).
  rewrite forallb_forall in A. exact (A b (all_bytes_complete b H)).
Qed.

(** [get_hex_value] is the inverse of [hex_of_byte]: on a file that goes on
    with the two digits of a byte it returns 1, stores that byte and
    leaves the file after the digits. *)
Lemma get_hex_value_hex_of_byte junk ctx b rest :
  0 <= b < 256 ->
  f_chars (fp ctx) = hex_of_byte b ++ rest ->
  f_eof (fp ctx) = false ->
  get_hex_value junk ctx = (1, Some b, set_fp (mkFILE rest false) ctx).
Proof.
  intros Hb Hc He. unfold get_hex_value, fgetc.
  rewrite Hc. cbn [hex_of_byte app f_chars f_eof]. rewrite He.
  cbn [feof f_eof]. rewrite !to_char_code.
  pose proof (byte_scans_all b Hb) as S. unfold byte_scans, hex_of_byte in S.
  destruct (sscanf_x _) as [ret [v|]];
    [|destruct ret as [|[]|]; discriminate].
  destruct ret as [|[| |]|]; try discriminate.
  apply Z.eqb_eq in S. subst v. unfold uchar.
  rewrite Z.mod_small by lia. reflexivity.
Qed.

(** With fewer than two characters left, [get_hex_value] reports [EOF],
    stores nothing and sets the end-of-file indicator. *)
Lemma get_hex_value_at_end junk ctx :
  (List.length (f_chars (fp ctx)) < 2)%nat ->
  exists ctx',
    get_hex_value junk ctx = (EOF, None, ctx')
    /\ feof (fp ctx') = true /\ f_chars (fp ctx') = [].
Proof.
  intros H. unfold get_hex_value, fgetc.
  destruct (f_chars (fp ctx)) as [|c0 [|c1 r]] eqn:C; cbn in H; try lia;
    cbn [f_chars f_eof feof]; eexists; split; try reflexivity;
    cbn; auto.
Qed.

Lemma poke_split i v :
  forall buf, (i < List.length buf)%nat ->
              poke i v buf = firstn i buf ++ v :: skipn (S i) buf.
Proof.
  induction i as [|i IH]; intros [|x buf] H; cbn in H; try lia.
  - reflexivity.
  - cbn [poke firstn skipn app]. rewrite IH by lia. reflexivity.
Qed.

(** The [for] loop on a file that goes on with the digits of [body]: the
    bytes of [body] land in the cells from [i] on. *)
Lemma read_body_hex junk body :
  forall i ctx buf rest,
    forallb is_byte body = true ->
    f_chars (fp ctx) = hex_of_bytes body ++ rest ->
    f_eof (fp ctx) = false ->
    (i + List.length body <= List.length buf)%nat ->
    read_body junk (List.length body) (Z.of_nat i) ctx buf
    = (Next, set_fp (mkFILE rest false) ctx,
       firstn i buf ++ body ++ skipn (i + List.length body) buf, []).
Proof.
  induction body as [|b body IH]; intros i ctx buf rest Hb Hc He Hl.
  - cbn [List.length read_body app].
    rewrite Nat.add_0_r, firstn_skipn.
    cbn in Hc. destruct ctx as [h e f cv a ba aa cvn nv].
    cbn in *. destruct f as [chars eof]. cbn in *. subst. reflexivity.
  - cbn [forallb] in Hb. apply andb_true_iff in Hb. destruct Hb as [Hb0 Hb].
    unfold is_byte in Hb0. apply andb_true_iff in Hb0.
    destruct Hb0 as [L U]. apply Z.leb_le in L. apply Z.ltb_lt in U.
    cbn [List.length read_body]. cbn [hex_of_bytes flat_map] in Hc.
    rewrite <- app_assoc in Hc.
    rewrite (get_hex_value_hex_of_byte junk ctx b _ (conj L U) Hc He).
    change (1 =? EOF) with false. cbv iota.
    cbn [store]. rewrite Nat2Z.id.
    cbn [List.length] in Hl.
    replace (Z.of_nat i + 1) with (Z.of_nat (S i)) by lia.
    rewrite (IH (S i) _ (poke i b buf) rest Hb); cbn [fp set_fp f_chars f_eof];
      try reflexivity; [|rewrite poke_length; lia].
    assert (B : firstn (S i) (poke i b buf) ++ body
                  ++ skipn (S i + List.length body) (poke i b buf)
                = firstn i buf ++ (b :: body)
                    ++ skipn (i + S (List.length body)) buf).
    { rewrite poke_split by lia.
      rewrite firstn_app, firstn_firstn.
      replace (Nat.min (S i) i) with i by lia.
      rewrite firstn_length_le by lia.
      replace (S i - i)%nat with 1%nat by lia. cbn [firstn].
      rewrite <- app_assoc. cbn [app]. f_equal. f_equal. f_equal.
      rewrite skipn_app, firstn_length_le by lia.
      rewrite skipn_firstn_comm.
      replace (i - (S i + List.length body))%nat with 0%nat by lia.
      cbn [firstn app].
      replace (S i + List.length body - i)%nat
        with (S (List.length body)) by lia.
      rewrite skipn_cons, skipn_skipn. f_equal. lia. }
    rewrite B. reflexivity.
Qed.

Lemma well_formed_shape f :
  well_formed f = true ->
  exists b0 b1 body,
    f = b0 :: b1 :: body
    /\ 0 <= b0 < 256 /\ 0 <= b1 < 256 /\ forallb is_byte body = true
    /\ Z.lor (Z.shiftl b0 8) b1 + 2 = Z.of_nat (List.length f)
    /\ Z.of_nat (List.length f) <= FIRMWARE_BUFFER_SIZE.
Proof.
  unfold well_formed. intros H.
  apply andb_true_iff in H. destruct H as [H Hle].
  apply andb_true_iff in H. destruct H as [Hb Hlen].
  apply Z.eqb_eq in Hlen. apply Z.leb_le in Hle.
  assert (R : forall b, is_byte b = true -> 0 <= b < 256).
  { unfold is_byte. intros b E. apply andb_true_iff in E.
    destruct E as [E1 E2]. apply Z.leb_le in E1. apply Z.ltb_lt in E2. lia. }
  destruct f as [|b0 [|b1 body]].
  - vm_compute in Hlen. discriminate.
  - exfalso. cbn [forallb] in Hb. apply andb_true_iff in Hb.
    destruct Hb as [Hb _]. apply R in Hb.
    unfold announced_size, nth_byte in Hlen. cbn [nth List.length] in Hlen.
    rewrite Z.lor_0_r in Hlen.
    assert (0 <= Z.shiftl b0 8) by (apply Z.shiftl_nonneg; lia). lia.
  - cbn [forallb] in Hb. apply andb_true_iff in Hb. destruct Hb as [H0 Hb].
    apply andb_true_iff in Hb. destruct Hb as [H1 Hb].
    exists b0, b1, body. unfold announced_size, nth_byte in *.
    cbn [nth] in *. repeat split; try apply R; auto; try lia.
Qed.

(** [read_frame] on a file that goes on with the digits of a well-formed
    frame: the frame is in the buffer, its length is the frame size, and
    the file is left after its last digit. *)
Lemma read_frame_well_formed junk s f rest :
  well_formed f = true ->
  f_chars (fp (fs_ctx s)) = hex_of_bytes f ++ rest ->
  f_eof (fp (fs_ctx s)) = false ->
  List.length (buffer s) = Z.to_nat FIRMWARE_BUFFER_SIZE ->
  exists ev,
    read_frame junk s
    = (Next,
       mkFrameState (set_fp (mkFILE rest false) (fs_ctx s)) (fs_transport s)
                    (f ++ skipn (List.length f) (buffer s))
                    (Z.of_nat (List.length f)) (frame s) (frame_retry s),
       ev).
Proof.
  intros Hw Hc He Hl.
  destruct (well_formed_shape f Hw)
    as (b0 & b1 & body & -> & R0 & R1 & Rb & Hsize & Hmax).
  cbn [hex_of_bytes flat_map] in Hc. rewrite <- !app_assoc in Hc.
  unfold read_frame.
  rewrite (get_hex_value_hex_of_byte junk (fs_ctx s) b0 _ R0 Hc He).
  change (1 =? EOF) with false. cbv iota.
  rewrite (get_hex_value_hex_of_byte junk
             (set_fp (mkFILE (hex_of_byte b1 ++ flat_map hex_of_byte body ++ rest)
                             false) (fs_ctx s))
             b1 (flat_map hex_of_byte body ++ rest) R1 eq_refl eq_refl).
  change (1 =? EOF) with false. cbv iota.
  change FIRMWARE_BUFFER_SIZE with 1024 in *.
  destruct (buffer s) as [|x [|y buf]] eqn:B;
    try (cbn in Hl; change (Z.to_nat 1024) with 1024%nat in Hl; lia).
  rewrite store_header. cbn [nth_byte nth].
  cbn [List.length] in Hsize, Hmax.
  destruct (Z.gtb_spec (Z.lor (Z.shiftl b0 8) b1 + 2) 1024) as [G|G]; [lia|].
  replace (Z.to_nat (Z.lor (Z.shiftl b0 8) b1 + 2 - 2))
    with (List.length body) by lia.
  pose proof (read_body_hex junk body 2
             (set_fp (mkFILE (flat_map hex_of_byte body ++ rest) false)
                (set_fp (mkFILE (hex_of_byte b1 ++ flat_map hex_of_byte body
                                   ++ rest) false) (fs_ctx s)))
             (b0 :: b1 :: buf) rest Rb eq_refl eq_refl) as RB.
  change (Z.of_nat 2) with 2 in RB.
  rewrite RB.
  - eexists. cbn [firstn skipn List.length app Nat.add].
    rewrite Hsize. reflexivity.
  - cbn [List.length] in Hl |- *.
    change (Z.to_nat 1024) with 1024%nat in Hl. lia.
Qed.

(** ** A chip that acknowledges every frame *)

(** An answer that makes the state machine return 0 is not transient. *)
Lemma verdict_not_transient state r :
  verdict state (Some r) = 0 -> transient state r = false.
Proof.
  destruct r as [|b x y]; [discriminate|].
  unfold verdict, transient.
  destruct (state =? MXT_WAITING_BOOTLOAD_CMD).
  - destruct (Z.eqb_spec (masked b) MXT_WAITING_FRAME_DATA); [discriminate|].
    destruct (Z.eqb_spec (masked b) MXT_WAITING_BOOTLOAD_CMD) as [E|];
      [|discriminate].
    intros _. rewrite E. reflexivity.
  - destruct (state =? MXT_WAITING_FRAME_DATA).
    + destruct (Z.eqb_spec (masked b) MXT_WAITING_FRAME_DATA) as [E|];
        [|discriminate].
      intros _. destruct (Z.eqb_spec (uchar b) MXT_FRAME_CRC_PASS) as [F|];
        [|reflexivity].
      unfold masked in E. rewrite F in E. discriminate.
    + destruct (state =? MXT_FRAME_CRC_PASS); [|discriminate].
      destruct (Z.eqb_spec (uchar b) MXT_FRAME_CRC_FAIL); [discriminate|].
      destruct (Z.eqb_spec (uchar b) MXT_FRAME_CRC_PASS) as [E|];
        [|discriminate].
      intros _. rewrite E. reflexivity.
Qed.

Lemma check_accepts reads ctx state a :
  verdict state (Some a) = 0 ->
  exists c ev,
    mxt_check_bootloader (a :: reads) ctx state = (0, c, reads, ev)
    /\ fp c = fp ctx.
Proof.
  intros V. pose proof (mxt_check_bootloader_scan (a :: reads) ctx state) as D.
  destruct (mxt_check_bootloader (a :: reads) ctx state)
    as [[[r c] rest] ev] eqn:E.
  cbn [skip_transient] in D. rewrite (verdict_not_transient _ _ V) in D.
  cbn [hd_error tl] in D. destruct D as [-> ->]. rewrite V.
  exists c, ev. split; [reflexivity|].
  exact (mxt_check_bootloader_fp _ _ _ _ _ _ _ E).
Qed.

(** One transmission to a chip that is ready and then passes the CRC: the
    frame in the buffer is written once, the frame number goes up by one
    and the retry counter stays. *)
Lemma transmit_frame_acked s a b reads' :
  t_reads (fs_transport s) = a :: b :: reads' ->
  asks_frame a = true -> passes_crc b = true ->
  exists ctx' ev,
    transmit_frame s
    = (Next,
       mkFrameState ctx' (mkTransport reads' (tl (t_writes (fs_transport s))))
                    (buffer s) (frame_size s) (frame s + 1) (frame_retry s),
       ev)
    /\ fp ctx' = fp (fs_ctx s)
    /\ writes_of ev = [firstn (Z.to_nat (frame_size s)) (buffer s)].
Proof.
  intros Hr Ha Hb. apply Z.eqb_eq in Ha, Hb.
  destruct (check_accepts (b :: reads') (fs_ctx s) _ a Ha)
    as (c1 & e1 & E1 & F1).
  destruct (transmit_frame s) as [[c s'] ev] eqn:T.
  pose proof (transmit_frame_spec _ _ _ _ T) as (_ & _ & _ & _ & _ & W).
  unfold handshake in W. rewrite Hr, E1 in W. cbn in W.
  unfold transmit_frame in T. rewrite Hr, E1 in T.
  change (0 <? 0) with false in T. cbv iota in T.
  unfold mxt_bootloader_write in T. cbn [t_writes t_reads] in T.
  destruct (check_accepts reads' c1 _ b Hb) as (c2 & e2 & E2 & F2).
  destruct (t_writes (fs_transport s)) as [|w ws];
    cbn [t_reads t_writes tl] in T |- *; rewrite E2 in T;
    change (negb (0 =? 0)) with false in T; cbv iota in T;
    inversion T; subst; clear T;
    exists c2; eexists; (split; [reflexivity|]); split; congruence.
Qed.

Lemma acknowledgements_length pairs :
  List.length (acknowledgements pairs) = (2 * List.length pairs)%nat.
Proof.
  induction pairs as [|[a b] pairs IH]; [reflexivity|].
  cbn [acknowledgements List.length]. rewrite IH. lia.
Qed.

Lemma frame_loop_acked junk frames :
  forall pairs s fuel tail,
    forallb well_formed frames = true ->
    forallb acknowledges pairs = true ->
    List.length pairs = List.length frames ->
    f_chars (fp (fs_ctx s)) = image_of frames ++ tail ->
    (List.length tail < 2)%nat ->
    f_eof (fp (fs_ctx s)) = false ->
    t_reads (fs_transport s) = acknowledgements pairs ->
    List.length (buffer s) = Z.to_nat FIRMWARE_BUFFER_SIZE ->
    frame_retry s = 0 ->
    (List.length frames < fuel)%nat ->
    exists s' ev,
      frame_loop junk fuel s = Some (None, s', ev)
      /\ writes_of ev = frames
      /\ frame s' = frame s + Z.of_nat (List.length frames)
      /\ t_reads (fs_transport s') = []
      /\ feof (fp (fs_ctx s')) = true.
Proof.
  induction frames as [|f frames IH];
    intros pairs s fuel tail Hw Ha Hn Hc Ht He Hr Hl H0 Hf;
    (destruct fuel as [|fuel]; [lia|]); cbn [frame_loop];
    unfold feof at 1; rewrite He; unfold frame_iter; rewrite H0;
    change (0 =? 0) with true; cbv iota.
  - destruct pairs; [|discriminate]. cbn [image_of flat_map app] in Hc.
    unfold read_frame.
    destruct (get_hex_value_at_end junk (fs_ctx s)) as (ctx' & G & E & _);
      [rewrite Hc; exact Ht|].
    rewrite G. change (EOF =? EOF) with true. cbv iota.
    do 2 eexists. split; [reflexivity|].
    cbn [writes_of LOG frame fs_transport fs_ctx List.length].
    repeat split; auto. lia.
  - destruct pairs as [|[a b] pairs]; [discriminate|].
    cbn [forallb] in Hw, Ha.
    apply andb_true_iff in Hw. destruct Hw as [Hw Hws].
    apply andb_true_iff in Ha. destruct Ha as [Ha Has].
    unfold acknowledges in Ha. cbn [fst snd] in Ha.
    apply andb_true_iff in Ha. destruct Ha as [Ha Hb].
    cbn [image_of flat_map] in Hc. rewrite <- app_assoc in Hc.
    destruct (read_frame_well_formed junk s f _ Hw Hc He Hl) as (ev1 & R).
    rewrite R.
    destruct (read_frame_quiet _ _ _ _ _ R) as [_ W1].
    match type of R with
    | _ = (_, ?st, _) => set (s1 := st) in *
    end.
    destruct (transmit_frame_acked s1 a b (acknowledgements pairs))
      as (ctx2 & ev2 & T & F2 & W2); auto.
    rewrite T.
    match type of T with
    | _ = (_, ?st, _) => set (s2 := st) in *
    end.
    destruct (well_formed_shape f Hw)
      as (hb0 & hb1 & hbody & _ & _ & _ & _ & _ & Hmax).
    change FIRMWARE_BUFFER_SIZE with 1024 in *.
    assert (Hlen : (List.length f <= List.length (buffer s))%nat)
      by (rewrite Hl; lia).
    destruct (IH pairs s2 fuel tail) as (s' & ev' & L & W & Fr & Rd & Ef);
      auto.
    + subst s2. cbn [fs_ctx]. rewrite F2. reflexivity.
    + subst s2. cbn [fs_ctx]. rewrite F2. reflexivity.
    + subst s2 s1. cbn [buffer].
      rewrite length_app, length_skipn.
      change (Z.to_nat 1024) with 1024%nat in *. lia.
    + cbn in Hf. lia.
    + rewrite L. do 2 eexists. split; [reflexivity|].
      rewrite !writes_of_app, W1, W2, W. subst s1. cbn [buffer frame_size].
      rewrite Nat2Z.id, firstn_app, Nat.sub_diag, firstn_all.
      cbn [firstn app]. rewrite app_nil_r.
      repeat split; auto.
      rewrite Fr. subst s2. cbn [frame List.length]. lia.
Qed.

(** X6.  The image of well-formed frames, followed by at most one stray
    character, against a chip that asks for the command and then takes
    every frame at the first attempt: [send_frames] returns 0, what it
    writes is the unlock command and then the frames, each once and in
    order, and it has used all the answers of the chip. *)
Theorem acknowledged_image_is_flashed
    junk buffer0 ctx frames tail c0 pairs w0 ws :
  List.length buffer0 = Z.to_nat FIRMWARE_BUFFER_SIZE ->
  forallb well_formed frames = true ->
  f_chars (fp ctx) = image_of frames ++ tail ->
  (List.length tail < 2)%nat ->
  f_eof (fp ctx) = false ->
  asks_command c0 = true ->
  forallb acknowledges pairs = true ->
  List.length pairs = List.length frames ->
  0 <= w0 ->
  exists c' t' evs,
    send_frames junk buffer0 ctx
      (mkTransport (c0 :: acknowledgements pairs) (w0 :: ws))
    = Some (0, c', t', evs)
    /\ writes_of evs = [0xdc; 0xaa] :: frames
    /\ t_reads t' = []
    /\ In EvFclose evs.
Proof.
  intros Hl Hw Hc Ht He H0 Ha Hn Hw0. unfold send_frames.
  apply Z.eqb_eq in H0.
  destruct (check_accepts (acknowledgements pairs)
              (set_extended_id_mode false
                 (set_have_bootloader_version false ctx)) _ c0 H0)
    as (c1 & e1 & E1 & F1).
  cbn [t_reads t_writes]. rewrite E1.
  change (0 =? 0) with true. cbv iota.
  unfold unlock_bootloader, mxt_bootloader_write. cbn [t_writes t_reads].
  destruct (Z.ltb_spec w0 0) as [G|_]; [lia|].
  unfold frame_phase.
  destruct (frame_loop_acked junk frames pairs
              (mkFrameState c1 (mkTransport (acknowledgements pairs) ws)
                            buffer0 0 1 0)
              (loop_fuel (mkFrameState c1
                            (mkTransport (acknowledgements pairs) ws)
                            buffer0 0 1 0)) tail)
    as (s' & ev' & L & W & _ & R & _); auto.
  - cbn [fs_ctx]. rewrite F1. exact Hc.
  - cbn [fs_ctx]. rewrite F1. exact He.
  - unfold loop_fuel. cbn [fs_transport t_reads].
    rewrite acknowledgements_length. lia.
  - rewrite L. do 3 eexists. split; [reflexivity|].
    pose proof (mxt_check_bootloader_writes _ _ _ _ _ _ _ E1) as W1.
    repeat rewrite writes_of_app. rewrite W1, W.
    cbn [writes_of LOG app]. rewrite app_nil_r.
    split; [reflexivity|]. split; [exact R|].
    repeat rewrite in_app_iff. cbn [In LOG app].
    right. right. rewrite in_app_iff. right. left. reflexivity.
Qed.

(** The hypotheses of [acknowledged_image_is_flashed] hold for the image
    of two frames and a chip that acknowledges both. *)
Lemma acknowledged_image_is_flashed_witness :
  exists c' t' evs,
    send_frames 0 Scenarios.zero_buffer
      (Scenarios.ctx_of Scenarios.two_frames)
      (mkTransport
         (Scenarios.status 0xc0
          :: acknowledgements
               [(Scenarios.status 0x80, Scenarios.status 0x04);
                (Scenarios.status 0x80, Scenarios.status 0x04)])
         [0; 0; 0])
    = Some (0, c', t', evs)
    /\ writes_of evs
       = [0xdc; 0xaa] :: [Scenarios.frame_1; Scenarios.frame_2]
    /\ t_reads t' = []
    /\ In EvFclose evs.
Proof.
  apply (acknowledged_image_is_flashed 0 Scenarios.zero_buffer
           (Scenarios.ctx_of Scenarios.two_frames)
           [Scenarios.frame_1; Scenarios.frame_2] []
           (Scenarios.status 0xc0)
           [(Scenarios.status 0x80, Scenarios.status 0x04);
            (Scenarios.status 0x80, Scenarios.status 0x04)] 0 [0; 0]);
    try reflexivity; try (cbn; lia); discriminate.
Defined.

(** ** What a frame costs in characters *)

Lemma get_hex_value_consumes junk ctx r v ctx' :
  get_hex_value junk ctx = (r, v, ctx') ->
  r <> EOF ->
  List.length (f_chars (fp ctx))
  = (List.length (f_chars (fp ctx')) + 2)%nat
  /\ f_eof (fp ctx') = false.
Proof.
  unfold get_hex_value, fgetc. intros H Hr.
  destruct (f_chars (fp ctx)) as [|c0 [|c1 rest]] eqn:C;
    cbn [f_chars f_eof feof] in H; try (inversion H; subst; contradiction).
  destruct (f_eof (fp ctx)) eqn:E;
    [inversion H; subst; contradiction|].
  destruct (sscanf_x _) as [ret a]. inversion H; subst.
  cbn. split; [lia | reflexivity].
Qed.

Lemma read_body_consumes junk n :
  forall i ctx buf ctx' buf' ev,
    read_body junk n i ctx buf = (Next, ctx', buf', ev) ->
    List.length (f_chars (fp ctx))
    = (List.length (f_chars (fp ctx')) + 2 * n)%nat.
Proof.
  induction n as [|n IH]; intros i ctx buf ctx' buf' ev H;
    cbn [read_body] in H.
  - inversion H; subst. lia.
  - destruct (get_hex_value junk ctx) as [[r v] c1] eqn:G.
    destruct (Z.eqb_spec r EOF) as [|Hr]; [discriminate|].
    apply IH in H. destruct (get_hex_value_consumes _ _ _ _ _ G Hr) as [L _].
    lia.
Qed.

(** X7.  A frame that [read_frame] accepts has between 2 and 1024 bytes and has
    taken exactly two characters of the file for each of them; in
    particular an image that stops inside a frame is not accepted. *)
Theorem accepted_frame_consumed junk s :
  let '(c, s', _) := read_frame junk s in
  c = Next ->
  2 <= frame_size s' <= FIRMWARE_BUFFER_SIZE
  /\ Z.of_nat (List.length (f_chars (fp (fs_ctx s))))
     = Z.of_nat (List.length (f_chars (fp (fs_ctx s')))) + 2 * frame_size s'.
Proof.
  destruct (read_frame junk s) as [[c s'] ev] eqn:R. intros ->.
  unfold read_frame in R.
  destruct (get_hex_value junk (fs_ctx s)) as [[r0 v0] ctx1] eqn:G0.
  destruct (Z.eqb_spec r0 EOF) as [|H0]; [discriminate|].
  destruct (get_hex_value junk ctx1) as [[r1 v1] ctx2] eqn:G1.
  destruct (Z.eqb_spec r1 EOF) as [|H1]; [discriminate|].
  destruct v0 as [b0|]; [|apply get_hex_value_no_store in G0; contradiction].
  destruct v1 as [b1|]; [|apply get_hex_value_no_store in G1; contradiction].
  pose proof (get_hex_value_byte _ _ _ _ _ G0) as R0.
  pose proof (get_hex_value_byte _ _ _ _ _ G1) as R1.
  destruct (get_hex_value_consumes _ _ _ _ _ G0 H0) as [L0 _].
  destruct (get_hex_value_consumes _ _ _ _ _ G1 H1) as [L1 _].
  set (buf := store 1 (Some b1) (store 0 (Some b0) (buffer s))) in *.
  set (size := Z.lor (Z.shiftl (nth_byte 0 buf) 8) (nth_byte 1 buf)) in *.
  assert (Hpos : 0 <= size).
  { unfold size, nth_byte. apply Z.lor_nonneg.
    assert (N : 0 <= nth 0 buf 0 /\ 0 <= nth 1 buf 0).
    { unfold buf. cbn [store].
      change (Z.to_nat 1) with 1%nat. change (Z.to_nat 0) with 0%nat.
      destruct (buffer s) as [|x [|y l]]; cbn [poke nth]; lia. }
    split; [apply Z.shiftl_nonneg|]; apply N. }
  destruct (size + 2 >? FIRMWARE_BUFFER_SIZE) eqn:Hs; [discriminate|].
  destruct (read_body _ _ _ _ _) as [[[c' ctx'] buf'] ev'] eqn:B.
  inversion R; subst; clear R. cbn [frame_size fs_ctx].
  apply read_body_consumes in B.
  destruct (Z.gtb_spec (size + 2) FIRMWARE_BUFFER_SIZE); [discriminate|].
  split; [lia|]. lia.
Qed.

(** The frame of [Scenarios.one_frame] is accepted: four bytes for eight
    characters. *)
Lemma accepted_frame_consumed_witness :
  let '(c, s', _) :=
    read_frame 0 (Scenarios.first_pass Scenarios.one_frame) in
  c = Next
  /\ (2 <= frame_size s' <= FIRMWARE_BUFFER_SIZE
      /\ Z.of_nat (List.length
                     (f_chars (fp (fs_ctx
                                     (Scenarios.first_pass
                                        Scenarios.one_frame)))))
         = Z.of_nat (List.length (f_chars (fp (fs_ctx s'))))
           + 2 * frame_size s').
Proof.
  pose proof (accepted_frame_consumed
                0 (Scenarios.first_pass Scenarios.one_frame)) as H.
  revert H. vm_compute. intros H.
  split; [reflexivity | exact (H eq_refl)].
Defined.

(** ** C4: the frame size and its limit *)

(** [get_hex_value] returns [EOF] on a stream whose indicator is set. *)
Lemma get_hex_value_not_at_end junk ctx r v ctx' :
  get_hex_value junk ctx = (r, v, ctx') -> r <> EOF ->
  f_eof (fp ctx) = false.
Proof.
  unfold get_hex_value, fgetc. intros H Hr.
  destruct (f_chars (fp ctx)) as [|c0 [|c1 rest]];
    cbn [feof f_eof] in H; try (inversion H; subst; contradiction).
  destruct (f_eof (fp ctx)); [inversion H; subst; contradiction|reflexivity].
Qed.

(** A handshake that fails ends the pass before the write. *)
Lemma transmit_frame_refused s c s' ev :
  transmit_frame s = (c, s', ev) -> handshake s < 0 -> c = Return (-1).
Proof.
  unfold transmit_frame, handshake. intros H Hh.
  destruct (mxt_check_bootloader _ (fs_ctx s) _) as [[[r c1] rest] e1].
  destruct (Z.ltb_spec r 0) as [_|Hr]; [|lia].
  inversion H. reflexivity.
Qed.

(** C4.  Once the two header bytes [b0], [b1] of a new frame have been
    read, the frame size is [(b0 << 8 | b1) + 2].  If it exceeds 1024 the
    pass ends with [return -1] and the "Frame too big" error before any
    wait, read or write, and the loop ends there with that return.  If it
    does not (1024 included), the frame is not
    rejected as too big; and when the file goes on with the digits of the
    [size - 2] bytes that the header announces, the frame is accepted: the
    reader leaves the file after its last digit with the whole frame,
    header and payload, at the head of the buffer.  It is then
    transmitted: if the handshake succeeds the pass makes exactly one
    write, of the whole frame; if the handshake fails the pass returns -1
    without a write. *)
Theorem frame_size_limit junk s r0 b0 ctx1 r1 b1 ctx2 c s' ev :
  frame_retry s = 0 ->
  List.length (buffer s) = Z.to_nat FIRMWARE_BUFFER_SIZE ->
  get_hex_value junk (fs_ctx s) = (r0, Some b0, ctx1) -> r0 <> EOF ->
  get_hex_value junk ctx1 = (r1, Some b1, ctx2) -> r1 <> EOF ->
  frame_iter junk s = (c, s', ev) ->
  let size := Z.lor (Z.shiftl b0 8) b1 + 2 in
  frame_size s' = size
  /\ (size > 1024 ->
      c = Return (-1) /\ existsb is_too_big ev = true /\ io_only ev = []
      /\ forall fuel, frame_loop junk (S fuel) s = Some (Some (-1), s', ev))
  /\ (size <= 1024 ->
      existsb is_too_big ev = false
      /\ forall payload rest,
          forallb is_byte payload = true ->
          Z.of_nat (List.length payload) = size - 2 ->
          f_chars (fp ctx2) = hex_of_bytes payload ++ rest ->
          exists s1 ev1,
            read_frame junk s = (Next, s1, ev1)
            /\ f_chars (fp (fs_ctx s1)) = rest
            /\ firstn (Z.to_nat size) (buffer s1) = b0 :: b1 :: payload
            /\ (0 <= handshake s1 -> writes_of ev = [b0 :: b1 :: payload])
            /\ (handshake s1 < 0 -> c = Return (-1) /\ writes_of ev = [])).
Proof.
  intros Hretry Hlen G0 H0 G1 H1 H size.
  pose proof H as Hit.
  pose proof (get_hex_value_not_at_end _ _ _ _ _ G0 H0) as Hf0.
  unfold frame_iter in H. rewrite Hretry in H. cbn [Z.eqb] in H.
  destruct (read_frame junk s) as [[c1 s1] ev1] eqn:R.
  assert (Hlen2 : (2 <= List.length (buffer s))%nat)
    by (rewrite Hlen; vm_compute; lia).
  destruct (read_frame_header junk s r0 b0 ctx1 r1 b1 ctx2 G0 H0 G1 H1 Hlen2
              c1 s1 ev1 R) as (Hsize & Hhead & Hl & Hio & Hbig & Hsmall).
  fold size in Hsize, Hbig, Hsmall.
  change FIRMWARE_BUFFER_SIZE with 1024 in Hbig, Hsmall.
  assert (Hfs : frame_size s' = size).
  { destruct c1; [|inversion H; subst; exact Hsize
                  |inversion H; subst; exact Hsize].
    destruct (transmit_frame s1) as [[c2 s2] ev2] eqn:T.
    inversion H; subst; clear H.
    apply transmit_frame_spec in T. destruct T as (_ & Ts & _). congruence. }
  split; [exact Hfs|]. split.
  { intros Hgt. destruct (Hbig Hgt) as [Hc Hb]. subst c1.
    inversion H; subst c s' ev. repeat (split; [auto; fail|]).
    intros fuel. cbn [frame_loop]. unfold feof. rewrite Hf0, Hit.
    reflexivity. }
  intros Hle.
  assert (Hnot : existsb is_too_big ev = false).
  { destruct c1; [|inversion H; subst; exact (Hsmall Hle)
                  |inversion H; subst; exact (Hsmall Hle)].
    destruct (transmit_frame s1) as [[c2 s2] ev2] eqn:T.
    inversion H; subst; clear H.
    rewrite existsb_app, (Hsmall Hle).
    exact (transmit_frame_not_too_big _ _ _ _ T). }
  split; [exact Hnot|].
  intros payload rest Hb Hp Hc.
  destruct (get_hex_value_consumes _ _ _ _ _ G1 H1) as [_ He2].
  assert (Hpos : 0 <= Z.lor (Z.shiftl b0 8) b1).
  { pose proof (get_hex_value_byte _ _ _ _ _ G0).
    pose proof (get_hex_value_byte _ _ _ _ _ G1).
    apply Z.lor_nonneg; split; [apply Z.shiftl_nonneg|]; lia. }
  (* the reader, step by step *)
  pose proof R as R'. unfold read_frame in R'.
  rewrite G0 in R'. apply Z.eqb_neq in H0. rewrite H0 in R'.
  rewrite G1 in R'. apply Z.eqb_neq in H1. rewrite H1 in R'.
  destruct (buffer s) as [|x [|y buf]] eqn:B; cbn in Hlen2; try lia.
  rewrite store_header in R'. cbn [nth_byte nth] in R'.
  fold size in R'.
  destruct (Z.gtb_spec size FIRMWARE_BUFFER_SIZE) as [G|_];
    [change FIRMWARE_BUFFER_SIZE with 1024 in G; lia|].
  replace (Z.to_nat (size - 2)) with (List.length payload) in R' by lia.
  assert (Hroom : (2 + List.length payload <= List.length (b0 :: b1 :: buf))%nat).
  { cbn [List.length] in Hlen |- *.
    change (Z.to_nat FIRMWARE_BUFFER_SIZE) with 1024%nat in Hlen. lia. }
  pose proof (read_body_hex junk payload 2 ctx2 (b0 :: b1 :: buf) rest
                Hb Hc He2 Hroom) as RB.
  change (Z.of_nat 2) with 2 in RB. rewrite RB in R'.
  inversion R'; subst c1 s1 ev1; clear R'.
  eexists. eexists. split; [reflexivity|].
  cbn [fs_ctx fp set_fp f_chars buffer firstn skipn app Nat.add].
  split; [destruct ctx2; reflexivity|].
  assert (Hfirst : firstn (Z.to_nat size)
                     (b0 :: b1 :: payload
                         ++ skipn (List.length payload) buf)
                   = b0 :: b1 :: payload).
  { replace (Z.to_nat size) with (S (S (List.length payload))) by lia.
    cbn [firstn]. f_equal. f_equal.
    rewrite firstn_app, firstn_all, Nat.sub_diag. cbn [firstn].
    apply app_nil_r. }
  split; [exact Hfirst|].
  destruct (transmit_frame _) as [[c2 s2] ev2] eqn:T.
  inversion H; subst c s' ev; clear H.
  pose proof (transmit_frame_refused _ _ _ _ T) as Tr.
  apply transmit_frame_spec in T. destruct T as (_ & _ & _ & _ & _ & Tw).
  cbn [frame_size buffer] in Tw. rewrite Hfirst in Tw.
  cbn [writes_of LOG app]. rewrite ?writes_of_app. cbn [writes_of LOG app].
  rewrite Tw.
  match goal with
  | |- context [handshake ?st <? 0] =>
      destruct (Z.ltb_spec (handshake st) 0) as [Hneg|Hpos']
  end.
  - split; [intros Hh; lia|]. intros Hh. split; [exact (Tr Hh)|reflexivity].
  - split; [reflexivity|]. intros Hh. lia.
Qed.

(** The hypotheses of [frame_size_limit] hold at the first pass over the
    one-frame image: the frame of four bytes is accepted and written
    whole. *)
Lemma frame_size_limit_witness :
  let '(_, _, ev) := frame_iter 0 (Scenarios.first_pass Scenarios.one_frame) in
  writes_of ev = [[0x00; 0x02; 0xaa; 0xbb]].
Proof.
  destruct (frame_iter 0 (Scenarios.first_pass Scenarios.one_frame))
    as [[c s'] ev] eqn:E.
  assert (G : exists ctx1 ctx2,
             get_hex_value 0 (fs_ctx (Scenarios.first_pass Scenarios.one_frame))
             = (1, Some 0x00, ctx1)
             /\ get_hex_value 0 ctx1 = (1, Some 0x02, ctx2)
             /\ f_chars (fp ctx2) = (hex_of_bytes [0xaa; 0xbb] ++ [])%list).
  { eexists. eexists. split; [reflexivity|]. split; reflexivity. }
  destruct G as (ctx1 & ctx2 & G0 & G1 & F).
  assert (N : 1 <> EOF) by discriminate.
  destruct (frame_size_limit 0 (Scenarios.first_pass Scenarios.one_frame)
              1 0x00 ctx1 1 0x02 ctx2 c s' ev
              eq_refl eq_refl G0 N G1 N E) as (_ & _ & H).
  destruct H as [_ H]; [vm_compute; discriminate|].
  destruct (H [0xaa; 0xbb] [] eq_refl eq_refl F)
    as (s1 & ev1 & R & _ & _ & W & _).
  apply W. inversion R; subst s1. vm_compute. discriminate.
Defined.

(** A frame that announces exactly 1024 bytes is taken and written whole;
    one byte more and the session stops before anything but the unlock is
    written. *)
Example full_frame_transmitted :
  Scenarios.result_of (Scenarios.run Scenarios.full_frame_image (Scenarios.acks 1))
  = Some 0
  /\ writes_of (Scenarios.events_of
                  (Scenarios.run Scenarios.full_frame_image (Scenarios.acks 1)))
     = [unlock_bytes; Scenarios.full_frame]
  /\ List.length Scenarios.full_frame = 1024%nat
  /\ Scenarios.result_of
       (Scenarios.run "03FF" (Scenarios.acks 1)) = Some (-1)
  /\ writes_of (Scenarios.events_of (Scenarios.run "03FF" (Scenarios.acks 1)))
     = [unlock_bytes].
Proof. vm_compute. repeat split; reflexivity. Qed.

(** ** One retry in a session *)

Lemma retries_app a b : retries (a ++ b) = (retries a + retries b)%nat.
Proof.
  induction a as [|e a IH]; [reflexivity|].
  destruct e; cbn [app retries]; auto.
  destruct (String.eqb fmt _); cbn; rewrite IH; reflexivity.
Qed.

Lemma check_tail_no_retry ctx state val id r c ev :
  check_tail ctx state val id = (r, c, ev) -> retries ev = 0%nat.
Proof.
  unfold check_tail, LOG. intros H. split_ifs H; inversion H; reflexivity.
Qed.

Lemma mxt_check_bootloader_no_retry reads :
  forall ctx state r c rest ev,
    mxt_check_bootloader reads ctx state = (r, c, rest, ev) ->
    retries ev = 0%nat.
Proof.
  induction reads as [|[|b0 b1 b2] reads IH]; intros ctx state r c rest ev H;
    cbn [mxt_check_bootloader] in H.
  - inversion H; subst. destruct (negb _), (_ && _); reflexivity.
  - inversion H; subst. destruct (negb _), (_ && _); reflexivity.
  - crunch_check IH H;
      repeat match goal with
             | E : check_tail _ _ _ _ = _ |- _ => apply check_tail_no_retry in E
             end;
      repeat rewrite retries_app;
      cbn [retries wait_for_chg LOG app String.eqb Ascii.eqb Bool.eqb];
      repeat match goal with E : retries _ = 0%nat |- _ => rewrite E end;
      reflexivity.
Qed.

Lemma read_frame_no_retry junk s c s' ev :
  read_frame junk s = (c, s', ev) -> retries ev = 0%nat.
Proof.
  unfold read_frame. intros H.
  crunch_read_frame H; inversion H; subst; clear H; try reflexivity;
    match goal with
    | B : read_body _ _ _ _ _ = _ |- _ =>
        apply read_body_spec in B; [|lia];
        destruct B as (_ & _ & [[_ ->]|[_ ->]]); reflexivity
    end.
Qed.

(** A transmission announces a retry exactly when it raises the retry
    counter, which it does by one and only from a counter that is not
    positive. *)
Lemma transmit_frame_retries s c s' ev :
  transmit_frame s = (c, s', ev) ->
  (frame_retry s' = frame_retry s /\ retries ev = 0%nat)
  \/ (frame_retry s <= 0 /\ frame_retry s' = frame_retry s + 1
      /\ retries ev = 1%nat).
Proof.
  unfold transmit_frame. intros H.
  destruct (mxt_check_bootloader _ (fs_ctx s) _) as [[[r c1] rest] e1] eqn:E1.
  apply mxt_check_bootloader_no_retry in E1.
  destruct (r <? 0).
  - inversion H; subst. left. rewrite retries_app, E1. auto.
  - destruct (mxt_bootloader_write _ _) as [[w t'] e2] eqn:E2.
    apply mxt_bootloader_write_reads in E2. destruct E2 as [_ ->].
    destruct (mxt_check_bootloader (t_reads t') c1 _)
      as [[[r' c2] rest'] e3] eqn:E3.
    apply mxt_check_bootloader_no_retry in E3.
    destruct (negb (r' =? 0));
      [destruct (Z.gtb_spec (frame_retry s) 0)|];
      [| |destruct (Z.rem (frame s + 1) 20 =? 0)];
      inversion H; subst; clear H; cbn [frame_retry];
      repeat rewrite retries_app;
      cbn [retries LOG app String.eqb Ascii.eqb Bool.eqb];
      rewrite E1, E3; cbn [Nat.add]; auto.
Qed.

Lemma frame_loop_retries junk fuel :
  forall s r s' ev,
    0 <= frame_retry s <= 1 ->
    frame_loop junk fuel s = Some (r, s', ev) ->
    Z.of_nat (retries ev) + frame_retry s <= 1.
Proof.
  induction fuel as [|fuel IH]; intros s r s' ev Hr H; [discriminate|].
  cbn [frame_loop] in H.
  destruct (feof _); [inversion H; subst; cbn; lia|].
  destruct (frame_iter junk s) as [[c s1] ev1] eqn:E.
  assert (Step : (frame_retry s1 = frame_retry s /\ retries ev1 = 0%nat)
                 \/ (frame_retry s <= 0 /\ frame_retry s1 = frame_retry s + 1
                     /\ retries ev1 = 1%nat)).
  { unfold frame_iter in E. destruct (frame_retry s =? 0).
    - destruct (read_frame junk s) as [[c1 s0] e0] eqn:R.
      pose proof (read_frame_no_retry _ _ _ _ _ R) as N0.
      destruct (read_frame_transport _ _ _ _ _ R) as (_ & Rt & _).
      destruct c1.
      + destruct (transmit_frame s0) as [[c2 s2] e2] eqn:T.
        inversion E; subst. rewrite retries_app, N0. cbn [Nat.add].
        rewrite <- Rt. exact (transmit_frame_retries _ _ _ _ T).
      + inversion E; subst. auto.
      + inversion E; subst. auto.
    - destruct (transmit_frame s) as [[c2 s2] e2] eqn:T.
      inversion E; subst. exact (transmit_frame_retries _ _ _ _ T). }
  destruct c.
  - destruct (frame_loop junk fuel s1) as [[[r2 s2] ev2]|] eqn:L;
      [|discriminate].
    inversion H; subst; clear H. rewrite retries_app.
    assert (B : 0 <= frame_retry s1 <= 1) by lia.
    pose proof (IH _ _ _ _ B L). lia.
  - inversion H; subst. lia.
  - inversion H; subst. lia.
Qed.

(** X8.  Whatever the image and the chip, a session announces at most one
    retry: the allowance is one retransmission for the whole session. *)
Theorem one_retry_in_a_session junk buffer0 ctx t :
  match send_frames junk buffer0 ctx t with
  | Some (_, _, _, evs) => (retries evs <= 1)%nat
  | None => False
  end.
Proof.
  unfold send_frames.
  destruct (mxt_check_bootloader _ _ _) as [[[r c] rest] e] eqn:E.
  apply mxt_check_bootloader_no_retry in E.
  assert (P : forall t1,
             match frame_phase junk buffer0 c t1 with
             | Some (_, _, ev) => (retries ev <= 1)%nat
             | None => False
             end).
  { intros t1. unfold frame_phase.
    destruct (frame_loop_enough_fuel junk
                (loop_fuel (mkFrameState c t1 buffer0 0 1 0))
                (mkFrameState c t1 buffer0 0 1 0)) as [[[r1 s1] ev1] L];
      [unfold loop_fuel, reads_left; lia|].
    rewrite L.
    assert (B : 0 <= frame_retry (mkFrameState c t1 buffer0 0 1 0) <= 1)
      by (cbn; lia).
    pose proof (frame_loop_retries _ _ _ _ _ _ B L) as Q. cbn in Q.
    destruct r1; [lia|]. rewrite retries_app. cbn. lia. }
  destruct (r =? 0).
  - destruct (unlock_bootloader _) as [[w t1] e1] eqn:U.
    unfold unlock_bootloader in U.
    apply mxt_bootloader_write_reads in U. destruct U as [_ ->].
    destruct (w <? 0).
    + repeat rewrite retries_app. rewrite E. cbn. lia.
    + specialize (P t1). destruct (frame_phase _ _ _ _) as [[[? ?] ?]|];
        [|contradiction].
      repeat rewrite retries_app. rewrite E. cbn. lia.
  - destruct (r =? -3).
    + specialize (P (mkTransport rest (t_writes t))).
      destruct (frame_phase _ _ _ _) as [[[? ?] ?]|]; [|contradiction].
      repeat rewrite retries_app. rewrite E. cbn. lia.
    + rewrite retries_app, E. cbn. lia.
Qed.

(** ** wait_for_chg on a USB device *)

Import Flash.

Lemma poll_chg_spec chg fuel :
  forall k try,
    try = 101 - Z.of_nat fuel -> (0 < fuel)%nat ->
    let '(r, ev) := poll_chg chg k try fuel in
    (List.length (readings ev) <= fuel)%nat
    /\ ((r = Some (-1)
         /\ (forall j, (j < fuel)%nat -> chg (k + j)%nat = true)
         /\ sleeps ev = 1000 * (Z.of_nat fuel - 1))
        \/ (r = Some 0
            /\ exists j, (j < fuel)%nat /\ chg (k + j)%nat = false
                         /\ (forall i, (i < j)%nat -> chg (k + i)%nat = true)
                         /\ sleeps ev = 1000 * Z.of_nat j)).
Proof.
  induction fuel as [|fuel IH]; intros k try Ht Hf; [lia|].
  cbn [poll_chg]. destruct (chg k) eqn:C.
  - destruct (Z.gtb_spec (try + 1) 100) as [G|G].
    + assert (fuel = 0%nat) by lia. subst fuel.
      cbn [readings List.length sleeps]. split; [lia|]. left.
      split; [reflexivity|]. split; [|reflexivity].
      intros j Hj. replace j with 0%nat by lia. rewrite Nat.add_0_r. exact C.
    + assert (F : (0 < fuel)%nat) by lia.
      assert (T : try + 1 = 101 - Z.of_nat fuel) by lia.
      specialize (IH (S k) (try + 1) T F).
      destruct (poll_chg chg (S k) (try + 1) fuel) as [r ev].
      destruct IH as [L IH]. cbn [app readings List.length sleeps].
      split; [lia|].
      destruct IH as [(-> & A & Sl)|(-> & j & Hj & Cj & A & Sl)].
      * left. split; [reflexivity|]. split; [|lia].
        intros j Hj. destruct j as [|j]; [rewrite Nat.add_0_r; exact C|].
        replace (k + S j)%nat with (S k + j)%nat by lia. apply A. lia.
      * right. split; [reflexivity|]. exists (S j).
        split; [lia|].
        split; [replace (k + S j)%nat with (S k + j)%nat by lia; exact Cj|].
        split; [|lia].
        intros i Hi. destruct i as [|i]; [rewrite Nat.add_0_r; exact C|].
        replace (k + S i)%nat with (S k + i)%nat by lia. apply A. lia.
  - cbn [readings List.length sleeps]. split; [lia|]. right.
    split; [reflexivity|]. exists 0%nat. rewrite Nat.add_0_r.
    repeat split; auto; try lia.
Qed.

(** X14.  [wait_for_chg] returns after at most 101 readings of the CHG line and
    at most 100 ms of sleep.  On a USB device it returns -1 exactly when
    the line is busy at each of the 101 readings; otherwise it returns 0
    having slept 1 ms for each busy reading before the first idle one.
    On any other device it sleeps 50 ms and returns 0. *)
Theorem wait_for_chg_bounded usb chg :
  let '(r, ev) := wait_for_chg usb chg in
  (List.length (readings ev) <= 101)%nat
  /\ 0 <= sleeps ev <= 100000
  /\ if usb then
       (r = Some (-1) /\ forall j, (j < 101)%nat -> chg j = true)
       \/ (r = Some 0
           /\ exists j, (j < 101)%nat /\ chg j = false
                        /\ (forall i, (i < j)%nat -> chg i = true)
                        /\ sleeps ev = 1000 * Z.of_nat j)
     else r = Some 0 /\ ev = [ChgSleep 50000].
Proof.
  unfold wait_for_chg. destruct usb.
  - pose proof (poll_chg_spec chg 101 0 0 eq_refl ltac:(lia)) as P.
    destruct (poll_chg chg 0 0 101) as [r ev].
    destruct P as [L [(R & A & Sl)|(R & j & Hj & Cj & A & Sl)]].
    + split; [exact L|]. split; [rewrite Sl; vm_compute; split; discriminate|].
      left. auto.
    + split; [exact L|]. split; [lia|]. right.
      split; [exact R|]. exists j. auto.
  - unfold MXT_BOOTLOADER_DELAY. cbn [readings sleeps List.length].
    repeat split; try reflexivity; lia.
Qed.

(** ** How a session ends *)

Lemma handshake_event_is_session_event ev :
  forallb is_handshake_event ev = true -> forallb is_session_event ev = true.
Proof.
  induction ev as [|e ev IH]; [reflexivity|].
  cbn [forallb]. intros H. apply andb_true_iff in H. destruct H as [He H].
  rewrite (IH H), andb_true_r. destruct e; try discriminate; reflexivity.
Qed.

Lemma read_frame_session_events junk s c s' ev :
  read_frame junk s = (c, s', ev) -> forallb is_session_event ev = true.
Proof.
  unfold read_frame. intros H.
  crunch_read_frame H; inversion H; subst; clear H; try reflexivity;
    match goal with
    | B : read_body _ _ _ _ _ = _ |- _ =>
        apply read_body_spec in B; [|lia];
        destruct B as (_ & _ & [[_ ->]|[_ ->]]); reflexivity
    end.
Qed.

(** A transmission produces session events only, and when it leaves the
    function it is with -1. *)
Lemma transmit_frame_session_events s c s' ev :
  transmit_frame s = (c, s', ev) ->
  forallb is_session_event ev = true /\ (forall r, c = Return r -> r = -1).
Proof.
  unfold transmit_frame. intros H.
  destruct (mxt_check_bootloader _ (fs_ctx s) _) as [[[r c1] rest] e1] eqn:E1.
  apply mxt_check_bootloader_events, handshake_event_is_session_event in E1.
  destruct (r <? 0).
  - inversion H; subst. rewrite forallb_app, E1. split; [reflexivity|].
    intros r0 R. inversion R. reflexivity.
  - destruct (mxt_bootloader_write _ _) as [[w t'] e2] eqn:E2.
    apply mxt_bootloader_write_reads in E2. destruct E2 as [_ ->].
    destruct (mxt_check_bootloader (t_reads t') c1 _)
      as [[[r' c2] rest'] e3] eqn:E3.
    apply mxt_check_bootloader_events, handshake_event_is_session_event in E3.
    split_ifs H; inversion H; subst; clear H;
      repeat rewrite forallb_app; cbn [forallb LOG app is_session_event];
      rewrite ?E1, ?E3; (split; [reflexivity|]);
      intros r0 R; inversion R; reflexivity.
Qed.

Lemma frame_iter_session_events junk s c s' ev :
  frame_iter junk s = (c, s', ev) ->
  forallb is_session_event ev = true /\ (forall r, c = Return r -> r = -1).
Proof.
  unfold frame_iter. intros H.
  destruct (frame_retry s =? 0).
  - destruct (read_frame junk s) as [[c1 s1] e1] eqn:R.
    pose proof (read_frame_session_events _ _ _ _ _ R) as S1.
    assert (R1 : forall r, c1 = Return r -> r = -1).
    { intros r ->. unfold read_frame in R.
      crunch_read_frame R; inversion R; subst; try reflexivity.
      match goal with
      | B : read_body _ _ _ _ _ = _ |- _ =>
          apply read_body_spec in B; [|lia];
          destruct B as (_ & _ & [[B _]|[B _]]); inversion B; reflexivity
      end. }
    destruct c1.
    + destruct (transmit_frame s1) as [[c2 s2] e2] eqn:T.
      destruct (transmit_frame_session_events _ _ _ _ T) as [S2 R2].
      inversion H; subst. rewrite forallb_app, S1, S2. auto.
    + inversion H; subst. split; [exact S1 | discriminate].
    + inversion H; subst. split; [exact S1 | exact R1].
  - destruct (transmit_frame s) as [[c2 s2] e2] eqn:T.
    inversion H; subst. exact (transmit_frame_session_events _ _ _ _ T).
Qed.

Lemma frame_loop_session_events junk fuel :
  forall s r s' ev,
    frame_loop junk fuel s = Some (r, s', ev) ->
    forallb is_session_event ev = true /\ (r = None \/ r = Some (-1)).
Proof.
  induction fuel as [|fuel IH]; intros s r s' ev H; [discriminate|].
  cbn [frame_loop] in H.
  destruct (feof _); [inversion H; subst; auto|].
  destruct (frame_iter junk s) as [[c s1] ev1] eqn:E.
  destruct (frame_iter_session_events _ _ _ _ _ E) as [S1 R1].
  destruct c.
  - destruct (frame_loop junk fuel s1) as [[[r2 s2] ev2]|] eqn:L;
      [|discriminate].
    inversion H; subst. destruct (IH _ _ _ _ L) as [S2 R2].
    rewrite forallb_app, S1, S2. auto.
  - inversion H; subst. auto.
  - inversion H; subst. rewrite (R1 r0 eq_refl). auto.
Qed.

Lemma check_tail_settings ctx state val id r c ev :
  check_tail ctx state val id = (r, c, ev) -> settings c = settings ctx.
Proof.
  unfold check_tail. intros H. split_ifs H; inversion H; reflexivity.
Qed.

Lemma mxt_check_bootloader_settings reads :
  forall ctx state r c rest ev,
    mxt_check_bootloader reads ctx state = (r, c, rest, ev) ->
    settings c = settings ctx.
Proof.
  induction reads as [|[|b0 b1 b2] reads IH]; intros ctx state r c rest ev H;
    cbn [mxt_check_bootloader] in H.
  - inversion H; reflexivity.
  - inversion H; reflexivity.
  - crunch_check IH H;
      repeat match goal with
             | E : check_tail _ _ _ _ = _ |- _ =>
                 apply check_tail_settings in E
             end;
      repeat match goal with
             | E : context [if ?b then _ else _] |- _ => destruct b
             end;
      cbn [app] in *; try reflexivity; try assumption;
      unfold settings in *; cbn in *; congruence.
Qed.

Lemma get_hex_value_settings junk ctx r v ctx' :
  get_hex_value junk ctx = (r, v, ctx') -> settings ctx' = settings ctx.
Proof.
  unfold get_hex_value.
  destruct (fgetc (fp ctx)) as [c0 f1]. destruct (fgetc f1) as [c1 f2].
  destruct (feof f2); [intros H; inversion H; reflexivity|].
  destruct (sscanf_x _) as [ret a]. intros H. inversion H. reflexivity.
Qed.

Lemma read_body_settings junk n :
  forall i ctx buf c ctx' buf' ev,
    read_body junk n i ctx buf = (c, ctx', buf', ev) ->
    settings ctx' = settings ctx.
Proof.
  induction n as [|n IH]; intros i ctx buf c ctx' buf' ev H;
    cbn [read_body] in H.
  - inversion H; reflexivity.
  - destruct (get_hex_value junk ctx) as [[r v] c1] eqn:G.
    apply get_hex_value_settings in G.
    destruct (r =? EOF).
    + inversion H; subst. exact G.
    + apply IH in H. congruence.
Qed.

Lemma frame_iter_settings junk s c s' ev :
  frame_iter junk s = (c, s', ev) ->
  settings (fs_ctx s') = settings (fs_ctx s).
Proof.
  assert (T : forall s0 c0 s1 e0, transmit_frame s0 = (c0, s1, e0) ->
                                  settings (fs_ctx s1) = settings (fs_ctx s0)).
  { intros s0 c0 s1 e0 H. unfold transmit_frame in H.
    destruct (mxt_check_bootloader _ (fs_ctx s0) _)
      as [[[r c1] rest] e1] eqn:E1.
    apply mxt_check_bootloader_settings in E1.
    destruct (r <? 0); [inversion H; subst; exact E1|].
    destruct (mxt_bootloader_write _ _) as [[w t'] e2].
    destruct (mxt_check_bootloader (t_reads t') c1 _)
      as [[[r' c2] rest'] e3] eqn:E3.
    apply mxt_check_bootloader_settings in E3.
    split_ifs H; inversion H; subst; cbn [fs_ctx]; congruence. }
  assert (R : forall c0 s1 e0, read_frame junk s = (c0, s1, e0) ->
                               settings (fs_ctx s1) = settings (fs_ctx s)).
  { intros c0 s1 e0 H. unfold read_frame in H.
    repeat match type of H with
           | context [get_hex_value ?j ?c] =>
               let E := fresh "G" in
               destruct (get_hex_value j c) as [[? ?] ?] eqn:E;
               apply get_hex_value_settings in E
           | context [read_body ?j ?n ?i ?c ?b] =>
               let E := fresh "B" in
               destruct (read_body j n i c b) as [[[? ?] ?] ?] eqn:E;
               apply read_body_settings in E
           | context [if ?b then _ else _] => destruct b eqn:?
           end; inversion H; subst; cbn [fs_ctx]; congruence. }
  unfold frame_iter. intros H.
  destruct (frame_retry s =? 0).
  - destruct (read_frame junk s) as [[c1 s1] e1].
    pose proof (R c1 s1 e1 eq_refl) as E. destruct c1.
    + destruct (transmit_frame s1) as [[c2 s2] e2] eqn:E2.
      apply T in E2. inversion H; subst. congruence.
    + inversion H; subst. exact E.
    + inversion H; subst. exact E.
  - destruct (transmit_frame s) as [[c2 s2] e2] eqn:E2.
    apply T in E2. inversion H; subst. exact E2.
Qed.

Lemma frame_loop_settings junk fuel :
  forall s r s' ev,
    frame_loop junk fuel s = Some (r, s', ev) ->
    settings (fs_ctx s') = settings (fs_ctx s).
Proof.
  induction fuel as [|fuel IH]; intros s r s' ev H; [discriminate|].
  cbn [frame_loop] in H.
  destruct (feof _); [inversion H; subst; reflexivity|].
  destruct (frame_iter junk s) as [[c s1] ev1] eqn:E.
  apply frame_iter_settings in E. destruct c.
  - destruct (frame_loop junk fuel s1) as [[[r2 s2] ev2]|] eqn:L;
      [|discriminate].
    inversion H; subst. apply IH in L. congruence.
  - inversion H; subst. exact E.
  - inversion H; subst. exact E.
Qed.

Lemma send_frames_ends junk buffer0 ctx t r c t' evs :
  send_frames junk buffer0 ctx t = Some (r, c, t', evs) ->
  forallb is_session_event evs = true
  /\ settings c = settings ctx
  /\ ((r = -1)
      \/ (r = 0
          /\ exists before,
              evs = before ++ [EvFclose; EvLog LOG_INFO "Done" [];
                               EvSleep MXT_RESET_TIME])).
Proof.
  unfold send_frames. intros H.
  destruct (mxt_check_bootloader _ _ _) as [[[r0 c0] rest] e0] eqn:E.
  pose proof (mxt_check_bootloader_settings _ _ _ _ _ _ _ E) as K0.
  change (settings c0 = settings ctx) in K0.
  apply mxt_check_bootloader_events, handshake_event_is_session_event in E.
  assert (P : forall t1 pre,
             forallb is_session_event pre = true ->
             match frame_phase junk buffer0 c0 t1 with
             | Some (r, s, ev') =>
                 Some (r, fs_ctx s, fs_transport s,
                       pre ++ LOG LOG_INFO "Sending frames..." [] ++ ev')
             | None => None
             end = Some (r, c, t', evs) ->
             forallb is_session_event evs = true
             /\ settings c = settings c0
             /\ ((r = -1)
                 \/ (r = 0
                     /\ exists before,
                         evs = before ++ [EvFclose; EvLog LOG_INFO "Done" [];
                                          EvSleep MXT_RESET_TIME]))).
  { intros t1 pre Hpre Q. unfold frame_phase in Q.
    destruct (frame_loop _ _ _) as [[[r1 s1] ev1]|] eqn:L; [|discriminate].
    pose proof (frame_loop_settings _ _ _ _ _ _ L) as K1.
    destruct (frame_loop_session_events _ _ _ _ _ _ L) as [S1 R1].
    destruct r1 as [r1|]; inversion Q; subst; clear Q.
    - rewrite !forallb_app. cbn [forallb LOG app is_session_event].
      rewrite Hpre, S1. split; [reflexivity|].
      split; [exact K1|]. left.
      destruct R1 as [R1|R1]; inversion R1; reflexivity.
    - rewrite !forallb_app. cbn [forallb LOG app is_session_event].
      rewrite !forallb_app, Hpre, S1. split; [reflexivity|].
      split; [exact K1|]. right. split; [reflexivity|].
      exists (pre ++ LOG LOG_INFO "Sending frames..." [] ++ ev1).
      rewrite <- !app_assoc. reflexivity. }
  destruct (r0 =? 0).
  - destruct (unlock_bootloader _) as [[w t1] e1] eqn:U.
    unfold unlock_bootloader in U.
    apply mxt_bootloader_write_reads in U. destruct U as [_ ->].
    destruct (w <? 0).
    + inversion H; subst. rewrite !forallb_app, E. cbn.
      split; [reflexivity|]. split; [exact K0 | left; reflexivity].
    + apply P in H; [|rewrite !forallb_app, E; reflexivity].
      destruct H as (A & B & C). split; [exact A|]. split; [congruence|exact C].
  - destruct (r0 =? -3).
    + apply P in H; [|rewrite !forallb_app, E; reflexivity].
      destruct H as (A & B & C). split; [exact A|]. split; [congruence|exact C].
    + inversion H; subst. rewrite !forallb_app, E. cbn.
      split; [reflexivity|]. split; [exact K0 | left; reflexivity].
Qed.

(** X1.  Every return of [send_frames] is 0 or -1.  It returns 0 only from
    the end of the function: the last things it does are then to close the
    image, to say "Done" and to sleep for the reset time.  Whatever it
    returns, it has done nothing but log, wait, read, write, close the file
    and sleep, and it has left the addresses and versions of the context
    alone.  Whether it returns is not stated: in the C code the re-reads
    of the state machine and the loop after a retry go on for as long as
    the chip gives the answers for it. *)
Theorem send_frames_outcome junk buffer0 ctx t r c t' evs :
  send_frames junk buffer0 ctx t = Some (r, c, t', evs) ->
  forallb is_session_event evs = true
  /\ settings c = settings ctx
  /\ (r = -1
      \/ (r = 0
          /\ exists before,
              evs = before ++ [EvFclose; EvLog LOG_INFO "Done" [];
                               EvSleep MXT_RESET_TIME])).
Proof. apply send_frames_ends. Qed.

(** The session over the one-frame image with a chip that takes the frame
    returns 0, at the end of the function. *)
Lemma send_frames_outcome_witness :
  exists c t' before,
    send_frames 0 Scenarios.zero_buffer
                (Scenarios.ctx_of Scenarios.one_frame)
                Scenarios.accepts_one_frame
    = Some (0, c, t',
            before ++ [EvFclose; EvLog LOG_INFO "Done" [];
                       EvSleep MXT_RESET_TIME])
    /\ settings c = settings (Scenarios.ctx_of Scenarios.one_frame).
Proof.
  assert (E : exists c t' evs,
             send_frames 0 Scenarios.zero_buffer
                         (Scenarios.ctx_of Scenarios.one_frame)
                         Scenarios.accepts_one_frame
             = Some (0, c, t', evs)).
  { vm_compute. do 3 eexists. reflexivity. }
  destruct E as (c & t' & evs & E).
  destruct (send_frames_outcome _ _ _ _ _ _ _ _ E)
    as (_ & K & [R|[_ (before & ->)]]); [discriminate R|].
  exists c, t', before. split; [exact E | exact K].
Defined.

(** ** The version gate and the verification *)

Ltac split_goal_ifs :=
  repeat match goal with
         | |- context [if ?b then _ else _] => destruct b eqn:?
         | |- context [match ?x with E_SYSFS => _ | _ => _ end] =>
             destruct x eqn:?
         end.

Lemma init_chip_reset_gate p ctx r c ev :
  init_chip_reset p ctx = (r, c, ev) ->
  check_version c = check_version ctx
  /\ new_version c = new_version ctx
  /\ In EvGetInfo ev
  /\ (check_version ctx = true -> new_version ctx = firmware_version p ->
      r = -1 /\ ~ In (EvReset true) ev).
Proof.
  unfold init_chip_reset. intros H.
  cbn [check_version new_version curr_version set_curr_version] in H.
  split_ifs H; inversion H; subst; clear H;
    cbn [check_version new_version set_curr_version set_addresses];
    (split; [reflexivity|]); (split; [reflexivity|]);
    (split; [cbn; auto|]); intros Hc Hn;
    try match goal with
        | A : (_ && _) = false |- _ =>
            rewrite Hc, Hn, String.eqb_refl in A; discriminate A
        end;
    (split; [reflexivity|]);
    cbn; intros D;
    repeat match goal with
           | D : _ \/ _ |- _ => destruct D as [D|D]
           end; try discriminate D; contradiction.
Qed.

Lemma init_chip_gate p ctx adapter addr r c ev :
  mxt_bootloader_init_chip p ctx adapter addr = (r, c, ev) ->
  check_version c = check_version ctx
  /\ new_version c = new_version ctx
  /\ (check_version ctx = true -> new_version ctx = firmware_version p ->
      ~ In (EvReset true) ev /\ (In EvGetInfo ev -> r = -1)).
Proof.
  unfold mxt_bootloader_init_chip. intros H.
  repeat match type of H with
         | context [init_chip_reset ?p ?c] =>
             let E := fresh "E" in
             destruct (init_chip_reset p c) as [[? ?] ?] eqn:E;
             apply init_chip_reset_gate in E;
             cbn [check_version new_version set_addresses] in E;
             destruct E as (? & ? & ? & ?)
         | context [if ?b then _ else _] => destruct b eqn:?
         | context [match ?x with E_SYSFS => _ | _ => _ end] =>
             destruct x eqn:?
         end;
    inversion H; subst; clear H; cbn [check_version new_version set_addresses];
    (split; [auto|]); (split; [auto|]); intros Hc Hn;
    repeat match goal with
           | G : check_version ctx = true -> _ |- _ =>
               destruct (G Hc Hn) as [? ?]; clear G
           end;
    repeat rewrite in_app_iff; cbn [In LOG app];
    split; try (intros _; assumption);
    intros D;
    repeat match goal with
           | D : _ \/ _ |- _ => destruct D as [D|D]
           end; try discriminate D; try contradiction.
Qed.

Lemma init_chip_reset_quiet p ctx r c ev :
  init_chip_reset p ctx = (r, c, ev) -> io_only ev = [].
Proof.
  unfold init_chip_reset. intros H.
  split_ifs H; inversion H; reflexivity.
Qed.

(** [mxt_bootloader_init_chip] does not talk to the bootloader: no wait,
    no read, no write. *)
Lemma init_chip_quiet p ctx adapter addr r c ev :
  mxt_bootloader_init_chip p ctx adapter addr = (r, c, ev) -> io_only ev = [].
Proof.
  unfold mxt_bootloader_init_chip. intros H.
  repeat match type of H with
         | context [init_chip_reset ?p ?c] =>
             let E := fresh "E" in
             destruct (init_chip_reset p c) as [[? ?] ?] eqn:E;
             apply init_chip_reset_quiet in E
         | context [if ?b then _ else _] => destruct b eqn:?
         | context [match ?x with E_SYSFS => _ | _ => _ end] =>
             destruct x eqn:?
         end;
    inversion H; subst; clear H;
    repeat rewrite io_only_app; cbn [io_only filter is_io LOG app];
    try reflexivity; assumption.
Qed.

Lemma session_events_no_reset ev b :
  forallb is_session_event ev = true -> ~ In (EvReset b) ev.
Proof.
  induction ev as [|e ev IH]; [intros _ []|].
  cbn [forallb]. intros H. apply andb_true_iff in H. destruct H as [He H].
  intros [D|D]; [subst e; discriminate He | exact (IH H D)].
Qed.

Lemma verify_no_reset env ctx r c ev b :
  verify env ctx = (r, c, ev) -> ~ In (EvReset b) ev.
Proof.
  unfold verify. intros H.
  split_ifs H; inversion H; subst; clear H; cbn; intros D;
    repeat match goal with
           | D : _ \/ _ |- _ => destruct D as [D|D]
           end; try discriminate D; contradiction.
Qed.

Lemma flash_frames_no_reset env junk buffer0 ctx t r c t' ev b :
  flash_frames env junk buffer0 ctx t = Some (r, c, t', ev) ->
  ~ In (EvReset b) ev.
Proof.
  unfold flash_frames. intros H.
  assert (Pre : forall o l,
             (if device_type_eqb (type_before_frames env) E_I2C_DEV then
                if bootloader_address ctx =? -1 then
                  (Some (-1), LOG LOG_ERROR "No bootloader address!" [])
                else
                  (None,
                   LOG LOG_DEBUG "i2c_adapter:%d" [i2c_adapter ctx]
                   ++ LOG LOG_DEBUG "appmode_address:%02X" [appmode_address ctx]
                   ++ LOG LOG_DEBUG "bootloader_address:%02X"
                        [bootloader_address ctx]
                   ++ [EvSetAddress (i2c_adapter ctx) (bootloader_address ctx)])
              else if HAVE_LIBUSB (init_answers env)
                      && device_type_eqb (type_before_frames env) E_USB
                      && negb (usb_bootloader_before_frames env) then
                if scan_before_frames env <? 1 then
                  (Some (-1),
                   [EvScan]
                   ++ LOG LOG_INFO "Could not find device in bootloader mode" [])
                else (None, [EvScan])
              else (None, [])) = (o, l) ->
             ~ In (EvReset b) l).
  { intros o l Q. split_ifs Q; inversion Q; subst; cbn; intros D;
      repeat match goal with
             | D : _ \/ _ |- _ => destruct D as [D|D]
             end; try discriminate D; contradiction. }
  match type of H with
  | match ?p with _ => _ end = _ => destruct p as [[r0|] l]
  end; pose proof (Pre _ _ eq_refl) as P; clear Pre.
  - inversion H; subst. exact P.
  - destruct (send_frames junk buffer0 ctx t) as [[[[r1 c1] t1] e1]|] eqn:S;
      [|discriminate].
    destruct (send_frames_ends _ _ _ _ _ _ _ _ S) as (Se & _ & _).
    pose proof (session_events_no_reset _ b Se) as N1.
    destruct (negb (r1 =? 0)).
    + inversion H; subst. rewrite in_app_iff. tauto.
    + destruct (appmode_address c1 <? 0).
      * inversion H; subst. rewrite !in_app_iff. cbn [In LOG]. intros D.
        repeat match goal with
               | D : _ \/ _ |- _ => destruct D as [D|D]
               end; try discriminate D; try contradiction.
      * destruct (verify env c1) as [[r2 c2] e2] eqn:V.
        apply (verify_no_reset _ _ _ _ _ b) in V.
        inversion H; subst. rewrite !in_app_iff. tauto.
Qed.

(** X15.  The version gate.  The caller asks for a version and the chip reports
    that very version.  Then the session never resets the chip; and if the
    initialisation reads the info block at all, the session stops there
    with -1: what it has done is the initialisation, without a wait, a
    read or a write on the bootloader. *)
Theorem already_at_version_not_flashed
    env junk buffer0 stack t version adapter addr content :
  image env = Some content ->
  version <> EmptyString ->
  firmware_version (init_answers env) = version ->
  let '(_, _, ev_init) :=
    mxt_bootloader_init_chip (init_answers env)
      (set_check_version true version (set_fp (fopen content) stack))
      adapter addr in
  match mxt_flash_firmware env junk buffer0 stack t version adapter addr with
  | Some (r, _, _, evs) =>
      ~ In (EvReset true) evs
      /\ (In EvGetInfo ev_init -> r = -1 /\ io_only evs = [])
  | None => False
  end.
Proof.
  intros Hi Hv Hf. unfold mxt_flash_firmware. rewrite Hi.
  assert (L : (0 <? String.length version)%nat = true)
    by (destruct version; [contradiction Hv; reflexivity | reflexivity]).
  rewrite L.
  destruct (mxt_bootloader_init_chip _ _ _ _) as [[ri ci] evi] eqn:I.
  destruct (init_chip_gate _ _ _ _ _ _ _ I) as (Cv & Nv & G).
  cbn [check_version new_version set_check_version] in Cv, Nv, G.
  destruct (G eq_refl (eq_sym Hf)) as [Nr Gi].
  pose proof (init_chip_quiet _ _ _ _ _ _ _ I) as Q.
  destruct (negb (ri =? 0)) eqn:R.
  - split.
    + rewrite !in_app_iff. cbn [In LOG]. intros D.
      repeat match goal with
             | D : _ \/ _ |- _ => destruct D as [D|D]
             end; try discriminate D; try contradiction.
    + intros Hg. split; [exact (Gi Hg)|].
      rewrite !io_only_app, Q. reflexivity.
  - destruct (flash_frames env junk buffer0 ci t)
      as [[[[r c] t'] ev]|] eqn:F.
    + split.
      * pose proof (flash_frames_no_reset _ _ _ _ _ _ _ _ _ true F) as N.
        rewrite !in_app_iff. cbn [In LOG]. intros D.
        repeat match goal with
               | D : _ \/ _ |- _ => destruct D as [D|D]
               end; try discriminate D; try contradiction.
      * intros Hg. rewrite (Gi Hg) in R. discriminate R.
    + unfold flash_frames in F.
      destruct (send_frames_returns junk buffer0 ci t) as [[[[r1 c1] t1] e1] S].
      rewrite S in F.
      repeat match type of F with
             | context [if ?b then _ else _] => destruct b
             | context [verify ?e ?c] => destruct (verify e c) as [[? ?] ?]
             end; discriminate F.
Qed.

(** The hypotheses of [already_at_version_not_flashed] hold for a chip at
    address 0x4A that runs the version asked for: the session returns -1
    without a reset and without a word to the bootloader. *)
Lemma already_at_version_not_flashed_witness :
  match Sessions.flash "1.0.AA" "1.0.AA" "1.0.AA" with
  | Some (r, _, _, evs) =>
      ~ In (EvReset true) evs /\ r = -1 /\ io_only evs = []
  | None => False
  end.
Proof.
  pose proof (already_at_version_not_flashed
                (Sessions.flash_answers "1.0.AA" "1.0.AA") 0
                Scenarios.zero_buffer (Scenarios.ctx_of "")
                (Scenarios.acks 2) "1.0.AA" 1 0x4a Scenarios.two_frames
                eq_refl ltac:(discriminate) eq_refl) as H.
  unfold Sessions.flash.
  destruct (mxt_bootloader_init_chip _ _ _ _) as [[ri ci] evi] eqn:I.
  destruct (mxt_flash_firmware _ _ _ _ _ _ _ _) as [[[[r c] t'] evs]|];
    [|exact H].
  destruct H as [N G]. split; [exact N|]. apply G.
  vm_compute in I. inversion I. cbn. auto 10.
Defined.

Lemma verify_success env ctx c ev :
  verify env ctx = (0, c, ev) ->
  check_version ctx = true ->
  version_after_frames env = new_version ctx
  /\ info_after_frames env = 0
  /\ appmode_address c = appmode_address ctx.
Proof.
  unfold verify. intros H Hc.
  cbn [check_version new_version curr_version set_curr_version] in H.
  rewrite Hc in H. cbn [negb] in H.
  destruct (String.eqb_spec (version_after_frames env) (new_version ctx));
    destruct (Z.eqb_spec (info_after_frames env) 0);
    cbn [negb] in H;
    split_ifs H; inversion H; subst; cbn; auto.
Qed.

Lemma flash_frames_success env junk buffer0 ctx t c t' ev :
  flash_frames env junk buffer0 ctx t = Some (0, c, t', ev) ->
  check_version ctx = true ->
  0 <= appmode_address c ->
  version_after_frames env = new_version ctx
  /\ info_after_frames env = 0
  /\ In EvFclose ev.
Proof.
  unfold flash_frames. intros H Hc Ha.
  destruct (send_frames junk buffer0 ctx t) as [[[[r1 c1] t1] e1]|] eqn:S.
  - destruct (send_frames_ends _ _ _ _ _ _ _ _ S) as (_ & K & E).
    unfold settings in K. inversion K as [[Kv Ki Kb Kap Kc Kn]].
    destruct (verify env c1) as [[r2 c2] e2] eqn:V.
    destruct (Z.eqb_spec r1 0) as [->|Hr]; cbn [negb] in H.
    + destruct E as [E|[_ [before ->]]]; [discriminate E|].
      destruct (Z.ltb_spec (appmode_address c1) 0) as [Hneg|Hpos].
      * split_ifs H; inversion H; subst; lia.
      * split_ifs H; inversion H; subst;
          apply verify_success in V; try congruence;
          destruct V as (V1 & V2 & V3);
          (split; [congruence|]); (split; [exact V2|]);
          cbn [app LOG]; repeat rewrite in_app_iff; cbn [In];
          repeat rewrite in_app_iff; cbn [In]; auto 12.
    + split_ifs H; inversion H; subst; contradiction Hr; reflexivity.
  - split_ifs H; inversion H.
Qed.

(** X16.  The verification.  If the caller asks for a version and the session
    returns 0 with an application-mode address in the context, then the
    frame loop has run to the end of the image, the info block has been
    read again after it, and the chip then reports the version asked
    for. *)
Theorem verified_version
    env junk buffer0 stack t version adapter addr c t' evs :
  mxt_flash_firmware env junk buffer0 stack t version adapter addr
  = Some (0, c, t', evs) ->
  version <> EmptyString ->
  0 <= appmode_address c ->
  version_after_frames env = version
  /\ info_after_frames env = 0
  /\ In EvFclose evs.
Proof.
  unfold mxt_flash_firmware. intros H Hv Ha.
  destruct (image env) as [content|]; [|discriminate].
  assert (L : (0 <? String.length version)%nat = true)
    by (destruct version; [contradiction Hv; reflexivity | reflexivity]).
  rewrite L in H.
  destruct (mxt_bootloader_init_chip _ _ _ _) as [[ri ci] evi] eqn:I.
  destruct (init_chip_gate _ _ _ _ _ _ _ I) as (Cv & Nv & _).
  cbn [check_version new_version set_check_version] in Cv, Nv.
  destruct (Z.eqb_spec ri 0) as [->|Hr]; cbn [negb] in H;
    [|inversion H; subst; contradiction Hr; reflexivity].
  destruct (flash_frames env junk buffer0 ci t)
    as [[[[r1 c1] t1] ev1]|] eqn:F; [|discriminate].
  inversion H; subst; clear H.
  destruct (flash_frames_success _ _ _ _ _ _ _ _ F Cv Ha) as (V & Inf & Cl).
  split; [congruence|]. split; [exact Inf|].
  cbn [app LOG]. repeat rewrite in_app_iff. cbn [In].
  repeat rewrite in_app_iff. auto 10.
Qed.


(** The hypotheses of [verified_version] hold for a chip at address 0x4A
    that runs 1.0.AA, takes the two frames and then reports 2.0.AA, the
    version asked for. *)
Lemma verified_version_witness :
  match Sessions.flash "1.0.AA" "2.0.AA" "2.0.AA" with
  | Some (r, _, _, evs) =>
      r = 0
      /\ version_after_frames (Sessions.flash_answers "1.0.AA" "2.0.AA")
         = "2.0.AA"%string
      /\ In EvFclose evs
  | None => False
  end.
Proof.
  unfold Sessions.flash.
  assert (E : exists c t' evs,
             mxt_flash_firmware (Sessions.flash_answers "1.0.AA" "2.0.AA") 0
               Scenarios.zero_buffer (Scenarios.ctx_of "") (Scenarios.acks 2)
               "2.0.AA" 1 0x4a
             = Some (0, c, t', evs)
             /\ appmode_address c = 0x4a).
  { vm_compute. do 3 eexists. split; reflexivity. }
  destruct E as (c & t' & evs & E & A).
  rewrite E. split; [reflexivity|].
  destruct (verified_version _ _ _ _ _ _ _ _ _ _ _ E ltac:(discriminate)
              ltac:(rewrite A; discriminate)) as (V & _ & F).
  split; [exact V | exact F].
Defined.

(** ** The list of kernel messages *)

Import DmesgBytes.

Lemma listed_timestamp st st' p :
  timestamp st' = timestamp st -> mtimestamp st' = mtimestamp st ->
  listed st' p = listed st p.
Proof.
  intros T M. unfold listed, newer. rewrite T, M. reflexivity.
Qed.

(** The loop of [sysfs_get_msg_count]: it appends the nodes of the listed
    lines, in order, until the list has 501 nodes. *)
Lemma scan_lines_spec width lines :
  forall cur st cur' st',
    counted st -> dmesg_count st <= 500 ->
    scan_lines width lines cur st = (cur', st') ->
    let sel := filter (listed st) (records cur lines) in
    dmesg_list st'
    = dmesg_list st
        ++ firstn (501 - List.length (dmesg_list st))
                  (map (fun p => node_of width (snd p)) sel)
    /\ counted st'
    /\ dmesg_ptr st' = dmesg_ptr st
    /\ timestamp st' = timestamp st /\ mtimestamp st' = mtimestamp st
    /\ ((List.length (dmesg_list st) + List.length sel <= 500)%nat ->
        cur' = last (map snd (records cur lines)) cur).
Proof.
  induction lines as [|l lines IH]; intros cur st cur' st' Hc Hn H;
    cbn [scan_lines] in H.
  - inversion H; subst. cbn. rewrite firstn_nil, app_nil_r.
    repeat split; auto.
  - fold (scanned cur l) in H. set (cur1 := scanned cur l) in *.
    cbn [records]. fold cur1. cbn [filter].
    assert (Sel : (ln_n l >? 0)
                  && ((cur_sec cur1 >? timestamp st)
                      || ((cur_sec cur1 =? timestamp st)
                          && (cur_msec cur1 >? mtimestamp st)))
                  && contains_MXT (cur_msg cur1)
                  = listed st (l, cur1)) by reflexivity.
    rewrite Sel in H. clear Sel.
    assert (Last : forall d,
               last (map snd ((l, cur1) :: records cur1 lines)) d
               = last (map snd (records cur1 lines)) cur1).
    { intros d. cbn [map snd]. generalize (map snd (records cur1 lines)).
      intros [|x xs]; [reflexivity|].
      cbn [last]. revert x. induction xs as [|y ys IHx]; intros x;
        [reflexivity|]. cbn [last] in *. apply IHx. }
    unfold counted in Hc.
    destruct (listed st (l, cur1)) eqn:Sel.
    + assert (Hc1 : counted (dmesg_list_add width cur1 st)).
      { unfold counted, dmesg_list_add. cbn [dmesg_count dmesg_list].
        rewrite length_app. cbn [List.length]. lia. }
      cbn [map snd List.length].
      destruct (dmesg_count (dmesg_list_add width cur1 st) >? 500) eqn:Cap.
      * inversion H; subst cur' st'; clear H.
        unfold dmesg_list_add in Cap |- *.
        cbn [dmesg_count dmesg_list dmesg_ptr timestamp mtimestamp] in *.
        apply Z.gtb_lt in Cap.
        replace (501 - List.length (dmesg_list st))%nat with 1%nat by lia.
        cbn [firstn].
        split; [reflexivity|]. split; [exact Hc1|].
        repeat (split; [reflexivity|]). intros B. lia.
      * assert (Hn1 : dmesg_count (dmesg_list_add width cur1 st) <= 500)
          by (destruct (Z.gtb_spec (dmesg_count (dmesg_list_add width cur1 st))
                          500); [discriminate|lia]).
        destruct (IH _ _ _ _ Hc1 Hn1 H) as (L & C & P & T & M & Lst).
        rewrite (filter_ext _ _ (fun p => listed_timestamp st
                   (dmesg_list_add width cur1 st) p eq_refl eq_refl)) in L, Lst.
        unfold dmesg_list_add in L, Lst, Hn1.
        cbn [dmesg_count dmesg_list dmesg_ptr timestamp mtimestamp] in *.
        rewrite length_app in L, Lst. cbn [List.length] in L, Lst.
        split.
        { rewrite L, <- app_assoc. cbn [app]. f_equal.
          replace (501 - List.length (dmesg_list st))%nat
            with (S (501 - (List.length (dmesg_list st) + 1))) by lia.
          reflexivity. }
        split; [exact C|]. split; [exact P|]. split; [exact T|].
        split; [exact M|].
        intros B. rewrite Last. apply Lst. lia.
    + destruct (Z.gtb_spec (dmesg_count st) 500) as [|_]; [lia|].
      destruct (IH _ _ _ _ Hc Hn H) as (L & C & P & T & M & Lst).
      split; [exact L|]. split; [exact C|]. split; [exact P|].
      split; [exact T|]. split; [exact M|].
      intros B. rewrite Last. exact (Lst B).
Qed.

(** X17.  [sysfs_get_msg_count] on a kernel log that could be read, from a
    state whose counter agrees with its list.  The new list is made of the
    lines that pass the three tests against the time stamp held on entry
    ([sscanf] assigned something, the time is newer, the message contains
    "MXT"), in order, up to the 501st; the message tested and listed is
    the one [cur_dmesg] holds, which for a line that assigned the time
    only is the message of an earlier line, or what the uninitialised
    [cur_dmesg] held.  A node has the message cut
    at the width given to [strncpy], the microseconds in its field [sec]
    and its field [msec] not written.  The value returned is the length
    of the list, and the cursor is at its head.  When no more than 500
    lines are listed the new time stamp is the time of the last line of
    the log, listed or not, and what the uninitialised [cur_dmesg] held
    if the log has no line. *)
Theorem sysfs_get_msg_count_lists width cur0 lines st :
  counted st ->
  let '(n, st') := sysfs_get_msg_count width cur0 (Some lines) st in
  let sel := filter (listed st) (records cur0 lines) in
  dmesg_list st' = firstn 501 (map (fun p => node_of width (snd p)) sel)
  /\ n = Z.of_nat (List.length (dmesg_list st'))
  /\ dmesg_ptr st' = dmesg_list st'
  /\ ((List.length sel <= 500)%nat ->
      let final := last (map snd (records cur0 lines)) cur0 in
      timestamp st' = cur_sec final /\ mtimestamp st' = cur_msec final).
Proof.
  intros Hc. unfold sysfs_get_msg_count.
  assert (E : counted (dmesg_list_empty st)
              /\ dmesg_list (dmesg_list_empty st) = []
              /\ timestamp (dmesg_list_empty st) = timestamp st
              /\ mtimestamp (dmesg_list_empty st) = mtimestamp st).
  { unfold dmesg_list_empty, counted in *.
    destruct (dmesg_list st) eqn:L; cbn; rewrite ?L; cbn in *; auto. }
  destruct E as (Ec & El & Et & Em).
  assert (E0 : dmesg_count (dmesg_list_empty st) <= 500)
    by (unfold counted in Ec; rewrite Ec, El; cbn; lia).
  destruct (scan_lines width lines cur0 (dmesg_list_empty st))
    as [cur st1] eqn:S.
  destruct (scan_lines_spec _ _ _ _ _ _ Ec E0 S) as (L & C & _ & _ & _ & Lst).
  rewrite (filter_ext _ _ (fun p => listed_timestamp st
             (dmesg_list_empty st) p Et Em)) in L, Lst.
  rewrite El in L, Lst. cbn [app List.length Nat.sub Nat.add] in L, Lst.
  cbn [dmesg_count dmesg_list dmesg_ptr timestamp mtimestamp].
  split; [exact L|]. split; [exact C|]. split; [reflexivity|].
  intros B. rewrite (Lst B). split; reflexivity.
Qed.

(** The hypothesis of [sysfs_get_msg_count_lists] holds in the initial
    state.  Of the three lines of [DmesgSessions.stale_lines] two are
    listed, both with the touch message: the second line gave the time
    only. *)
Lemma sysfs_get_msg_count_lists_witness :
  let '(n, st') :=
    sysfs_get_msg_count 512 (mkCur "" 0 0)
                        (Some DmesgSessions.stale_lines) initial in
  n = 2
  /\ dmesg_list st'
     = [mkItem "MXT MSG: 01 02" 500 None; mkItem "MXT MSG: 01 02" 0 None]
  /\ timestamp st' = 12.
Proof.
  pose proof (sysfs_get_msg_count_lists 512 (mkCur "" 0 0)
                DmesgSessions.stale_lines initial eq_refl) as H.
  destruct (sysfs_get_msg_count _ _ _ _) as [n st'].
  destruct H as (L & N & _ & T).
  rewrite N, L. split; [reflexivity|]. split; [reflexivity|].
  apply T. vm_compute. lia.
Defined.

Lemma scan_bytes_length scan room :
  forall message,
    (List.length (scan_bytes scan room message) <= S room)%nat.
Proof.
  induction room as [|room IH]; intros message; cbn [scan_bytes];
    destruct (scan message) as [[b off]|]; cbn [List.length]; try lia.
  specialize (IH (advance off message)). lia.
Qed.

(** X18.  [sysfs_get_msg_bytes] takes the next message off the list whatever it
    holds, and fails (a null dereference in the C code) when the cursor is
    null.  The value it returns is the number of bytes stored, which is 0
    when the message does not start with the prefix and never more than
    the length of the buffer, or than 1 if that is more: the test against
    the length of the buffer comes after the store, so that with a buffer
    of length 0 a message that scans stores one byte. *)
Theorem sysfs_get_msg_bytes_bound MSG_PREFIX scan buflen st :
  match sysfs_get_msg_bytes MSG_PREFIX scan buflen st with
  | None => dmesg_ptr st = []
  | Some (n, stored, st') =>
      n = Z.of_nat (List.length stored)
      /\ (List.length stored <= Nat.max 1 buflen)%nat
      /\ dmesg_ptr st' = tl (dmesg_ptr st)
      /\ exists node,
          hd_error (dmesg_ptr st) = Some node
          /\ (prefix MSG_PREFIX (msg node) = false -> stored = [])
          /\ (prefix MSG_PREFIX (msg node) = true ->
              scan (advance (String.length MSG_PREFIX) (msg node)) <> None ->
              buflen = 0%nat -> List.length stored = 1%nat)
  end.
Proof.
  unfold sysfs_get_msg_bytes, sysfs_get_msg_string.
  destruct (dmesg_ptr st) as [|node p] eqn:P; cbn [deref]; [reflexivity|].
  cbn [is_null negb next tl hd_error].
  destruct (prefix MSG_PREFIX (msg node)) eqn:Pre; cbn [negb].
  - split; [reflexivity|]. split.
    + pose proof (scan_bytes_length scan (buflen - 1)
                    (advance (String.length MSG_PREFIX) (msg node))). lia.
    + split; [reflexivity|]. exists node. split; [reflexivity|].
      split; [intros D; rewrite Pre in D; discriminate D|].
      intros _ Hs ->. cbn [Nat.sub scan_bytes].
      destruct (scan _) as [[b off]|];
        [reflexivity | contradiction Hs; reflexivity].
  - split; [reflexivity|]. split; [cbn [List.length]; lia|].
    split; [reflexivity|]. exists node. split; [reflexivity|].
    split; [reflexivity|]. intros D; rewrite Pre in D; discriminate D.
Qed.

Example sysfs_get_msg_bytes_example :
  let st := snd (sysfs_get_msg_count 512 (mkCur "" 0 0)
                   (Some DmesgSessions.three_lines) initial) in
  match sysfs_get_msg_bytes "MXT MSG:" DmesgSessions.scan_two_digits 8 st with
  | Some (n, stored, _) => n = 2 /\ stored = [0x01; 0x02]
  | None => False
  end.
Proof. vm_compute. split; reflexivity. Qed.

(** ** The state machine and the rest of the session *)

(** X4.  A call of the state machine only waits, reads and logs: it writes
    nothing to the chip and leaves the firmware file, the addresses and
    the versions of the context alone.  It never gives an answer back to
    the chip's script, and it takes at least one unless it returns -1. *)
Theorem state_machine_only_reads reads ctx state :
  let '(r, c, rest, ev) := mxt_check_bootloader reads ctx state in
  forallb is_handshake_event ev = true
  /\ writes_of ev = []
  /\ fp c = fp ctx
  /\ settings c = settings ctx
  /\ (List.length rest <= List.length reads)%nat
  /\ (r <> -1 -> (List.length rest < List.length reads)%nat).
Proof.
  destruct (mxt_check_bootloader reads ctx state) as [[[r c] rest] ev] eqn:E.
  destruct (mxt_check_bootloader_consumes _ _ _ _ _ _ _ E) as [L1 L2].
  split; [exact (mxt_check_bootloader_events _ _ _ _ _ _ _ E)|].
  split; [exact (mxt_check_bootloader_writes _ _ _ _ _ _ _ E)|].
  split; [exact (mxt_check_bootloader_fp _ _ _ _ _ _ _ E)|].
  split; [exact (mxt_check_bootloader_settings _ _ _ _ _ _ _ E)|].
  split; assumption.
Qed.

(** X5.  While the identity is unknown, a wait for the command that succeeds
    always ends in extended-id mode with the identity still unknown,
    whatever the id bits of the status byte. *)
Theorem command_wait_ends_in_extended_id_mode reads ctx :
  let '(r, c, _, _) :=
    mxt_check_bootloader reads ctx MXT_WAITING_BOOTLOAD_CMD in
  have_bootloader_version ctx = false -> r = 0 ->
  extended_id_mode c = true /\ have_bootloader_version c = false.
Proof.
  destruct (mxt_check_bootloader reads ctx MXT_WAITING_BOOTLOAD_CMD)
    as [[[r c] rest] ev] eqn:E.
  intros Hh ->. exact (identity_never_latched_by_command _ _ _ _ _ Hh E).
Qed.

(** The status byte 0xC0, whose id bits are all clear, is such a wait. *)
Lemma command_wait_ends_in_extended_id_mode_witness :
  let '(r, c, _, _) :=
    mxt_check_bootloader [Scenarios.status 0xc0] (Scenarios.ctx_of "")
                         MXT_WAITING_BOOTLOAD_CMD in
  r = 0 /\ extended_id_mode c = true /\ have_bootloader_version c = false.
Proof.
  pose proof (command_wait_ends_in_extended_id_mode
                [Scenarios.status 0xc0] (Scenarios.ctx_of "")) as H.
  revert H. vm_compute. intros H.
  split; [reflexivity | apply H; reflexivity].
Defined.

(** X10.  What the write of a frame returns has no effect on the pass: with two
    transports that differ in that return value only, the handshake and
    the CRC check go the same way and leave the same context, the same
    answers of the chip and the same counters. *)
Theorem frame_write_return_value_ignored s w1 w2 ws :
  let with_write w :=
    mkFrameState (fs_ctx s)
                 (mkTransport (t_reads (fs_transport s)) (w :: ws))
                 (buffer s) (frame_size s) (frame s) (frame_retry s) in
  let '(c1, s1, _) := transmit_frame (with_write w1) in
  let '(c2, s2, _) := transmit_frame (with_write w2) in
  c1 = c2 /\ fs_ctx s1 = fs_ctx s2
  /\ t_reads (fs_transport s1) = t_reads (fs_transport s2)
  /\ frame s1 = frame s2 /\ frame_retry s1 = frame_retry s2.
Proof. exact (frame_write_result_unused s w1 w2 ws). Qed.

(** X11.  A transmission that passes emits one progress message, informational
    exactly when the number of the next frame is a multiple of 20, that
    is after the 19th, the 39th, ... frame acknowledged; a transmission
    that does not pass emits none. *)
Theorem progress_message_of_a_pass s :
  let '(_, s', ev) := transmit_frame s in
  progress_levels ev =
    if frame s' =? frame s then []
    else [if Z.rem (frame s + 1) 20 =? 0 then LOG_INFO else LOG_VERBOSE].
Proof.
  destruct (transmit_frame s) as [[c s'] ev] eqn:E.
  exact (progress_level_of_pass _ _ _ _ E).
Qed.

(** ** Reading hexadecimal digits *)

(** X12.  [get_hex_value] reads back what [hex_of_byte] writes: on a file that
    goes on with the two digits of a byte it returns 1, stores the byte
    and leaves the file after the digits. *)
Theorem get_hex_value_round_trip junk ctx b rest :
  0 <= b < 256 ->
  get_hex_value junk (set_fp (mkFILE (hex_of_byte b ++ rest) false) ctx)
  = (1, Some b, set_fp (mkFILE rest false) ctx).
Proof.
  intros H.
  exact (get_hex_value_hex_of_byte junk
           (set_fp (mkFILE (hex_of_byte b ++ rest) false) ctx) b rest H
           eq_refl eq_refl).
Qed.

Lemma get_hex_value_round_trip_witness :
  get_hex_value 0
    (set_fp (mkFILE (hex_of_byte 0xa5 ++ []) false) (Scenarios.ctx_of ""))
  = (1, Some 0xa5, set_fp (mkFILE [] false) (Scenarios.ctx_of "")).
Proof.
  apply (get_hex_value_round_trip 0 (Scenarios.ctx_of "") 0xa5 []).
  split; [discriminate | reflexivity].
Defined.

(** X13.  With fewer than two characters left in the file, [get_hex_value]
    returns [EOF] without a store and leaves the stream at its end with the
    end-of-file indicator set: a single character after the last group is
    dropped. *)
Theorem get_hex_value_end_of_file junk ctx :
  (List.length (f_chars (fp ctx)) < 2)%nat ->
  exists ctx',
    get_hex_value junk ctx = (EOF, None, ctx')
    /\ feof (fp ctx') = true /\ f_chars (fp ctx') = [].
Proof. apply get_hex_value_at_end. Qed.

Lemma get_hex_value_end_of_file_witness :
  exists ctx',
    get_hex_value 0 (Scenarios.ctx_of "A") = (EOF, None, ctx')
    /\ feof (fp ctx') = true /\ f_chars (fp ctx') = [].
Proof.
  apply (get_hex_value_end_of_file 0 (Scenarios.ctx_of "A")). cbn. lia.
Defined.

(** ** A retry is final *)

Lemma read_body_eof junk n :
  forall i ctx buf ctx' buf' ev,
    read_body junk n i ctx buf = (Next, ctx', buf', ev) ->
    f_eof (fp ctx) = false -> f_eof (fp ctx') = false.
Proof.
  induction n as [|n IH]; intros i ctx buf ctx' buf' ev H He;
    cbn [read_body] in H.
  - inversion H; subst. exact He.
  - destruct (get_hex_value junk ctx) as [[r v] c1] eqn:G.
    destruct (Z.eqb_spec r EOF) as [|Hr]; [discriminate|].
    destruct (get_hex_value_consumes _ _ _ _ _ G Hr) as [_ E].
    exact (IH _ _ _ _ _ _ H E).
Qed.

Lemma read_frame_eof junk s s' ev :
  read_frame junk s = (Next, s', ev) -> feof (fp (fs_ctx s')) = false.
Proof.
  unfold read_frame. intros H.
  destruct (get_hex_value junk (fs_ctx s)) as [[r0 v0] ctx1] eqn:G0.
  destruct (Z.eqb_spec r0 EOF) as [|H0]; [discriminate|].
  destruct (get_hex_value junk ctx1) as [[r1 v1] ctx2] eqn:G1.
  destruct (Z.eqb_spec r1 EOF) as [|H1]; [discriminate|].
  destruct (get_hex_value_consumes _ _ _ _ _ G1 H1) as [_ E].
  destruct (_ >? FIRMWARE_BUFFER_SIZE); [discriminate|].
  destruct (read_body _ _ _ _ _) as [[[c' ctx'] buf'] ev'] eqn:B.
  inversion H; subst. cbn [fs_ctx]. unfold feof.
  exact (read_body_eof _ _ _ _ _ _ _ _ B E).
Qed.

Lemma frame_iter_first_retry junk s s1 ev1 :
  frame_retry s = 0 ->
  frame_iter junk s = (Next, s1, ev1) ->
  (frame_retry s1 = 0 /\ retries ev1 = 0%nat)
  \/ (frame_retry s1 = 1 /\ feof (fp (fs_ctx s1)) = false).
Proof.
  intros H0 H. unfold frame_iter in H. rewrite H0 in H.
  change (0 =? 0) with true in H. cbv iota in H.
  destruct (read_frame junk s) as [[c0 s0] e0] eqn:R.
  destruct c0; try discriminate.
  destruct (transmit_frame s0) as [[c2 s2] e2] eqn:T.
  inversion H; subst; clear H.
  pose proof (read_frame_no_retry _ _ _ _ _ R) as N0.
  destruct (read_frame_transport _ _ _ _ _ R) as (_ & Rt & _).
  pose proof (read_frame_eof _ _ _ _ R) as E0.
  pose proof (transmit_frame_spec _ _ _ _ T) as (_ & _ & Fp & _ & _ & _).
  destruct (transmit_frame_retries _ _ _ _ T) as [[A B]|(A & B & C)].
  - left. rewrite retries_app, N0, B. split; [congruence | reflexivity].
  - right. split; [lia|]. unfold feof in *. rewrite Fp. exact E0.
Qed.

Lemma frame_loop_retried junk fuel :
  forall s r s' ev,
    frame_retry s = 0 ->
    frame_loop junk fuel s = Some (r, s', ev) ->
    (0 < retries ev)%nat -> r = Some (-1).
Proof.
  induction fuel as [|fuel IH]; intros s r s' ev H0 H Hr; [discriminate|].
  cbn [frame_loop] in H.
  destruct (feof _); [inversion H; subst; cbn in Hr; lia|].
  destruct (frame_iter junk s) as [[c s1] ev1] eqn:E.
  destruct (frame_iter_session_events _ _ _ _ _ E) as [_ Ret].
  destruct c.
  - destruct (frame_loop junk fuel s1) as [[[r2 s2] ev2]|] eqn:L;
      [|discriminate].
    inversion H; subst; clear H.
    destruct (frame_iter_first_retry _ _ _ _ H0 E) as [[A B]|[A B]].
    + rewrite retries_app, B in Hr. exact (IH _ _ _ _ A L Hr).
    + assert (P : frame_retry s1 > 0) by lia.
      destruct (retry_pending_forever _ _ _ _ _ _ P B L) as [R _].
      exact R.
  - inversion H; subst; clear H. exfalso.
    unfold frame_iter in E. rewrite H0 in E.
    change (0 =? 0) with true in E. cbv iota in E.
    destruct (read_frame junk s) as [[c0 s0] e0] eqn:R.
    pose proof (read_frame_no_retry _ _ _ _ _ R) as N0.
    destruct c0.
    + destruct (transmit_frame s0) as [[c2 s2] e2] eqn:T.
      pose proof (transmit_frame_spec _ _ _ _ T) as (_ & _ & _ & _ & Nb & _).
      inversion E; subst. contradiction Nb; reflexivity.
    + inversion E; subst. lia.
    + discriminate E.
  - inversion H; subst. rewrite (Ret r0 eq_refl). reflexivity.
Qed.

(** X9.  A session that announces a retry does not return 0, whatever the chip
    answers afterwards: the retry counter is not set back when the
    retransmission passes, so that the loop reads no further frame and
    can only leave by [return -1]. *)
Theorem retried_session_fails junk buffer0 ctx t :
  match send_frames junk buffer0 ctx t with
  | Some (r, _, _, evs) => (0 < retries evs)%nat -> r = -1
  | None => False
  end.
Proof.
  destruct (send_frames_returns junk buffer0 ctx t) as [[[[r c] t'] evs] S].
  rewrite S. intros Hr. unfold send_frames in S.
  destruct (mxt_check_bootloader _ _ _) as [[[r0 c0] rest] e0] eqn:E.
  apply mxt_check_bootloader_no_retry in E.
  assert (P : forall t1 pre,
             retries pre = 0%nat ->
             match frame_phase junk buffer0 c0 t1 with
             | Some (r, s, ev') =>
                 Some (r, fs_ctx s, fs_transport s,
                       pre ++ LOG LOG_INFO "Sending frames..." [] ++ ev')
             | None => None
             end = Some (r, c, t', evs) -> r = -1).
  { intros t1 pre Hp Q. unfold frame_phase in Q.
    destruct (frame_loop _ _ _) as [[[r1 s1] ev1]|] eqn:L; [|discriminate].
    destruct r1 as [r1|]; inversion Q; subst; clear Q.
    - rewrite retries_app, Hp in Hr. cbn in Hr.
      pose proof (fun H0 => frame_loop_retried _ _ _ _ _ _ H0 L Hr) as R.
      specialize (R eq_refl).
      inversion R. reflexivity.
    - rewrite retries_app, Hp in Hr. cbn in Hr.
      rewrite retries_app in Hr. cbn in Hr. rewrite Nat.add_0_r in Hr.
      pose proof (fun H0 => frame_loop_retried _ _ _ _ _ _ H0 L Hr) as R.
      specialize (R eq_refl).
      discriminate R. }
  destruct (r0 =? 0).
  - destruct (unlock_bootloader _) as [[w t1] e1] eqn:U.
    unfold unlock_bootloader in U.
    apply mxt_bootloader_write_reads in U. destruct U as [_ ->].
    destruct (w <? 0).
    + inversion S; reflexivity.
    + apply P in S; [exact S|]. rewrite !retries_app, E. reflexivity.
  - destruct (r0 =? -3).
    + apply P in S; [exact S|]. rewrite !retries_app, E. reflexivity.
    + inversion S; reflexivity.
Qed.

(** [Scenarios.retry_then_pass] announces a retry: the session returns -1
    although the retransmission passed. *)
Lemma retried_session_fails_witness :
  match Scenarios.run Scenarios.two_frames Scenarios.retry_then_pass with
  | Some (r, _, _, evs) => retries evs = 1%nat /\ r = -1
  | None => False
  end.
Proof.
  pose proof (retried_session_fails 0 Scenarios.zero_buffer
                (Scenarios.ctx_of Scenarios.two_frames)
                Scenarios.retry_then_pass) as H.
  unfold Scenarios.run.
  destruct (send_frames _ _ _ _) as [[[[r c] t'] evs]|] eqn:E; [|exact H].
  assert (R : retries evs = 1%nat).
  { revert E. vm_compute. intros E. inversion E. reflexivity. }
  split; [exact R | apply H; rewrite R; repeat constructor].
Defined.
